(** * N-HiTS (src/models/nhits/nhits.py): a shallow embedding and its properties

    Definitions first: exceptions and the result monad, scalars, tensors
    as nested lists with torch's broadcasting rules, the two forecast
    passes of [_NHITS] and the forecast pass as the specification words
    it, [IdentityBasis], the pooling layers, the layers of
    the projection network, [_NHITSBlock.__init__] and
    [_NHITS.create_stack] over a heap of block objects.  The theorems
    follow, and then the theorems at concrete inputs. *)

From Stdlib Require Import ZArith QArith Lia String Ascii SpecFloat.
From stdpp Require Import base option list.

Local Close Scope Q_scope.
Local Open Scope Z_scope.

(** ** Exceptions and the result monad *)

(** The assertions of the module, one constructor per [assert] statement. *)
Inductive assertion : Type :=
  | InterpolationModeAssert   (* IdentityBasis.__init__ *)
  | InitializationAssert      (* init_weights, final else *)
  | PoolingModeAssert         (* _NHITSBlock.__init__, first line *)
  | ActivationAssert          (* _NHITSBlock.__init__, ACTIVATIONS *)
  | BlockTypeAssert.          (* _NHITS.create_stack, 'Block type not found!' *)

Inductive exn : Type :=
  | AssertionError (a : assertion)
  | TypeError
  | IndexError
  | ZeroDivisionError
  | ValueError
  | UnboundLocalError
  | AttributeError
  | RuntimeError.             (* torch shape errors *)

Inductive result (A : Type) : Type :=
  | Ok (a : A)
  | Raise (e : exn).
Arguments Ok {A} a.
Arguments Raise {A} e.

#[global] Instance result_ret : MRet result := λ A a, Ok a.
#[global] Instance result_bind : MBind result := λ A B f m,
  match m with
  | Ok a => f a
  | Raise e => Raise e
  end.

(** A [for] loop whose body may raise. *)
Fixpoint foldM {S A : Type} (body : S → A → result S) (l : list A) (s : S) : result S :=
  match l with
  | [] => Ok s
  | a :: l => s' ← body s a; foldM body l s'
  end.

Fixpoint mapM_result {A B : Type} (f : A → result B) (l : list A) : result (list B) :=
  match l with
  | [] => Ok []
  | a :: l => b ← f a; bs ← mapM_result f l; Ok (b :: bs)
  end.

(** ** Scalars

    Tensor entries are floating-point numbers in the source.  The
    development is parametric in the entry type and its operations; no
    algebraic law is assumed unless a theorem states it. *)
Class Scalar (R : Type) : Type := {
  s_add : R → R → R;
  s_sub : R → R → R;
  s_mul : R → R → R;
  s_zero : R;
  s_max : R → R → R;
}.

#[global] Instance Z_scalar : Scalar Z := {|
  s_add := Z.add; s_sub := Z.sub; s_mul := Z.mul; s_zero := 0; s_max := Z.max;
|}.

(** Single-precision scalars.

    The entries of torch's default tensors are IEEE 754 binary32
    numbers: 24 bits of precision, exponents up to 128, rounding to
    nearest even. *)
Definition float32 : Type := spec_float.

Definition float32_is_nan (x : float32) : bool :=
  match x with
  | S754_nan => true
  | _ => false
  end.

(** The running maximum of [max_pool1d]: a value replaces the maximum
    when it is greater or not a number. *)
Definition float32_max (acc x : float32) : float32 :=
  if SFltb acc x || float32_is_nan x then x else acc.

Definition float32_scalar : Scalar float32 := {|
  s_add := SFadd 24 128;
  s_sub := SFsub 24 128;
  s_mul := SFmul 24 128;
  s_zero := S754_zero false;
  s_max := float32_max;
|}.

(** Neither infinite nor not a number. *)
Definition float32_finite (x : float32) : Prop :=
  match x with
  | S754_zero _ | S754_finite _ _ _ => True
  | S754_infinity _ | S754_nan => False
  end.

(** Zero of either sign. *)
Definition float32_zero (x : float32) : Prop :=
  match x with
  | S754_zero _ => True
  | _ => False
  end.

(** ** Tensors

    A 2-D tensor of shape (B, T) is the list of its B rows.  The 3-D
    exogenous tensors carry their sizes, because a tensor with zero
    channels still has a time length ([outsample_x_t.size(2)]). *)
Abbreviation Tensor2 R := (list (list R)).

Record Tensor3 (R : Type) : Type := mkTensor3 {
  size0 : nat;
  size1 : nat;
  size2 : nat;
  data3 : list (list (list R));
}.
Arguments mkTensor3 {R} _ _ _ _.
Arguments size0 {R} _.
Arguments size1 {R} _.
Arguments size2 {R} _.
Arguments data3 {R} _.

Section Tensors.
Context {R : Type} `{Scalar R}.

(** [x.flip(dims=(-1,))] *)
Definition flip2 (x : Tensor2 R) : Tensor2 R := map (@rev R) x.

Definition flip3 (x : Tensor3 R) : Tensor3 R :=
  mkTensor3 (size0 x) (size1 x) (size2 x) (map (map (@rev R)) (data3 x)).

(** [x[:, -1:]] *)
Definition last_column (x : Tensor2 R) : Tensor2 R :=
  map (λ row, drop (length row - 1)%nat row) x.

(** [x.repeat(1, n)] *)
Definition repeat_columns (x : Tensor2 R) (n : nat) : Tensor2 R :=
  map (λ row, concat (replicate n row)) x.

(** torch broadcasting of a binary operation along the last dimension:
    equal sizes, or one of them is 1. *)
Definition broadcast_row (f : R → R → R) (a b : list R) : result (list R) :=
  if decide (length a = length b) then Ok (zip_with f a b)
  else match a, b with
       | [x], _ => Ok (map (f x) b)
       | _, [y] => Ok (map (λ u, f u y) a)
       | _, _ => Raise RuntimeError
       end.

(** ... and along the batch dimension. *)
Definition broadcast2 (f : R → R → R) (x y : Tensor2 R) : result (Tensor2 R) :=
  if decide (length x = length y)
  then mapM_result (λ ab, broadcast_row f ab.1 ab.2) (zip x y)
  else match x, y with
       | [a], _ => mapM_result (λ b, broadcast_row f a b) y
       | _, [b] => mapM_result (λ a, broadcast_row f a b) x
       | _, _ => Raise RuntimeError
       end.

Definition t_add : Tensor2 R → Tensor2 R → result (Tensor2 R) := broadcast2 s_add.
Definition t_sub : Tensor2 R → Tensor2 R → result (Tensor2 R) := broadcast2 s_sub.
Definition t_mul : Tensor2 R → Tensor2 R → result (Tensor2 R) := broadcast2 s_mul.

(** The row lengths of a tensor; two rectangular tensors have the same
    shape exactly when their [dims] agree. *)
Definition dims (x : Tensor2 R) : list nat := map length x.

(** [x.shape == (B, T)] *)
Definition has_shape (B T : nat) (x : Tensor2 R) : Prop :=
  length x = B ∧ Forall (λ row, length row = T) x.

(** [t.stack(xs)]: a new leading axis; every tensor must have the shape
    of the first. *)
Definition stack (xs : list (Tensor2 R)) : result (Tensor3 R) :=
  match xs with
  | [] => Raise RuntimeError
  | x :: _ =>
      if forallb (λ y, bool_decide (dims y = dims x)) xs
      then Ok (mkTensor3 (length xs) (length x) (length (default [] (head x))) xs)
      else Raise RuntimeError
  end.

(** [x.permute(1,0,2)] *)
Definition permute_102 (x : Tensor3 R) : Tensor3 R :=
  mkTensor3 (size1 x) (size0 x) (size2 x)
    (map (λ b, map (λ m, default [] (m !! b)) (data3 x)) (seq 0 (size1 x))).

End Tensors.

(** ** _NHITS.forecast and _NHITS.forecast_decomposition *)

(** A block's forward call: (insample_y, insample_x_t, outsample_x_t, x_s)
    to (backcast, forecast).  A block stands for its forward call with
    its weights and its random draws fixed (the offsets of the
    stochastic pooling, the dropout masks of training mode): the same
    block on the same input returns the same value.  A statement that
    compares two passes is about passes that see the same draws. *)
Abbreviation Block R :=
  (Tensor2 R → Tensor3 R → Tensor3 R → Tensor2 R → result (Tensor2 R * Tensor2 R)).

Section Forecast.
Context {R : Type} `{Scalar R}.

(** One iteration of the loop of [forecast]. *)
Definition forecast_body (insample_x_t outsample_x_t : Tensor3 R)
    (x_s insample_mask : Tensor2 R)
    (st : Tensor2 R * Tensor2 R) (block : Block R) : result (Tensor2 R * Tensor2 R) :=
  let '(residuals, forecast) := st in
  '(backcast, block_forecast) ← block residuals insample_x_t outsample_x_t x_s;
  d ← t_sub residuals backcast;
  residuals ← t_mul d insample_mask;
  forecast ← t_add forecast block_forecast;
  Ok (residuals, forecast).

Definition forecast (blocks : list (Block R))
    (insample_y : Tensor2 R) (insample_x_t : Tensor3 R) (insample_mask : Tensor2 R)
    (outsample_x_t : Tensor3 R) (x_s : Tensor2 R) : result (Tensor2 R) :=
  let residuals := flip2 insample_y in
  let insample_x_t := flip3 insample_x_t in
  let insample_mask := flip2 insample_mask in
  let forecast := last_column insample_y in (* Level with Naive1 *)
  '(residuals, forecast) ←
    foldM (forecast_body insample_x_t outsample_x_t x_s insample_mask)
          blocks (residuals, forecast);
  Ok forecast.

(** One iteration of the loop of [forecast_decomposition]. *)
Definition decomposition_body (insample_x_t outsample_x_t : Tensor3 R)
    (x_s insample_mask : Tensor2 R)
    (st : Tensor2 R * Tensor2 R * list (Tensor2 R)) (block : Block R)
    : result (Tensor2 R * Tensor2 R * list (Tensor2 R)) :=
  let '(residuals, forecast, block_forecasts) := st in
  '(backcast, block_forecast) ← block residuals insample_x_t outsample_x_t x_s;
  d ← t_sub residuals backcast;
  residuals ← t_mul d insample_mask;
  forecast ← t_add forecast block_forecast;
  Ok (residuals, forecast, block_forecasts ++ [block_forecast]).

Definition forecast_decomposition (blocks : list (Block R))
    (insample_y : Tensor2 R) (insample_x_t : Tensor3 R) (insample_mask : Tensor2 R)
    (outsample_x_t : Tensor3 R) (x_s : Tensor2 R) : result (Tensor2 R * Tensor3 R) :=
  let residuals := flip2 insample_y in
  let insample_x_t := flip3 insample_x_t in
  let insample_mask := flip2 insample_mask in
  let n_t := size2 outsample_x_t in
  let level := last_column insample_y in (* Level with Naive1 *)
  let block_forecasts := [repeat_columns level n_t] in
  let forecast := level in
  '(residuals, forecast, block_forecasts) ←
    foldM (decomposition_body insample_x_t outsample_x_t x_s insample_mask)
          blocks (residuals, forecast, block_forecasts);
  (* (n_batch, n_blocks, n_t) *)
  block_forecasts ← stack block_forecasts;
  let block_forecasts := permute_102 block_forecasts in
  Ok (forecast, block_forecasts).
End Forecast.

(** ** The forecast pass as the specification words it

    Entry by entry, with no operation of the tensor library: what the
    forecast pass is compared with. *)

Section ForecastSpecification.
Context {R : Type} `{Scalar R}.

(** The entry of a tensor for series [b] at position [t]. *)
Definition entry (x : Tensor2 R) (b t : nat) : R :=
  default s_zero (x !! b ≫= (.!! t)).

(** The tensor of shape (B, W) with the given entries. *)
Definition tabulate (B W : nat) (f : nat → nat → R) : Tensor2 R :=
  map (λ b, map (f b) (seq 0 W)) (seq 0 B).

(** A line read from its last value to its first. *)
Definition most_recent_first (line : list R) : list R :=
  map (λ t, default s_zero (line !! (length line - 1 - t)%nat))
      (seq 0 (length line)).

Definition most_recent_first3 (x : Tensor3 R) : Tensor3 R :=
  mkTensor3 (size0 x) (size1 x) (size2 x)
            (map (map most_recent_first) (data3 x)).

(** The blocks run in order, each on the current residual; after a
    block the residual is (residual - backcast) times the mask, the
    mask read most recent value first.  The forecasts of the blocks, in
    order. *)
Fixpoint block_contributions (B T : nat) (insample_mask : Tensor2 R)
    (insample_x_t outsample_x_t : Tensor3 R) (x_s : Tensor2 R)
    (blocks : list (Block R)) (residual : Tensor2 R) : result (list (Tensor2 R)) :=
  match blocks with
  | [] => Ok []
  | block :: blocks =>
      '(backcast, contribution) ← block residual insample_x_t outsample_x_t x_s;
      let residual :=
        tabulate B T (λ b t, s_mul (s_sub (entry residual b t) (entry backcast b t))
                                   (entry insample_mask b (T - 1 - t))) in
      rest ← block_contributions B T insample_mask insample_x_t outsample_x_t x_s
                                 blocks residual;
      Ok (contribution :: rest)
  end.

(** The running forecast: the level of a series plus the forecasts of
    the blocks for that series and step, added in the order of the
    blocks.  Before the first block it is the column of the levels. *)
Definition accumulated (B horizon : nat) (level : nat → R)
    (contributions : list (Tensor2 R)) : Tensor2 R :=
  tabulate B (if contributions is [] then 1 else horizon)%nat
    (λ b h, fold_left s_add (map (λ c, entry c b h) contributions) (level b)).

(** The forecast of B series of T values over a horizon: the residual
    starts as the series read most recent value first, the level of a
    series is its last observed value. *)
Definition doubly_residual_forecast (B T horizon : nat) (blocks : list (Block R))
    (insample_y : Tensor2 R) (insample_x_t : Tensor3 R) (insample_mask : Tensor2 R)
    (outsample_x_t : Tensor3 R) (x_s : Tensor2 R) : result (Tensor2 R) :=
  contributions ←
    block_contributions B T insample_mask (most_recent_first3 insample_x_t)
      outsample_x_t x_s blocks
      (tabulate B T (λ b t, entry insample_y b (T - 1 - t)));
  Ok (accumulated B horizon (λ b, entry insample_y b (T - 1)) contributions).

(** A block that, on the exogenous and static inputs at hand, when it
    returns, returns a backcast of the shape of the residual and a
    forecast over the horizon. *)
Definition shape_keeping (B T horizon : nat) (insample_x_t outsample_x_t : Tensor3 R)
    (x_s : Tensor2 R) (block : Block R) : Prop :=
  ∀ residual backcast contribution,
    has_shape B T residual →
    block residual insample_x_t outsample_x_t x_s = Ok (backcast, contribution) →
    has_shape B T backcast ∧ has_shape B horizon contribution.
End ForecastSpecification.

(** ** Python helpers: slicing, integer division, strings *)

(** The position a slice bound denotes in a sequence of length [len]. *)
Definition slice_index (len : nat) (i : Z) : nat :=
  if i <? 0 then Z.to_nat (Z.max 0 (Z.of_nat len + i))
  else Nat.min (Z.to_nat i) len.

(** [l[lo:hi]], [l[:hi]] and [l[lo:]] *)
Definition py_slice {A : Type} (lo hi : Z) (l : list A) : list A :=
  let a := slice_index (length l) lo in
  let b := slice_index (length l) hi in
  take (b - a)%nat (drop a l).
Definition slice_to {A : Type} (hi : Z) (l : list A) : list A :=
  take (slice_index (length l) hi) l.
Definition slice_from {A : Type} (lo : Z) (l : list A) : list A :=
  drop (slice_index (length l) lo) l.

(** [math.floor(a / b)] and [a // b] (the float quotient is exact for the
    magnitudes of window lengths and layer widths). *)
Definition floor_div (a b : Z) : result Z :=
  if b =? 0 then Raise ZeroDivisionError else Ok (a / b).

(** [int(np.ceil(a / b))] *)
Definition ceil_div (a b : Z) : result Z :=
  if b =? 0 then Raise ZeroDivisionError else Ok (- ((- a) / b)).

(** [sub in s] *)
Fixpoint contains (sub s : string) : bool :=
  String.prefix sub s ||
  match s with
  | EmptyString => false
  | String _ s' => contains sub s'
  end.

(** [s.split(sep)[-1]]: the text after the last separator. *)
Fixpoint last_field (sep : ascii) (s : string) : string :=
  match s with
  | EmptyString => EmptyString
  | String c s' =>
      if contains (String sep EmptyString) s' then last_field sep s'
      else if Ascii.eqb c sep then s' else s
  end.

Definition digit_of (c : ascii) : option Z :=
  let n := Z.of_nat (nat_of_ascii c) in
  if (48 <=? n) && (n <=? 57) then Some (n - 48) else None.

(** The blanks [int] strips from both ends of its argument: the ASCII
    white space and, of the other characters below 256, NEL and the
    no-break space.  A string is read as the sequence of its code
    points, each below 256. *)
Definition is_space (c : ascii) : bool :=
  let n := Z.of_nat (nat_of_ascii c) in
  ((9 <=? n) && (n <=? 13)) || (n =? 32) || (n =? 133) || (n =? 160).

Fixpoint lstrip (s : string) : string :=
  match s with
  | EmptyString => EmptyString
  | String c s' => if is_space c then lstrip s' else s
  end.

Fixpoint rstrip (s : string) : string :=
  match s with
  | EmptyString => EmptyString
  | String c s' =>
      match rstrip s' with
      | EmptyString => if is_space c then EmptyString else String c EmptyString
      | t => String c t
      end
  end.

(** Decimal digits with single underscores between them: the value and
    the number of digits.  [after_digit] tells whether the previous
    character was a digit. *)
Fixpoint digits_value (acc count : Z) (after_digit : bool) (s : string)
    : option (Z * Z) :=
  match s with
  | EmptyString => if after_digit then Some (acc, count) else None
  | String c s' =>
      match digit_of c with
      | Some d => digits_value (10 * acc + d) (count + 1) true s'
      | None =>
          if Ascii.eqb c "_" && after_digit then digits_value acc count false s'
          else None
      end
  end.

(** [int(s)]: blanks at both ends, an optional sign, decimal digits with
    single underscores between them.  A string is the sequence of its
    code points, each below 256; among these the decimal digits are the
    ASCII digits.  Python 3.11 and later refuse a
    literal of more than 4300 digits and earlier versions do not: such a
    literal is a [ValueError] here, so that where this definition
    returns an integer every version does. *)
Definition py_int (s : string) : result Z :=
  let s := rstrip (lstrip s) in
  let '(negative, digits) :=
    match s with
    | String "+" t => (false, t)
    | String "-" t => (true, t)
    | _ => (false, s)
    end in
  match digits_value 0 0 false digits with
  | Some (n, count) =>
      if 4300 <? count then Raise ValueError
      else Ok (if negative : bool then - n else n)
  | None => Raise ValueError
  end.

(** ** IdentityBasis *)

(** [torch.nn.functional.interpolate] on the line of one batch element and
    channel: [F_interpolate mode size line] is the resampled line.  In the
    4-D bicubic call of the cubic branch the height axis has size one and
    the line is row 0 of the resampled image.  The numerical kernels are
    torch's; the development only relies on what a theorem states. *)
Class Interpolation (R : Type) : Type :=
  F_interpolate : string → Z → list R → list R.

Record IdentityBasis : Type := mkIdentityBasis {
  forecast_size : Z;
  backcast_size : Z;
  interpolation_mode : string;
}.

Definition IdentityBasis_init (backcast_size forecast_size : Z)
    (interpolation_mode : string) : result IdentityBasis :=
  if String.eqb interpolation_mode "linear"
     || String.eqb interpolation_mode "nearest"
     || contains "cubic" interpolation_mode
  then Ok (mkIdentityBasis forecast_size backcast_size interpolation_mode)
  else Raise (AssertionError InterpolationModeAssert).

Section IdentityBasisForward.
Context {R : Type} `{Scalar R} `{Interpolation R}.

(** [t.zeros((n, size))] *)
Definition zeros (n : nat) (size : Z) : result (Tensor2 R) :=
  if size <? 0 then Raise RuntimeError
  else Ok (replicate n (replicate (Z.to_nat size) s_zero)).

(** [buffer[lo:hi] += rows]: the sum keeps the shape of the slice. *)
Definition iadd_slice (buffer : Tensor2 R) (lo hi : Z) (rows : Tensor2 R)
    : result (Tensor2 R) :=
  let a := slice_index (length buffer) lo in
  let b := slice_index (length buffer) hi in
  let target := take (b - a)%nat (drop a buffer) in
  updated ← t_add target rows;
  if bool_decide (dims updated = dims target)
  then Ok (take a buffer ++ updated ++ drop (a + (b - a))%nat buffer)
  else Raise RuntimeError.

(** The cubic branch for a given sub-batch size. *)
Definition cubic_forecast (size batch_size : Z) (knots : Tensor2 R)
    : result (Tensor2 R) :=
  forecast ← zeros (length knots) size;
  n_batches ← ceil_div (Z.of_nat (length knots)) batch_size;
  foldM (λ forecast i,
           let lo := Z.of_nat i * batch_size in
           let hi := (Z.of_nat i + 1) * batch_size in
           let forecast_i := map (F_interpolate "bicubic" size) (py_slice lo hi knots) in
           iadd_slice forecast lo hi forecast_i)
        (seq 0 (Z.to_nat n_batches)) forecast.

Definition IdentityBasis_forward (self : IdentityBasis) (theta : Tensor2 R)
    : result (Tensor2 R * Tensor2 R) :=
  let backcast := map (slice_to (backcast_size self)) theta in
  let knots := map (slice_from (backcast_size self)) theta in
  if String.eqb (interpolation_mode self) "nearest" then
    let forecast :=
      map (F_interpolate (interpolation_mode self) (forecast_size self)) knots in
    Ok (backcast, forecast)
  else if String.eqb (interpolation_mode self) "linear" then
    let forecast :=
      map (F_interpolate (interpolation_mode self) (forecast_size self)) knots in
    Ok (backcast, forecast)
  else if contains "cubic" (interpolation_mode self) then
    batch_size ← py_int (last_field "-" (interpolation_mode self));
    forecast ← cubic_forecast (forecast_size self) batch_size knots;
    Ok (backcast, forecast)
  else Raise UnboundLocalError.

(** What the cubic branch stores for one line of knots: zero plus its
    interpolation; and one interpolation of the whole batch added to the
    zero buffer. *)
Definition stored (size : Z) (line : list R) : list R :=
  zip_with s_add (replicate (Z.to_nat size) s_zero)
           (F_interpolate "bicubic" size line).
Definition cubic_full_batch (size : Z) (knots : Tensor2 R) : Tensor2 R :=
  map (stored size) knots.
End IdentityBasisForward.

(** ** Pooling: nn.MaxPool1d and StochasticPool1D *)

Section Pooling.
Context {R : Type} `{Scalar R}.

(** [row.unfold(0, size, step)]: the windows of a line. *)
Definition unfold_windows (size step : Z) (row : list R) : result (list (list R)) :=
  if (size <? 0) || (step <=? 0) then Raise RuntimeError
  else if Z.of_nat (length row) <? size then Raise RuntimeError
  else
    let n := Z.to_nat ((Z.of_nat (length row) - size) / step + 1) in
    Ok (map (λ j, take (Z.to_nat size) (drop (j * Z.to_nat step) row)) (seq 0 n)).

(** [nn.MaxPool1d(kernel_size, stride)] on one line (no padding, no
    dilation, [ceil_mode] left at its default [False]). *)
Definition MaxPool1d_line (kernel_size stride : Z) (row : list R) : result (list R) :=
  if kernel_size <=? 0 then Raise RuntimeError
  else
    windows ← unfold_windows kernel_size stride row;
    Ok (map (λ w, match w with
                  | [] => s_zero
                  | a :: w' => fold_left s_max w' a
                  end) windows).

Definition MaxPool1d (kernel_size stride : Z) (x : Tensor2 R) : result (Tensor2 R) :=
  mapM_result (MaxPool1d_line kernel_size stride) x.

(** [flat.view(rows, cols)] *)
Definition view (rows cols : nat) (flat : list R) : result (Tensor2 R) :=
  if bool_decide ((rows * cols)%nat = length flat)
  then Ok (map (λ b, take cols (drop (b * cols) flat)) (seq 0 rows))
  else Raise RuntimeError.

(** [t.take(x, idx)]: [x] is read as a flat 1-D tensor. *)
Definition take_flat (x : Tensor2 R) (idx : list nat) : result (list R) :=
  mapM_result (λ i, match concat x !! i with
                    | Some v => Ok v
                    | None => Raise IndexError
                    end) idx.

(** [StochasticPool1D.forward]; [idx] is the tensor drawn by
    [t.randint(0, x.shape[1], size=(x.shape[0],))]. *)
Definition StochasticPool1D_forward (kernel_size stride : Z)
    (x : Tensor2 R) (idx : list nat) : result (Tensor2 R) :=
  let init_size := (length x, length (default [] (head x))) in
  x ← mapM_result (unfold_windows kernel_size stride) x;
  let x := concat x in                         (* view(-1, kernel_size) *)
  x ← take_flat x idx;
  q ← floor_div (Z.of_nat init_size.2) kernel_size;
  view init_size.1 (Z.to_nat q) x.

(** The pooling the specification describes: one element of each
    window, at the offset drawn for that window. *)
Definition stochastic_pool_by_window (kernel_size : nat)
    (x : Tensor2 R) (idx : list nat) : Tensor2 R :=
  let n_windows := (length (default [] (head x)) / kernel_size)%nat in
  imap (λ b row,
          map (λ j, default s_zero
                      (row !! (j * kernel_size
                               + default 0%nat (idx !! (b * n_windows + j)%nat))%nat))
              (seq 0 n_windows)) x.
End Pooling.

(** [n_time_in_pooled = int(np.ceil(n_time_in/n_pool_kernel_size))] *)
Definition n_time_in_pooled (n_time_in n_pool_kernel_size : Z) : result Z :=
  ceil_div n_time_in n_pool_kernel_size.

(** ** Configuration names *)

Definition ACTIVATIONS : list string :=
  ["ReLU"; "Softplus"; "Tanh"; "SELU"; "LeakyReLU"; "PReLU"; "Sigmoid"; "Sin"]%string.

(** The list of the first assertion of [_NHITSBlock.__init__]. *)
Definition POOLING_MODES : list string :=
  ["max"; "conv"; "stochastic"; "none"]%string.

(** The names [init_weights] has a branch for. *)
Definition INITIALIZATIONS : list string :=
  ["orthogonal"; "he_uniform"; "he_normal"; "glorot_uniform"; "glorot_normal";
   "Sin"; "lecun_normal"]%string.

(** The stack types [create_stack] has a branch for. *)
Definition STACK_TYPES : list string := ["identity"]%string.

(** [name in names] *)
Definition name_in (name : string) (names : list string) : bool :=
  existsb (String.eqb name) names.
Arguments name_in : simpl never.

(** ** Layers of the projection network *)

(** The torch modules [init_weights] can meet. *)
Inductive torch_module : Type :=
  | Dropout (p : Q)
  | Linear (in_features out_features : Z)
  | BatchNorm1d (num_features : Z)
  | Activation (name : string)
  | Conv1d (kernel_size stride : Z)
  | ConvTranspose1d (kernel_size stride : Z)
  | MaxPool1dModule (kernel_size stride : Z).

(** The members of [layers]; [activ] is [None] or the activation module. *)
Inductive layer : Type :=
  | HiddenFeaturesLinearEncoder
      (in_features out_features : Z) (activ : option string)
      (batch_normalization : bool) (dropout_prob : Q)
  | HiddenFeaturesDownSampleEncoder
      (kernel_size stride num_features : Z) (activ : option string)
  | HiddenFeaturesUpsampleEncoder
      (kernel_size stride num_features : Z) (activ : option string)
  | MaxPool1dLayer (kernel_size stride : Z).

Definition activ_modules (activ : option string) : list torch_module :=
  match activ with
  | Some name => [Activation name]
  | None => []
  end.

(** The modules a layer registers, in registration order. *)
Definition submodules (l : layer) : list torch_module :=
  match l with
  | HiddenFeaturesLinearEncoder i o activ bn p =>
      (if Qlt_le_dec 0%Q p then [Dropout p] else [])
      ++ [Linear i o]
      ++ (if bn then [BatchNorm1d o] else [])
      ++ activ_modules activ
  | HiddenFeaturesDownSampleEncoder k s nf activ =>
      [Conv1d k s; BatchNorm1d nf] ++ activ_modules activ
  | HiddenFeaturesUpsampleEncoder k s nf activ =>
      [ConvTranspose1d k s; BatchNorm1d nf] ++ activ_modules activ
  | MaxPool1dLayer k s => [MaxPool1dModule k s]
  end.

(** [init_weights(module, initialization)] *)
Definition init_weights (module : torch_module) (initialization : string) : result unit :=
  match module with
  | Linear _ _ =>
      if name_in initialization INITIALIZATIONS then Ok tt
      else Raise (AssertionError InitializationAssert)
  | Conv1d _ _ | ConvTranspose1d _ _ => Ok tt   (* kaiming_uniform_, whatever the name *)
  | _ => Ok tt
  end.

(** The width a layer's forward pass produces from an input of width [w]
    (torch's output-size formulas; a width the layer cannot take is a
    [RuntimeError]).  The encoders apply [BatchNorm1d(num_features)] only
    together with the activation. *)
Definition layer_forward_width (l : layer) (w : Z) : result Z :=
  match l with
  | HiddenFeaturesLinearEncoder i o _ _ _ =>
      if w =? i then Ok o else Raise RuntimeError
  | HiddenFeaturesDownSampleEncoder k s nf activ =>
      if (k <=? 0) || (s <=? 0) || (w <? k) then Raise RuntimeError
      else
        let w' := (w - k) / s + 1 in
        match activ with
        | Some _ => if w' =? nf then Ok w' else Raise RuntimeError  (* BatchNorm1d *)
        | None => Ok w'
        end
  | HiddenFeaturesUpsampleEncoder k s nf activ =>
      if (k <=? 0) || (s <=? 0) || (w <=? 0) then Raise RuntimeError
      else
        let w' := (w - 1) * s + k in
        match activ with
        | Some _ => if w' =? nf then Ok w' else Raise RuntimeError  (* BatchNorm1d *)
        | None => Ok w'
        end
  | MaxPool1dLayer k s =>
      if (k <=? 0) || (s <=? 0) || (w <? k) then Raise RuntimeError
      else Ok ((w - k) / s + 1)
  end.

(** The sequential container [self.layers] on an input of width [w]. *)
Definition layers_forward_width (layers : list layer) (w : Z) : result Z :=
  foldM (λ w l, layer_forward_width l w) layers w.

(** What the constructors of torch's modules refuse when a layer is
    built: [nn.Dropout] a probability above 1 ([ValueError]; the encoder
    builds it only for a positive probability), and [nn.Linear],
    [nn.BatchNorm1d], [nn.Conv1d] and [nn.ConvTranspose1d] a negative
    size, for which no parameter tensor can be created
    ([RuntimeError]).  The checks are in the order the encoder
    constructs its modules; [nn.MaxPool1d] checks nothing. *)
Definition construct (l : layer) : result layer :=
  match l with
  | HiddenFeaturesLinearEncoder i o _ _ p =>
      if Qlt_le_dec 1%Q p then Raise ValueError
      else if (i <? 0) || (o <? 0) then Raise RuntimeError
      else Ok l
  | HiddenFeaturesDownSampleEncoder k _ nf _
  | HiddenFeaturesUpsampleEncoder k _ nf _ =>
      if (k <? 0) || (nf <? 0) then Raise RuntimeError else Ok l
  | MaxPool1dLayer _ _ => Ok l
  end.

(** ** _NHITSBlock.__init__ *)

(** [l[i]] for a non-negative index. *)
Definition index {A : Type} (l : list A) (i : nat) : result A :=
  match l !! i with
  | Some a => Ok a
  | None => Raise IndexError
  end.

(** One iteration of the loop over [range(n_layers)]; the state is the
    list [n_theta_hidden], updated in place, and [hidden_layers]. *)
Definition hidden_layer_step (layer_mode : string) (activ : option string)
    (batch_normalization : bool) (dropout_prob : Q)
    (st : list Z * list layer) (i : nat) : result (list Z * list layer) :=
  let '(n_theta_hidden, hidden_layers) := st in
  if String.eqb layer_mode "conv" then
    w_in ← index n_theta_hidden i;
    w_out ← index n_theta_hidden (S i);
    if w_out <? w_in then
      (* downsample conv *)
      q ← floor_div w_in w_out;
      if 2 <=? q then
        let kernel := q in
        let stride := kernel in
        let adjusted := (w_in - kernel) / stride + 1 in
        let n_theta_hidden := <[S i := adjusted]> n_theta_hidden in
        encoder ← construct (HiddenFeaturesDownSampleEncoder kernel stride adjusted activ);
        Ok (n_theta_hidden, hidden_layers ++ [encoder])
      else
        let stride := 1 in
        let kernel := w_in - w_out + 1 in
        encoder ← construct (HiddenFeaturesDownSampleEncoder kernel stride w_out activ);
        Ok (n_theta_hidden, hidden_layers ++ [encoder])
    else if w_in <? w_out then
      (* upsample conv *)
      q ← floor_div w_out w_in;
      if 2 <=? q then
        let kernel := q in
        let stride := kernel in
        let adjusted := kernel * w_in in
        let n_theta_hidden := <[S i := adjusted]> n_theta_hidden in
        encoder ← construct (HiddenFeaturesUpsampleEncoder kernel stride adjusted activ);
        Ok (n_theta_hidden, hidden_layers ++ [encoder])
      else
        let stride := 1 in
        let kernel := w_out - w_in + 1 in
        encoder ← construct (HiddenFeaturesUpsampleEncoder kernel stride w_out activ);
        Ok (n_theta_hidden, hidden_layers ++ [encoder])
    else Ok (n_theta_hidden, hidden_layers)
  else if String.eqb layer_mode "linear" then
    w_in ← index n_theta_hidden i;
    w_out ← index n_theta_hidden (S i);
    encoder ← construct (HiddenFeaturesLinearEncoder w_in w_out activ
                           batch_normalization dropout_prob);
    Ok (n_theta_hidden, hidden_layers ++ [encoder])
  else Ok (n_theta_hidden, hidden_layers).

Definition bare_linear (in_features out_features : Z) : layer :=
  HiddenFeaturesLinearEncoder in_features out_features None false 0%Q.

(** Construct the members of a list of layers, in order. *)
Definition construct_all (layers : list layer) : result (list layer) :=
  mapM_result construct layers.
Arguments construct_all : simpl never.

(** [self.output_layer], from the last hidden width [h] to [n_theta]. *)
Definition build_output_layer (output_layer : string) (h n_theta : Z)
    (activ : option string) : result (list layer) :=
  if String.eqb output_layer "linear" then construct_all [bare_linear h n_theta]
  else if String.eqb output_layer "conv" then
    if n_theta <? h then
      q ← floor_div h n_theta;
      if 2 <=? q then
        let kernel := q in
        let stride := kernel in
        let n_theta_adjusted := (h - kernel) / stride + 1 in
        if negb (n_theta_adjusted =? n_theta) then
          construct_all
            [HiddenFeaturesDownSampleEncoder kernel stride n_theta_adjusted activ;
             bare_linear n_theta_adjusted n_theta]
        else
          construct_all
            [HiddenFeaturesDownSampleEncoder kernel stride n_theta_adjusted None]
      else
        let stride := 1 in
        let kernel := h - n_theta + 1 in
        construct_all [HiddenFeaturesDownSampleEncoder kernel stride n_theta None]
    else if h <? n_theta then
      q ← floor_div n_theta h;
      if 2 <=? q then
        let kernel := q in
        let stride := kernel in
        let n_theta_adjusted := kernel * h in
        if negb (n_theta_adjusted =? n_theta) then
          construct_all
            [HiddenFeaturesUpsampleEncoder kernel stride n_theta_adjusted activ;
             bare_linear n_theta_adjusted n_theta]
        else
          construct_all
            [HiddenFeaturesUpsampleEncoder kernel stride n_theta_adjusted None]
      else
        let stride := 1 in
        let kernel := n_theta - h + 1 in
        construct_all [HiddenFeaturesUpsampleEncoder kernel stride n_theta None]
    else construct_all [bare_linear h n_theta]
  else if String.eqb output_layer "max" then
    if n_theta <? h then
      q ← floor_div h n_theta;
      if 2 <=? q then
        let kernel := q in
        let stride := kernel in
        let n_theta_adjusted := (h - kernel) / stride + 1 in
        if negb (n_theta_adjusted =? n_theta) then
          construct_all
            [MaxPool1dLayer kernel stride; bare_linear n_theta_adjusted n_theta]
        else construct_all [MaxPool1dLayer kernel stride]
      else
        let stride := 1 in
        let kernel := h - n_theta + 1 in
        construct_all [MaxPool1dLayer kernel stride]
    else construct_all [bare_linear h n_theta]
  else Raise AttributeError.   (* self.output_layer was never assigned *)

(** The attributes of a constructed block.  [b_initialized] counts the
    runs of [layers.apply(init_function)] on the block: the weights
    themselves are random numbers and are not modelled. *)
Record NHITSBlock : Type := mkNHITSBlock {
  b_n_time_in : Z;
  b_n_time_out : Z;
  b_n_s : Z;
  b_n_s_hidden : Z;
  b_n_x : Z;
  b_n_pool_kernel_size : Z;
  b_layer_mode : string;
  b_pooling_mode : string;
  b_batch_normalization : bool;
  b_dropout_prob : Q;
  b_n_theta_hidden : list Z;
  b_n_theta : Z;
  b_layers : list layer;
  b_basis : IdentityBasis;
  b_initialized : nat;
}.

(** The constructor up to [self.layers]; the pooling layer and the static
    encoder it also creates raise nothing (the static encoder is built
    only for positive sizes) and are not among [layers]. *)
Definition NHITSBlock_init (n_time_in n_time_out n_x n_s n_s_hidden n_theta : Z)
    (n_theta_hidden : list Z) (n_pool_kernel_size n_freq_downsample : Z)
    (pooling_mode layer_mode output_layer : string) (basis : IdentityBasis)
    (n_layers : Z) (batch_normalization : bool) (dropout_prob : Q)
    (activation : string) : result NHITSBlock :=
  if negb (name_in pooling_mode POOLING_MODES)
  then Raise (AssertionError PoolingModeAssert)
  else
    n_time_in_pooled ← n_time_in_pooled n_time_in n_pool_kernel_size;
    let n_s_hidden := if n_s =? 0 then 0 else n_s_hidden in
    let n_theta_hidden :=
      [n_time_in_pooled + (n_time_in + n_time_out) * n_x + n_s_hidden]
      ++ n_theta_hidden in
    if negb (name_in activation ACTIVATIONS)
    then Raise (AssertionError ActivationAssert)
    else
      let activ := Some activation in
      (* the down-sample encoder is called without num_features and activ *)
      if String.eqb pooling_mode "conv" then Raise TypeError
      else
        '(n_theta_hidden, hidden_layers) ←
          foldM (hidden_layer_step layer_mode activ batch_normalization dropout_prob)
                (seq 0 (Z.to_nat n_layers)) (n_theta_hidden, []);
        h ← match last n_theta_hidden with
            | Some h => Ok h
            | None => Raise IndexError
            end;
        output ← build_output_layer output_layer h n_theta activ;
        let layers := hidden_layers ++ output in
        Ok (mkNHITSBlock n_time_in n_time_out n_s n_s_hidden n_x n_pool_kernel_size
              layer_mode pooling_mode batch_normalization dropout_prob
              n_theta_hidden n_theta layers basis 0).

(** The kernel, the stride and the produced width the specification gives
    for a pair of different consecutive widths in convolutional mode
    (section 4.3), and the encoder they describe. *)
Definition conv_pair_geometry (w_in w_out : Z) : Z * Z * Z :=
  if w_out <? w_in then
    let ratio := w_in / w_out in
    if 2 <=? ratio then (ratio, ratio, (w_in - ratio) / ratio + 1)
    else (w_in - w_out + 1, 1, w_out)
  else
    let ratio := w_out / w_in in
    if 2 <=? ratio then (ratio, ratio, ratio * w_in)
    else (w_out - w_in + 1, 1, w_out).

Definition conv_pair_layer (w_in w_out : Z) (activ : option string) : layer :=
  let '(kernel, stride, width) := conv_pair_geometry w_in w_out in
  if w_out <? w_in
  then HiddenFeaturesDownSampleEncoder kernel stride width activ
  else HiddenFeaturesUpsampleEncoder kernel stride width activ.

(** ** _NHITS.create_stack *)

Record NHITSConfig : Type := mkNHITSConfig {
  n_time_in : Z;
  n_time_out : Z;
  n_s : Z;
  n_x : Z;
  n_s_hidden : Z;
  n_x_hidden : Z;
  stack_types : list string;
  n_blocks : list Z;
  n_layers : list Z;
  n_theta_hidden : list (list Z);
  n_pool_kernel_size : list Z;
  n_freq_downsample : list Z;
  pooling_mode : string;
  layer_mode : string;
  output_layer : string;
  interpolation_mode_ : string;
  dropout_prob_theta : Q;
  activation : string;
  initialization : string;
  batch_normalization : bool;
  shared_weights : bool;
}.

(** Block objects live in a heap; [block_list] holds references (heap
    positions), so that two entries can be the same object. *)
Abbreviation heap := (list NHITSBlock).

(** The block after one more run of [layers.apply(init_function)]. *)
Definition initialized_again (block : NHITSBlock) : NHITSBlock :=
  mkNHITSBlock
    (b_n_time_in block) (b_n_time_out block) (b_n_s block) (b_n_s_hidden block)
    (b_n_x block) (b_n_pool_kernel_size block) (b_layer_mode block)
    (b_pooling_mode block) (b_batch_normalization block) (b_dropout_prob block)
    (b_n_theta_hidden block) (b_n_theta block) (b_layers block) (b_basis block)
    (S (b_initialized block)).

(** The torch modules below [block.layers]. *)
Definition modules (block : NHITSBlock) : list torch_module :=
  concat (map submodules (b_layers block)).

Definition is_linear (m : torch_module) : bool :=
  match m with
  | Linear _ _ => true
  | _ => false
  end.

Definition is_batch_norm (m : torch_module) : bool :=
  match m with
  | BatchNorm1d _ => true
  | _ => false
  end.

(** Whether the forward pass of a layer runs a [BatchNorm1d]: the linear
    encoder has one in its sequence when it is built with
    [batch_normalization]; the convolutional encoders always hold one
    and run it together with the activation. *)
Definition applies_batch_norm (l : layer) : bool :=
  match l with
  | HiddenFeaturesLinearEncoder _ _ _ batch_normalization _ => batch_normalization
  | HiddenFeaturesDownSampleEncoder _ _ _ activ
  | HiddenFeaturesUpsampleEncoder _ _ _ activ =>
      match activ with
      | Some _ => true
      | None => false
      end
  | MaxPool1dLayer _ _ => false
  end.

(** [block.layers.apply(init_function)] on the object at [ref]. *)
Definition apply_init_weights (h : heap) (ref : nat) (initialization : string)
    : result heap :=
  block ← index h ref;
  _ ← mapM_result (λ m, init_weights m initialization) (modules block);
  Ok (<[ref := initialized_again block]> h).

(** What [layers.apply(init_function)] accepts: a known name, or a block
    without any [nn.Linear] module. *)
Definition init_accepts (initialization : string) (block : NHITSBlock) : Prop :=
  name_in initialization INITIALIZATIONS = true
  ∨ Forall (λ m, is_linear m = false) (modules block).

(** The body of the inner loop, for stack [i] and block [block_id]. *)
Definition create_block (cfg : NHITSConfig) (i : nat)
    (st : heap * list nat) (block_id : nat) : result (heap * list nat) :=
  let '(h, block_list) := st in
  (* Batch norm only on first block *)
  let batch_normalization_block :=
    bool_decide (length block_list = 0%nat) && batch_normalization cfg in
  '(h, nbeats_block) ←
    (* Shared weights *)
    (if shared_weights cfg && bool_decide (0 < block_id)%nat then
       match last block_list with
       | Some ref => Ok (h, ref)
       | None => Raise IndexError
       end
     else
       stack_type ← index (stack_types cfg) i;
       if String.eqb stack_type "identity" then
         freq ← index (n_freq_downsample cfg) i;
         knots ← floor_div (n_time_out cfg) freq;
         let n_theta := n_time_in cfg + Z.max knots 1 in
         basis ← IdentityBasis_init (n_time_in cfg) (n_time_out cfg)
                                    (interpolation_mode_ cfg);
         hidden ← index (n_theta_hidden cfg) i;
         kernel ← index (n_pool_kernel_size cfg) i;
         freq ← index (n_freq_downsample cfg) i;
         depth ← index (n_layers cfg) i;
         block ← NHITSBlock_init (n_time_in cfg) (n_time_out cfg) (n_x cfg) (n_s cfg)
                   (n_s_hidden cfg) n_theta hidden kernel freq
                   (pooling_mode cfg) (layer_mode cfg) (output_layer cfg) basis depth
                   batch_normalization_block (dropout_prob_theta cfg) (activation cfg);
         Ok (h ++ [block], length h)
       else Raise (AssertionError BlockTypeAssert));
  (* Select type of evaluation and apply it to all layers of block *)
  h ← apply_init_weights h nbeats_block (initialization cfg);
  Ok (h, block_list ++ [nbeats_block]).

Definition create_stack (cfg : NHITSConfig) : result (heap * list nat) :=
  foldM (λ st i,
           blocks ← index (n_blocks cfg) i;
           foldM (create_block cfg i) (seq 0 (Z.to_nat blocks)) st)
        (seq 0 (length (stack_types cfg))) ([], []).

(** What holds of the heap and of [block_list] between two iterations of
    [create_stack]. *)
Definition well_formed (cfg : NHITSConfig) (st : heap * list nat) : Prop :=
  (∀ ref block, st.1 !! ref = Some block →
     b_batch_normalization block
     = batch_normalization cfg && bool_decide (ref = 0%nat))
  ∧ Forall (λ ref, (ref < length st.1)%nat) st.2
  ∧ (st.2 = [] → st.1 = [])
  ∧ (∀ ref, head st.2 = Some ref → ref = 0%nat)
  ∧ (shared_weights cfg = false → st.2 = seq 0 (length st.1)).


(** Where stack [i] starts in [block_list]. *)
Definition stack_offset (cfg : NHITSConfig) (i : nat) : nat :=
  sum_list (map Z.to_nat (take i (n_blocks cfg))).

(** ** _NHITS.forward *)

Section Forward.
Context {R : Type} `{Scalar R}.

(** [x[:, :, :hi]] and [x[:, :, lo:]] *)
Definition slice3_to (hi : Z) (x : Tensor3 R) : Tensor3 R :=
  mkTensor3 (size0 x) (size1 x) (slice_index (size2 x) hi)
    (map (map (slice_to hi)) (data3 x)).
Definition slice3_from (lo : Z) (x : Tensor3 R) : Tensor3 R :=
  mkTensor3 (size0 x) (size1 x) (size2 x - slice_index (size2 x) lo)
    (map (map (slice_from lo)) (data3 x)).

(** [Y[:, :-n_time_out]] and [Y[:, -n_time_out:]] *)
Definition insample_window (n_time_out : Z) (y : Tensor2 R) : Tensor2 R :=
  map (slice_to (- n_time_out)) y.
Definition outsample_window (n_time_out : Z) (y : Tensor2 R) : Tensor2 R :=
  map (slice_from (- n_time_out)) y.

(** [_NHITS.forward]; [static] is the argument [S].  Without
    decomposition the tuple has no [block_forecasts] component. *)
Definition NHITS_forward (n_time_out : Z) (blocks : list (Block R))
    (static Y : Tensor2 R) (X : Tensor3 R) (insample_mask outsample_mask : Tensor2 R)
    (return_decomposition : bool)
    : result (Tensor2 R * Tensor2 R * option (Tensor3 R) * Tensor2 R) :=
  (* insample *)
  let insample_y := insample_window n_time_out Y in
  let insample_x_t := slice3_to (- n_time_out) X in
  let insample_mask := insample_window n_time_out insample_mask in
  (* outsample *)
  let outsample_y := outsample_window n_time_out Y in
  let outsample_x_t := slice3_from (- n_time_out) X in
  let outsample_mask := outsample_window n_time_out outsample_mask in
  if return_decomposition then
    '(forecast, block_forecasts) ←
      forecast_decomposition blocks insample_y insample_x_t insample_mask
                             outsample_x_t static;
    Ok (outsample_y, forecast, Some block_forecasts, outsample_mask)
  else
    forecast ← forecast blocks insample_y insample_x_t insample_mask
                        outsample_x_t static;
    Ok (outsample_y, forecast, None, outsample_mask).
End Forward.

(** ** Notions the statements about the model use *)

Section Conforming.
Context {R : Type} `{Scalar R}.

(** A block that keeps the shapes of the residual and of the horizon. *)
Definition conforming (B T horizon : nat) (x' ox : Tensor3 R) (xs : Tensor2 R)
    (block : Block R) : Prop :=
  ∀ residuals, has_shape B T residuals →
    ∃ backcast block_forecast,
      block residuals x' ox xs = Ok (backcast, block_forecast)
      ∧ has_shape B T backcast ∧ has_shape B horizon block_forecast.
End Conforming.

(** The hidden layers of linear mode over the widths [ws]: layer [i]
    maps width [ws[i]] to width [ws[i+1]]. *)
Definition linear_layers (ws : list Z) (activ : option string)
    (batch_normalization : bool) (dropout_prob : Q) (n : nat) : list layer :=
  map (λ i, HiddenFeaturesLinearEncoder (default 0 (ws !! i)) (default 0 (ws !! S i))
              activ batch_normalization dropout_prob)
      (seq 0 n).

(** A block built from the entries for stack [i] of the per-stack lists. *)
Definition built_for_stack (cfg : NHITSConfig) (i : nat) (block : NHITSBlock) : Prop :=
  ∃ freq,
    n_freq_downsample cfg !! i = Some freq ∧ freq ≠ 0
    ∧ b_n_theta block = n_time_in cfg + Z.max (n_time_out cfg / freq) 1
    ∧ n_pool_kernel_size cfg !! i = Some (b_n_pool_kernel_size block)
    ∧ b_n_pool_kernel_size block ≠ 0
    ∧ b_basis block
      = mkIdentityBasis (n_time_out cfg) (n_time_in cfg) (interpolation_mode_ cfg)
    ∧ b_n_time_in block = n_time_in cfg.

(** Position [p] of [block_list] refers to a block built for stack [i]. *)
Definition placed (cfg : NHITSConfig) (st : heap * list nat) (p i : nat) : Prop :=
  ∃ ref block,
    st.2 !! p = Some ref ∧ st.1 !! ref = Some block ∧ built_for_stack cfg i block.

(** How often [ref] occurs in [block_list]. *)
Definition occurrences (ref : nat) (block_list : list nat) : nat :=
  length (filter (λ r, r = ref) block_list).

Section Shapes3.
Context {R : Type}.

(** [x.shape == (B, C, T)] *)
Definition has_shape3 (B C T : nat) (x : Tensor3 R) : Prop :=
  length (data3 x) = B ∧ Forall (has_shape C T) (data3 x).
End Shapes3.

(** ** _NHITSBlock.forward *)

Section BlockForward.
Context {R : Type} `{Scalar R} `{Interpolation R}.

(** [t.cat((a, b), 1)] *)
Definition cat1 (a b : Tensor2 R) : result (Tensor2 R) :=
  if decide (length a = length b) then Ok (zip_with app a b)
  else Raise RuntimeError.

(** [x.reshape(batch_size, -1)] *)
Definition reshape_rows (batch_size : nat) (x : Tensor3 R) : result (Tensor2 R) :=
  let flat := concat (concat (data3 x)) in
  if decide (batch_size = 0%nat) then Raise RuntimeError
  else if decide ((length flat `mod` batch_size)%nat = 0%nat)
       then view batch_size (length flat / batch_size)%nat flat
       else Raise RuntimeError.

(** The forward pass up to the call of [self.layers]: pooling, then the
    exogenous and the encoded static features appended.  The static
    encoder (dropout, linear, ReLU) is a learned map and a parameter
    here; [idx] are the offsets stochastic pooling draws. *)
Definition projection_input (self : NHITSBlock)
    (static_encoder : Tensor2 R → result (Tensor2 R)) (idx : list nat)
    (insample_y : Tensor2 R) (insample_x_t outsample_x_t : Tensor3 R)
    (x_s : Tensor2 R) : result (Tensor2 R) :=
  insample_y ←
    (if String.eqb (b_pooling_mode self) "max" then
       MaxPool1d (b_n_pool_kernel_size self) (b_n_pool_kernel_size self) insample_y
     else if String.eqb (b_pooling_mode self) "stochastic" then
       StochasticPool1D_forward (b_n_pool_kernel_size self) (b_n_pool_kernel_size self)
                                insample_y idx
     else Ok insample_y);
  let batch_size := length insample_y in
  insample_y ←
    (if 0 <? b_n_x self then
       x_in ← reshape_rows batch_size insample_x_t;
       insample_y ← cat1 insample_y x_in;
       x_out ← reshape_rows batch_size outsample_x_t;
       cat1 insample_y x_out
     else Ok insample_y);
  (* Static exogenous *)
  if (0 <? b_n_s self) && (0 <? b_n_s_hidden self) then
    x_s ← static_encoder x_s;
    cat1 insample_y x_s
  else Ok insample_y.

(** [_NHITSBlock.forward]; [layers] is the learned projection network,
    returning theta with the channel axis already squeezed. *)
Definition NHITSBlock_forward (self : NHITSBlock)
    (static_encoder layers : Tensor2 R → result (Tensor2 R)) (idx : list nat)
    (insample_y : Tensor2 R) (insample_x_t outsample_x_t : Tensor3 R)
    (x_s : Tensor2 R) : result (Tensor2 R * Tensor2 R) :=
  x ← projection_input self static_encoder idx insample_y insample_x_t
                       outsample_x_t x_s;
  (* Compute local projection weights and projection *)
  theta ← layers x;
  IdentityBasis_forward (b_basis self) theta.
End BlockForward.

(** ** NHITS.__init__ *)

(** The configuration with another initialization name. *)
Definition with_initialization (cfg : NHITSConfig) (name : string) : NHITSConfig :=
  mkNHITSConfig (n_time_in cfg) (n_time_out cfg) (n_s cfg) (n_x cfg)
    (n_s_hidden cfg) (n_x_hidden cfg) (stack_types cfg) (n_blocks cfg)
    (n_layers cfg) (n_theta_hidden cfg) (n_pool_kernel_size cfg)
    (n_freq_downsample cfg) (pooling_mode cfg) (layer_mode cfg)
    (output_layer cfg) (interpolation_mode_ cfg) (dropout_prob_theta cfg)
    (activation cfg) name (batch_normalization cfg) (shared_weights cfg).

(** The [_NHITS] model the wrapper builds as [self.model] (the loss
    objects it creates before come from another module). *)
Definition NHITS_model (cfg : NHITSConfig) : result (heap * list nat) :=
  let initialization :=
    if String.eqb (activation cfg) "SELU" then "lecun_normal"%string
    else initialization cfg in
  create_stack (with_initialization cfg initialization).

(** ** Example inputs *)

(** A resampler to run the definitions on integers: nearest-neighbour
    selection [out[j] = line[floor(j * len / size)]], whatever the mode. *)
Definition nearest_lines : Interpolation Z := λ mode size line,
  map (λ j, default 0 (line !! (j * length line / Z.to_nat size)%nat))
      (seq 0 (Z.to_nat size)).

(** A block that returns its input as backcast and a fixed forecast. *)
Definition echo_block : Block Z := λ residuals _ _ _, Ok (residuals, [[7; 8]]).

(** An exogenous tensor with no channel: shape (1, 0, 2). *)
Definition no_exogenous : Tensor3 Z := mkTensor3 1 0 2 [[]].


(** Two stacks of three and two blocks, weights shared. *)
Definition shared_config : NHITSConfig :=
  mkNHITSConfig 4 2 0 0 0 0 ["identity"%string; "identity"%string] [3; 2] [2; 2]
    [[10; 4]; [8; 8]] [2; 1] [1; 2]
    "max" "conv" "conv" "linear" 0%Q "ReLU" "orthogonal" true true.

(** The same stacks with linear layers, dropout, and no sharing. *)
Definition plain_config : NHITSConfig :=
  mkNHITSConfig 4 2 0 0 0 0 ["identity"%string; "identity"%string] [3; 2] [2; 2]
    [[10; 4]; [8; 8]] [2; 1] [1; 2]
    "max" "linear" "max" "linear" (1 # 2)%Q "ReLU" "orthogonal" true false.

(** One stack of two blocks without weight sharing, convolutional
    hidden and output layers, batch normalization asked for. *)
Definition conv_pair_config : NHITSConfig :=
  mkNHITSConfig 4 2 0 0 0 0 ["identity"%string] [2] [1] [[8]] [1] [1]
    "max" "conv" "conv" "linear" 0%Q "ReLU" "orthogonal" true false.

(** The stacks of [plain_config], weights shared. *)
Definition shared_linear_config : NHITSConfig :=
  mkNHITSConfig 4 2 0 0 0 0 ["identity"%string; "identity"%string] [3; 2] [2; 2]
    [[10; 4]; [8; 8]] [2; 1] [1; 2]
    "max" "linear" "max" "linear" (1 # 2)%Q "ReLU" "orthogonal" true true.


(** A block that explains nothing of its input and returns a fixed
    forecast. *)
Definition silent_block : Block Z :=
  λ residuals _ _ _, Ok (map (map (λ _, 0)) residuals, [[7; 8]]).

(** A block that explains nothing of its input and forecasts what it is
    given. *)
Definition reading_block : Block Z :=
  λ residuals _ _ _, Ok (map (map (λ _, 0)) residuals, residuals).

(** An exogenous tensor with no channel over four time steps: shape
    (1, 0, 4); and over three time steps. *)
Definition no_exogenous_4 : Tensor3 Z := mkTensor3 1 0 4 [[]].
Definition no_exogenous_3 : Tensor3 Z := mkTensor3 1 0 3 [[]].

(** One exogenous channel over the past four and the next two steps. *)
Definition past_channel : Tensor3 Z := mkTensor3 1 1 4 [[[1; 1; 1; 1]]].
Definition future_channel : Tensor3 Z := mkTensor3 1 1 2 [[[2; 2]]].

(** The configuration of [plain_config] with the activation 'SELU' and
    an unknown initialization name. *)
Definition selu_config : NHITSConfig :=
  mkNHITSConfig 4 2 0 0 0 0 ["identity"%string; "identity"%string] [3; 2] [2; 2]
    [[10; 4]; [8; 8]] [2; 1] [1; 2]
    "max" "linear" "max" "linear" (1 # 2)%Q "SELU" "bogus" true false.

(** A projection network that returns the same five coefficients for
    every series. *)
Definition constant_theta : Tensor2 Z → result (Tensor2 Z) :=
  λ x, Ok (map (λ _, [1; 2; 3; 4; 9]) x).

(** 1.0, 5.0, 0.0 and 2.0 *)
Definition f_one : float32 := S754_finite false 8388608 (-23).
Definition f_five : float32 := S754_finite false 10485760 (-21).
Definition f_zero : float32 := S754_zero false.
Definition f_two : float32 := S754_finite false 8388608 (-22).

(** A block on single-precision tensors that explains nothing of its
    input and returns a fixed forecast. *)
Definition silent_float_block : Block float32 :=
  λ residuals _ _ _, Ok (map (map (λ _, f_zero)) residuals, [[f_one; f_one]]).

(** An exogenous tensor with no channel: shape (1, 0, 2). *)
Definition no_float_exogenous : Tensor3 float32 := mkTensor3 1 0 2 [[]].

(** * Theorems *)

Section ResultFacts.
Context {S A : Type}.

Lemma foldM_app (body : S → A → result S) (l1 l2 : list A) (s : S) :
  foldM body (l1 ++ l2) s = (s' ← foldM body l1 s; foldM body l2 s').
Proof.
  revert s. induction l1 as [|a l1 IH]; intros s; simpl; [done|].
  destruct (body s a) as [s'|e]; simpl; [apply IH | done].
Qed.
End ResultFacts.

Section ForecastRefinement.
Context {R : Type} `{Scalar R}.

Lemma entry_tabulate (B W : nat) (f : nat → nat → R) (b t : nat) :
  (b < B)%nat → (t < W)%nat → entry (tabulate B W f) b t = f b t.
Proof.
  intros Hb Ht. unfold entry, tabulate.
  rewrite list_lookup_fmap, lookup_seq_lt by done. simpl.
  by rewrite list_lookup_fmap, lookup_seq_lt.
Qed.

Lemma tabulate_ext (B W : nat) (f g : nat → nat → R) :
  (∀ b t, (b < B)%nat → (t < W)%nat → f b t = g b t) →
  tabulate B W f = tabulate B W g.
Proof.
  intros E. unfold tabulate. apply map_ext_in. intros b Hb.
  apply in_seq in Hb. apply map_ext_in. intros t Ht. apply in_seq in Ht.
  apply E; lia.
Qed.

Lemma has_shape_tabulate (B W : nat) (f : nat → nat → R) :
  has_shape B W (tabulate B W f).
Proof.
  unfold tabulate. split; [by rewrite length_map, length_seq|].
  apply Forall_forall. intros row Hrow.
  apply list_elem_of_fmap in Hrow as (b & -> & _).
  by rewrite length_map, length_seq.
Qed.

Lemma line_entries (W : nat) (row : list R) :
  length row = W → row = map (λ t, default s_zero (row !! t)) (seq 0 W).
Proof.
  intros <-. apply list_eq. intros t. rewrite list_lookup_fmap.
  destruct (decide (t < length row)%nat) as [Ht|Ht].
  - rewrite lookup_seq_lt by done. simpl.
    by destruct (lookup_lt_is_Some_2 row t Ht) as [v ->].
  - rewrite lookup_seq_ge by lia. simpl. apply lookup_ge_None. lia.
Qed.

(** A tensor is the table of its entries. *)
Lemma tensor_entries (B W : nat) (x : Tensor2 R) :
  has_shape B W x → x = tabulate B W (entry x).
Proof.
  intros [<- Hrows]. unfold tabulate, entry. apply list_eq. intros b.
  rewrite list_lookup_fmap.
  destruct (decide (b < length x)%nat) as [Hb|Hb].
  - rewrite lookup_seq_lt by done. simpl.
    destruct (lookup_lt_is_Some_2 x b Hb) as [row Hrow]. rewrite Hrow. simpl.
    f_equal. apply line_entries.
    rewrite Forall_lookup in Hrows. by eapply Hrows.
  - rewrite lookup_seq_ge by lia. simpl. apply lookup_ge_None. lia.
Qed.

Lemma rev_lookup (row : list R) (t : nat) :
  (t < length row)%nat → rev row !! t = row !! (length row - 1 - t)%nat.
Proof.
  intros Ht. rewrite rev_alt. fold (reverse row). rewrite reverse_lookup by done.
  f_equal. lia.
Qed.

Lemma most_recent_first_rev (row : list R) : rev row = most_recent_first row.
Proof.
  unfold most_recent_first. apply list_eq. intros t. rewrite list_lookup_fmap.
  destruct (decide (t < length row)%nat) as [Ht|Ht].
  - rewrite lookup_seq_lt, rev_lookup by done. simpl.
    by destruct (lookup_lt_is_Some_2 row (length row - 1 - t)) as [v ->]; [lia|].
  - rewrite lookup_seq_ge by lia. simpl. apply lookup_ge_None.
    rewrite length_rev. lia.
Qed.

Lemma flip3_most_recent_first (x : Tensor3 R) : flip3 x = most_recent_first3 x.
Proof.
  unfold flip3, most_recent_first3. f_equal.
  apply map_ext. intros m. apply map_ext. apply most_recent_first_rev.
Qed.

Lemma flip2_entries (B T : nat) (x : Tensor2 R) :
  has_shape B T x → flip2 x = tabulate B T (λ b t, entry x b (T - 1 - t)).
Proof.
  intros [<- Hrows]. unfold flip2, tabulate, entry. apply list_eq. intros b.
  rewrite !list_lookup_fmap.
  destruct (decide (b < length x)%nat) as [Hb|Hb].
  - rewrite lookup_seq_lt by done. simpl.
    destruct (lookup_lt_is_Some_2 x b Hb) as [row Hrow]. rewrite Hrow. simpl.
    f_equal. rewrite most_recent_first_rev. unfold most_recent_first.
    rewrite Forall_lookup in Hrows. by rewrite (Hrows _ _ Hrow).
  - rewrite lookup_seq_ge by lia. simpl.
    by rewrite (proj2 (lookup_ge_None x b)) by lia.
Qed.

Lemma last_column_entries (B T : nat) (x : Tensor2 R) :
  (0 < T)%nat → has_shape B T x →
  last_column x = tabulate B 1 (λ b _, entry x b (T - 1)).
Proof.
  intros HT [<- Hrows]. unfold last_column, tabulate, entry. apply list_eq.
  intros b. rewrite !list_lookup_fmap.
  destruct (decide (b < length x)%nat) as [Hb|Hb].
  - rewrite lookup_seq_lt by done. simpl.
    destruct (lookup_lt_is_Some_2 x b Hb) as [row Hrow]. rewrite Hrow. simpl.
    f_equal. rewrite Forall_lookup in Hrows. pose proof (Hrows _ _ Hrow) as Hlen.
    rewrite Hlen.
    destruct (lookup_lt_is_Some_2 row (T - 1)) as [v Hv]; [lia|].
    rewrite Hv. simpl. rewrite (drop_S _ _ _ Hv).
    by rewrite drop_ge by lia.
  - rewrite lookup_seq_ge by lia. simpl.
    by rewrite (proj2 (lookup_ge_None x b)) by lia.
Qed.

Lemma zip_with_fmap_same {A : Type} (f : R → R → R) (g h : A → R) (l : list A) :
  zip_with f (map g l) (map h l) = map (λ a, f (g a) (h a)) l.
Proof. induction l as [|a l IH]; simpl; [done|]. by rewrite IH. Qed.

Lemma mapM_result_zip_fmap {A : Type} (k : list R → list R → result (list R))
    (F G K : A → list R) (l : list A) :
  (∀ a, k (F a) (G a) = Ok (K a)) →
  mapM_result (λ ab, k ab.1 ab.2) (zip (map F l) (map G l)) = Ok (map K l).
Proof.
  intros E. induction l as [|a l IH]; simpl; [done|]. by rewrite E, IH.
Qed.

(** Torch's broadcasting on two tensors of one shape, entry by entry. *)
Lemma broadcast2_tabulate (f : R → R → R) (B W : nat) (g h : nat → nat → R) :
  broadcast2 f (tabulate B W g) (tabulate B W h)
  = Ok (tabulate B W (λ b t, f (g b t) (h b t))).
Proof.
  unfold broadcast2, tabulate.
  rewrite decide_True by by rewrite !length_map.
  apply (mapM_result_zip_fmap (broadcast_row f)). intros b.
  unfold broadcast_row. rewrite decide_True by by rewrite !length_map.
  by rewrite zip_with_fmap_same.
Qed.

(** ... and on a column against a tensor with as many rows. *)
Lemma broadcast2_column (f : R → R → R) (B W : nat) (g h : nat → nat → R) :
  broadcast2 f (tabulate B 1 g) (tabulate B W h)
  = Ok (tabulate B W (λ b t, f (g b 0%nat) (h b t))).
Proof.
  unfold broadcast2, tabulate.
  rewrite decide_True by by rewrite !length_map.
  apply (mapM_result_zip_fmap (broadcast_row f)). intros b.
  unfold broadcast_row. simpl. case_decide as Hlen.
  - rewrite length_map, length_seq in Hlen. subst W. done.
  - by rewrite map_map.
Qed.

Lemma broadcast2_entries (f : R → R → R) (B W : nat) (x y : Tensor2 R) :
  has_shape B W x → has_shape B W y →
  broadcast2 f x y = Ok (tabulate B W (λ b t, f (entry x b t) (entry y b t))).
Proof.
  intros Hx Hy.
  transitivity (broadcast2 f (tabulate B W (entry x)) (tabulate B W (entry y)));
    [|apply broadcast2_tabulate].
  by rewrite <-(tensor_entries _ _ _ Hx), <-(tensor_entries _ _ _ Hy).
Qed.

Section Loop.
Variables (B T horizon : nat) (insample_mask : Tensor2 R).
Variables (insample_x_t outsample_x_t : Tensor3 R) (x_s : Tensor2 R).
Variable level : nat → R.
Hypothesis mask_shape : has_shape B T insample_mask.

Lemma accumulated_step (prefix : list (Tensor2 R)) (c : Tensor2 R) :
  has_shape B horizon c →
  t_add (accumulated B horizon level prefix) c
  = Ok (accumulated B horizon level (prefix ++ [c])).
Proof.
  intros Hc. unfold t_add, accumulated.
  rewrite (tensor_entries _ _ _ Hc) at 1.
  replace (if prefix ++ [c] is [] then 1%nat else horizon) with horizon
    by by destruct prefix.
  destruct prefix as [|c0 prefix].
  - rewrite broadcast2_column. reflexivity.
  - rewrite broadcast2_tabulate. f_equal. apply tabulate_ext. intros b h _ _.
    by rewrite map_app, fold_left_app.
Qed.

Lemma forecast_body_eq (mask residuals forecast : Tensor2 R) (block : Block R) :
  forecast_body insample_x_t outsample_x_t x_s mask (residuals, forecast) block
  = ('(backcast, block_forecast) ← block residuals insample_x_t outsample_x_t x_s;
     d ← t_sub residuals backcast;
     residuals ← t_mul d mask;
     forecast ← t_add forecast block_forecast;
     Ok (residuals, forecast)).
Proof. done. Qed.

Lemma forecast_loop_refines (blocks : list (Block R)) :
  Forall (shape_keeping B T horizon insample_x_t outsample_x_t x_s) blocks →
  ∀ residual prefix, has_shape B T residual →
    (st ← foldM (forecast_body insample_x_t outsample_x_t x_s (flip2 insample_mask))
                blocks (residual, accumulated B horizon level prefix);
     Ok st.2)
    = (cs ← block_contributions B T insample_mask insample_x_t outsample_x_t x_s
                                blocks residual;
       Ok (accumulated B horizon level (prefix ++ cs))).
Proof.
  induction 1 as [|block blocks Hblock _ IH]; intros residual prefix Hr.
  - simpl. by rewrite app_nil_r.
  - cbn [foldM block_contributions]. rewrite forecast_body_eq.
    destruct (block residual insample_x_t outsample_x_t x_s)
      as [[backcast c]|e] eqn:Hrun; cbn [mbind result_bind]; [|done].
    destruct (Hblock _ _ _ Hr Hrun) as [Hbc Hc].
    unfold t_sub. rewrite (broadcast2_entries s_sub B T) by done.
    cbn [mbind result_bind].
    assert (t_mul (tabulate B T (λ b t, s_sub (entry residual b t) (entry backcast b t)))
                  (flip2 insample_mask)
            = Ok (tabulate B T
                    (λ b t, s_mul (s_sub (entry residual b t) (entry backcast b t))
                                  (entry insample_mask b (T - 1 - t))))) as ->.
    { rewrite (flip2_entries B T insample_mask) by done. apply broadcast2_tabulate. }
    cbn [mbind result_bind].
    rewrite accumulated_step by done. cbn [mbind result_bind].
    rewrite IH by apply has_shape_tabulate.
    destruct (block_contributions _ _ _ _ _ _ _ _) as [cs|e];
      cbn [mbind result_bind]; [|done].
    by rewrite <-app_assoc.
Qed.
End Loop.

(** The blocks that always return, with the shapes of the loop, are
    among the blocks the statement below is about. *)
Lemma conforming_shape_keeping (B T horizon : nat)
    (insample_x_t outsample_x_t : Tensor3 R) (x_s : Tensor2 R) (block : Block R) :
  conforming B T horizon insample_x_t outsample_x_t x_s block →
  shape_keeping B T horizon insample_x_t outsample_x_t x_s block.
Proof.
  intros Hblock residual backcast contribution Hr Hrun.
  destruct (Hblock residual Hr) as (bc & c & Hrun' & Hbc & Hc).
  rewrite Hrun in Hrun'. by injection Hrun' as -> ->.
Qed.

(** C1: on B series of T > 0 values with a mask of the same shape, and
    blocks that (on the inputs of the pass, when they return) return a
    backcast of the shape of the residual and a forecast over the
    horizon, the forecast pass runs the blocks in
    order, the first on the series read most recent value first (with
    the exogenous tensor read the same way), each next one on
    (residual - backcast) times the mask read most recent value first,
    entry by entry; it returns, for every series and step, the last
    observed value of the series plus the forecasts of the blocks added
    in order, and raises what the first failing block raises. *)
Theorem forecast_is_doubly_residual_recurrence
    (B T horizon : nat) (blocks : list (Block R))
    (insample_y : Tensor2 R) (insample_x_t : Tensor3 R) (insample_mask : Tensor2 R)
    (outsample_x_t : Tensor3 R) (x_s : Tensor2 R) :
  (0 < T)%nat →
  has_shape B T insample_y → has_shape B T insample_mask →
  Forall (shape_keeping B T horizon (most_recent_first3 insample_x_t)
                        outsample_x_t x_s) blocks →
  forecast blocks insample_y insample_x_t insample_mask outsample_x_t x_s
  = doubly_residual_forecast B T horizon blocks insample_y insample_x_t
                             insample_mask outsample_x_t x_s.
Proof.
  intros HT Hy Hm Hblocks. unfold forecast, doubly_residual_forecast.
  rewrite flip3_most_recent_first, (flip2_entries B T insample_y) by done.
  rewrite (last_column_entries B T) by done.
  pose proof (forecast_loop_refines B T horizon insample_mask
                (most_recent_first3 insample_x_t) outsample_x_t x_s
                (λ b, entry insample_y b (T - 1)) Hm blocks Hblocks
                (tabulate B T (λ b t, entry insample_y b (T - 1 - t))) []
                (has_shape_tabulate _ _ _)) as Hloop.
  cbn [app] in Hloop. rewrite <-Hloop. unfold accumulated at 1.
  by destruct (foldM _ _ _) as [[r f]|e].
Qed.
End ForecastRefinement.

Section BroadcastFacts.
Context {R : Type} `{Scalar R}.

Lemma mapM_result_ok {A B : Type} (f : A → result B) (g : A → B) (l : list A) :
  Forall (λ a, f a = Ok (g a)) l → mapM_result f l = Ok (map g l).
Proof.
  induction 1 as [|a l Ha _ IH]; simpl; [done|].
  by rewrite Ha; simpl; rewrite IH.
Qed.

Lemma dims_length (x y : Tensor2 R) : dims x = dims y → length x = length y.
Proof. unfold dims. intros E. by rewrite <-(length_map length x), E, length_map. Qed.

Lemma broadcast_row_same (f : R → R → R) (a b : list R) :
  length a = length b → broadcast_row f a b = Ok (zip_with f a b).
Proof. intros E. unfold broadcast_row. by rewrite decide_True. Qed.

Lemma broadcast2_same_dims (f : R → R → R) (x y : Tensor2 R) :
  dims x = dims y → broadcast2 f x y = Ok (zip_with (zip_with f) x y).
Proof.
  intros E. unfold broadcast2. rewrite decide_True by by apply dims_length.
  revert y E. induction x as [|a x IH]; intros [|b y] E; try done.
  injection E as Eab E. cbn [zip zip_with mapM_result fst snd].
  rewrite broadcast_row_same by done. simpl. by rewrite (IH y E).
Qed.

Lemma dims_zip_with (f : R → R → R) (x y : Tensor2 R) :
  dims x = dims y → dims (zip_with (zip_with f) x y) = dims x.
Proof.
  revert y. induction x as [|a x IH]; intros [|b y] E; try done.
  injection E as Eab E. simpl. rewrite length_zip_with, (IH y E). f_equal. lia.
Qed.

Lemma zip_with_replicate_singleton (f : R → R → R) (v : R) (b : list R) :
  zip_with f (concat (replicate (length b) [v])) b = map (f v) b.
Proof. induction b as [|u b IH]; simpl; [done|]. by rewrite IH. Qed.

(** The first addition of the loop: a column of width at most one against
    a tensor that has the shape of the repeated column. *)
Lemma broadcast2_level (f : R → R → R) (level c : Tensor2 R) (n : nat) :
  Forall (λ row, (length row ≤ 1)%nat) level →
  dims c = dims (repeat_columns level n) →
  broadcast2 f level c = Ok (zip_with (zip_with f) (repeat_columns level n) c).
Proof.
  intros Hlevel E. unfold broadcast2.
  rewrite decide_True
    by (apply dims_length in E; unfold repeat_columns in E;
        rewrite length_map in E; done).
  revert c E. induction Hlevel as [|a level Ha _ IH]; intros [|b c] E; try done.
  injection E as Eab E. simpl. rewrite (IH c E). clear IH E.
  assert (broadcast_row f a b = Ok (zip_with f (concat (replicate n a)) b)) as ->;
    [|done].
  unfold broadcast_row. destruct a as [|v [|? ?]]; simpl in *; [| |lia].
  - assert (concat (replicate n (@nil R)) = []) as E0
      by (clear; induction n; simpl; auto).
    rewrite E0 in *. destruct b; [|done]. by rewrite decide_True.
  - assert (length (concat (replicate n [v])) = n) as E1
      by (clear; induction n; simpl; auto).
    rewrite E1 in Eab. subst n. rewrite zip_with_replicate_singleton.
    case_decide as Hl; [|done].
    destruct b as [|u [|? ?]]; simpl in *; done || lia.
Qed.
End BroadcastFacts.

Section DecompositionFacts.
Context {R : Type} `{Scalar R}.

(** Element-wise addition of two tensors of one shape. *)
Local Abbreviation tz := (zip_with (zip_with s_add)).

Lemma decomposition_fold (x' ox : Tensor3 R) (xs m' : Tensor2 R)
    (l : list (Block R)) r f acc r' f' acc' :
  foldM (decomposition_body x' ox xs m') l (r, f, acc) = Ok (r', f', acc') →
  foldM (forecast_body x' ox xs m') l (r, f) = Ok (r', f') ∧
  ∃ cs, acc' = acc ++ cs ∧ length cs = length l ∧ foldM t_add cs f = Ok f'.
Proof.
  revert r f acc. induction l as [|b l IH]; intros r f acc; simpl.
  - intros [= -> -> ->]. split; [done|]. exists []. by rewrite app_nil_r.
  - destruct (b r x' ox xs) as [[bc bf]|e]; simpl; [|done].
    destruct (t_sub r bc) as [d|e]; simpl; [|done].
    destruct (t_mul d m') as [r1|e]; simpl; [|done].
    destruct (t_add f bf) as [f1|e] eqn:Hadd; simpl; [|done].
    intros Hl. destruct (IH _ _ _ Hl) as (Hf & cs & -> & Hlen & Hsum).
    split; [done|]. exists (bf :: cs). rewrite <-app_assoc. simpl.
    rewrite Hadd. simpl. auto.
Qed.


Lemma t_add_same_dims (x y : Tensor2 R) :
  dims x = dims y → t_add x y = Ok (tz x y).
Proof. apply broadcast2_same_dims. Qed.

Lemma t_add_level (level c : Tensor2 R) (n : nat) :
  Forall (λ row, (length row ≤ 1)%nat) level →
  dims c = dims (repeat_columns level n) →
  t_add level c = Ok (tz (repeat_columns level n) c).
Proof. apply broadcast2_level. Qed.

(** With a backcast and a mask of the residual's shape, the update of the
    residual is element-wise: (residual - backcast) * mask. *)
Lemma residual_update_elementwise (residuals backcast mask : Tensor2 R) :
  dims backcast = dims residuals → dims mask = dims residuals →
  (d ← t_sub residuals backcast; t_mul d mask)
  = Ok (zip_with (zip_with s_mul)
          (zip_with (zip_with s_sub) residuals backcast) mask).
Proof.
  intros Hb Hm. unfold t_sub, t_mul.
  rewrite broadcast2_same_dims by done. cbn [mbind result_bind].
  rewrite broadcast2_same_dims; [done|]. by rewrite dims_zip_with.
Qed.



End DecompositionFacts.

Section DecompositionConsistency.
Context {R : Type} `{Scalar R}.


Lemma length_concat_replicate (n : nat) (row : list R) :
  length (concat (replicate n row)) = (n * length row)%nat.
Proof. induction n as [|n IH]; simpl; [done|]. rewrite length_app, IH. lia. Qed.


End DecompositionConsistency.

Section CubicFacts.
Context {R : Type} `{Scalar R} `{Interpolation R}.

Lemma slice_index_nonneg (len : nat) (i : Z) :
  0 ≤ i → slice_index len i = Nat.min (Z.to_nat i) len.
Proof. intros Hi. unfold slice_index. by rewrite (proj2 (Z.ltb_ge i 0)) by lia. Qed.

Lemma add_to_zero_rows (size : Z) (ks : Tensor2 R) :
  Forall (λ line, length (F_interpolate "bicubic" size line) = Z.to_nat size) ks →
  t_add (replicate (length ks) (replicate (Z.to_nat size) s_zero))
        (map (F_interpolate "bicubic" size) ks)
  = Ok (map (stored size) ks)
  ∧ dims (map (stored size) ks)
    = dims (replicate (length ks) (replicate (Z.to_nat size) (s_zero : R))).
Proof.
  intros Hks.
  assert (dims (replicate (length ks) (replicate (Z.to_nat size) (s_zero : R)))
          = dims (map (F_interpolate "bicubic" size) ks)) as Hd.
  { induction Hks as [|k ks Hk _ IH]; simpl; [done|].
    rewrite length_replicate, Hk. f_equal. exact IH. }
  unfold t_add. rewrite broadcast2_same_dims by done.
  assert (zip_with (zip_with s_add)
            (replicate (length ks) (replicate (Z.to_nat size) s_zero))
            (map (F_interpolate "bicubic" size) ks)
          = map (stored size) ks) as E.
  { clear. induction ks as [|k ks IH]; simpl; [done|]. by rewrite IH. }
  split; [by rewrite E|]. rewrite <-E. by apply dims_zip_with.
Qed.

(** One pass of the loop: the lines [a..b) of the buffer are filled. *)
Lemma iadd_slice_fills (size lo hi : Z) (knots : Tensor2 R) (a b : nat) :
  Forall (λ line, length (F_interpolate "bicubic" size line) = Z.to_nat size) knots →
  slice_index (length knots) lo = a →
  slice_index (length knots) hi = b →
  (a ≤ b ≤ length knots)%nat →
  iadd_slice (map (stored size) (take a knots)
              ++ replicate (length knots - a) (replicate (Z.to_nat size) s_zero))
             lo hi (map (F_interpolate "bicubic" size) (py_slice lo hi knots))
  = Ok (map (stored size) (take b knots)
        ++ replicate (length knots - b) (replicate (Z.to_nat size) s_zero)).
Proof.
  intros Hknots Ha Hb Hab. unfold iadd_slice, py_slice. cbv zeta.
  assert (length (map (stored size) (take a knots)) = a) as Hpre
    by (rewrite length_map, length_take; lia).
  assert (length (map (stored size) (take a knots)
                  ++ replicate (length knots - a) (replicate (Z.to_nat size) s_zero))
          = length knots) as ->
    by (rewrite length_app, Hpre, length_replicate; lia).
  rewrite Ha, Hb.
  set (ks := take (b - a) (drop a knots)).
  assert (length ks = (b - a)%nat) as Hks
    by (unfold ks; rewrite length_take, length_drop; lia).
  assert (Forall (λ line, length (F_interpolate "bicubic" size line) = Z.to_nat size) ks)
    as Hks'.
  { by apply Forall_take, Forall_drop. }
  rewrite (drop_app_length' _ _ a) by done.
  rewrite (take_app_length' _ _ a) by done.
  rewrite (drop_app_add' _ _ a) by done.
  rewrite take_replicate, drop_replicate, Nat.min_l by lia.
  rewrite <-Hks. destruct (add_to_zero_rows size ks Hks') as [-> Hd].
  cbn [mbind result_bind]. rewrite bool_decide_eq_true_2 by exact Hd.
  f_equal. rewrite Hks.
  rewrite app_assoc, <-map_app. unfold ks.
  rewrite take_take_drop.
  replace (a + (b - a))%nat with b by lia.
  by replace (length knots - a - (b - a))%nat with (length knots - b)%nat by lia.
Qed.

Lemma ceil_div_bounds (n bs : Z) :
  0 ≤ n → 0 < bs →
  0 ≤ - (- n / bs) ∧ n ≤ bs * - (- n / bs) ∧ bs * (- (- n / bs) - 1) < n.
Proof.
  intros Hn Hbs.
  pose proof (Z.div_mod (- n) bs ltac:(lia)) as Hdm.
  pose proof (Z.mod_pos_bound (- n) bs Hbs) as Hmod.
  nia.
Qed.

Lemma cubic_loop_prefix (size batch_size : Z) (knots : Tensor2 R) (i : nat) :
  0 < batch_size →
  Forall (λ line, length (F_interpolate "bicubic" size line) = Z.to_nat size) knots →
  (∀ j, (j < i)%nat → (j * Z.to_nat batch_size < length knots)%nat) →
  foldM (λ forecast i,
           let lo := Z.of_nat i * batch_size in
           let hi := (Z.of_nat i + 1) * batch_size in
           let forecast_i := map (F_interpolate "bicubic" size) (py_slice lo hi knots) in
           iadd_slice forecast lo hi forecast_i)
        (seq 0 i)
        (replicate (length knots) (replicate (Z.to_nat size) s_zero))
  = Ok (map (stored size) (take (i * Z.to_nat batch_size) knots)
        ++ replicate (length knots - i * Z.to_nat batch_size)
                     (replicate (Z.to_nat size) s_zero)).
Proof.
  intros Hbs Hknots. induction i as [|i IH]; intros Hlt.
  - simpl. by rewrite Nat.sub_0_r.
  - rewrite seq_S, foldM_app, IH by (intros j Hj; apply Hlt; lia).
    cbn [mbind result_bind foldM plus].
    specialize (Hlt i ltac:(lia)).
    set (bsn := Z.to_nat batch_size) in *.
    rewrite (iadd_slice_fills size _ _ knots (i * bsn)
               (Nat.min (S i * bsn) (length knots))); try done.
    + cbn [mbind result_bind].
      destruct (decide (S i * bsn ≤ length knots)%nat).
      * by rewrite Nat.min_l by done.
      * rewrite Nat.min_r by lia. rewrite !take_ge by lia.
        do 3 f_equal; lia.
    + rewrite slice_index_nonneg by lia.
      unfold bsn. rewrite Z2Nat.inj_mul, Nat2Z.id by lia. lia.
    + rewrite slice_index_nonneg by lia.
      unfold bsn. rewrite Z2Nat.inj_mul, Z2Nat.inj_add, Nat2Z.id by lia.
      f_equal. simpl. lia.
    + simpl. lia.
Qed.

Lemma cubic_forecast_full (size batch_size : Z) (knots : Tensor2 R) :
  0 < batch_size → 0 ≤ size →
  Forall (λ line, length (F_interpolate "bicubic" size line) = Z.to_nat size) knots →
  cubic_forecast size batch_size knots = Ok (cubic_full_batch size knots).
Proof.
  intros Hbs Hsize Hknots. unfold cubic_forecast, zeros, ceil_div.
  rewrite (proj2 (Z.ltb_ge size 0)) by lia.
  rewrite (proj2 (Z.eqb_neq batch_size 0)) by lia.
  cbn [mbind result_bind].
  destruct (ceil_div_bounds (Z.of_nat (length knots)) batch_size) as (Hq0 & Hq1 & Hq2);
    [lia|lia|].
  set (q := - (- Z.of_nat (length knots) / batch_size)) in *.
  rewrite cubic_loop_prefix; try done.
  - assert (length knots ≤ Z.to_nat q * Z.to_nat batch_size)%nat by nia.
    rewrite take_ge by done.
    replace (length knots - Z.to_nat q * Z.to_nat batch_size)%nat with 0%nat by lia.
    simpl. by rewrite app_nil_r.
  - intros j Hj. nia.
Qed.
End CubicFacts.

Section IdentityBasisFacts.
Context {R : Type} `{Scalar R} `{Interpolation R}.

Lemma cubic_is_not_nearest_or_linear (mode : string) :
  contains "cubic" mode = true →
  String.eqb mode "nearest" = false ∧ String.eqb mode "linear" = false.
Proof.
  intros Hc. split.
  - destruct (String.eqb_spec mode "nearest") as [->|]; [done|done].
  - destruct (String.eqb_spec mode "linear") as [->|]; [done|done].
Qed.

Lemma slice_to_from_lengths (size : Z) (knots_length : nat) (row : list R) :
  0 ≤ size →
  length row = (Z.to_nat size + knots_length)%nat →
  slice_to size row = take (Z.to_nat size) row
  ∧ length (slice_to size row) = Z.to_nat size
  ∧ length (slice_from size row) = knots_length.
Proof.
  intros Hsize Hrow. unfold slice_to, slice_from.
  rewrite slice_index_nonneg, Nat.min_l by lia.
  rewrite length_take, length_drop. split; [done|]. lia.
Qed.

Lemma forward_cubic (self : IdentityBasis) (theta : Tensor2 R) (batch_size : Z) :
  contains "cubic" (interpolation_mode self) = true →
  py_int (last_field "-" (interpolation_mode self)) = Ok batch_size →
  0 < batch_size →
  0 < forecast_size self →
  Forall (λ line, length (F_interpolate "bicubic" (forecast_size self) line)
                  = Z.to_nat (forecast_size self))
         (map (slice_from (backcast_size self)) theta) →
  IdentityBasis_forward self theta =
    Ok (map (slice_to (backcast_size self)) theta,
        cubic_full_batch (forecast_size self)
                         (map (slice_from (backcast_size self)) theta)).
Proof.
  intros Hmode Hint Hbs Hsize Hlines. unfold IdentityBasis_forward.
  destruct (cubic_is_not_nearest_or_linear _ Hmode) as [-> ->].
  rewrite Hmode, Hint. cbn [mbind result_bind].
  by rewrite cubic_forecast_full by (done || lia).
Qed.

(** C7: in cubic mode the forward pass fills a zero buffer sub-batch by
    sub-batch, and for every positive configured sub-batch size the
    forecast it returns is the zero buffer plus one interpolation of the
    whole batch. *)
Theorem cubic_sub_batching_is_invisible
    (self : IdentityBasis) (theta : Tensor2 R) (batch_size : Z) :
  contains "cubic" (interpolation_mode self) = true →
  py_int (last_field "-" (interpolation_mode self)) = Ok batch_size →
  0 < batch_size →
  0 < forecast_size self →
  Forall (λ line, length (F_interpolate "bicubic" (forecast_size self) line)
                  = Z.to_nat (forecast_size self))
         (map (slice_from (backcast_size self)) theta) →
  IdentityBasis_forward self theta =
    Ok (map (slice_to (backcast_size self)) theta,
        cubic_full_batch (forecast_size self)
                         (map (slice_from (backcast_size self)) theta)).
Proof.
  intros Hmode Hint Hbs Hsize Hlines. by apply (forward_cubic self theta batch_size).
Qed.

(** C6: for coefficient rows of length backcast_size + knots_length the
    identity basis returns the first backcast_size coefficients of each
    row unchanged as backcast, and backcast and forecast have the shapes
    (batch, backcast_size) and (batch, forecast_size) in nearest, linear
    and cubic mode. *)
Theorem IdentityBasis_forward_shapes
    (self : IdentityBasis) (theta : Tensor2 R) (batch knots_length : nat) :
  0 ≤ backcast_size self →
  0 < forecast_size self →
  (0 < knots_length)%nat →
  has_shape batch (Z.to_nat (backcast_size self) + knots_length) theta →
  (∀ mode line, line ≠ [] →
     length (F_interpolate mode (forecast_size self) line)
     = Z.to_nat (forecast_size self)) →
  interpolation_mode self = "nearest"%string
  ∨ interpolation_mode self = "linear"%string
  ∨ (contains "cubic" (interpolation_mode self) = true
     ∧ ∃ batch_size, py_int (last_field "-" (interpolation_mode self)) = Ok batch_size
                     ∧ 0 < batch_size) →
  ∃ backcast forecast,
    IdentityBasis_forward self theta = Ok (backcast, forecast)
    ∧ backcast = map (take (Z.to_nat (backcast_size self))) theta
    ∧ has_shape batch (Z.to_nat (backcast_size self)) backcast
    ∧ has_shape batch (Z.to_nat (forecast_size self)) forecast.
Proof.
  intros Hb Hf Hk [Hbatch Hrows] Hinterp Hmode.
  assert (map (slice_to (backcast_size self)) theta
          = map (take (Z.to_nat (backcast_size self))) theta) as Eback.
  { apply map_ext_in. intros row Hrow. rewrite Forall_forall in Hrows.
    apply list_elem_of_In in Hrow.
    by destruct (slice_to_from_lengths _ knots_length row Hb (Hrows row Hrow)). }
  assert (has_shape batch (Z.to_nat (backcast_size self))
                    (map (slice_to (backcast_size self)) theta)) as Sback.
  { split; [by rewrite length_map|]. apply Forall_forall. intros row Hrow.
    apply list_elem_of_fmap in Hrow as (r & -> & Hr). rewrite Forall_forall in Hrows.
    by destruct (slice_to_from_lengths _ knots_length r Hb (Hrows r Hr)) as (_ & ? & _). }
  assert (Forall (λ line, line ≠ []) (map (slice_from (backcast_size self)) theta))
    as Hknots.
  { apply Forall_forall. intros row Hrow.
    apply list_elem_of_fmap in Hrow as (r & -> & Hr). rewrite Forall_forall in Hrows.
    destruct (slice_to_from_lengths _ knots_length r Hb (Hrows r Hr)) as (_ & _ & E).
    intros E0. rewrite E0 in E. simpl in E. lia. }
  assert (∀ mode, has_shape batch (Z.to_nat (forecast_size self))
            (map (F_interpolate mode (forecast_size self))
                 (map (slice_from (backcast_size self)) theta))) as Sfore.
  { intros mode. split; [by rewrite !length_map|].
    apply Forall_forall. intros line Hline.
    apply list_elem_of_fmap in Hline as (k & -> & Hk').
    rewrite Forall_forall in Hknots. by apply Hinterp, Hknots. }
  destruct Hmode as [Hm|[Hm|(Hm & batch_size & Hint & Hbs)]].
  - eexists _, _. unfold IdentityBasis_forward. rewrite Hm. simpl.
    split; [done|]. split; [done|]. split; [done|]. rewrite <-Hm. apply Sfore.
  - eexists _, _. unfold IdentityBasis_forward. rewrite Hm. simpl.
    split; [done|]. split; [done|]. split; [done|]. rewrite <-Hm. apply Sfore.
  - eexists _, _. split.
    + apply (forward_cubic self theta batch_size); try done.
      apply Forall_forall. intros line Hline. rewrite Forall_forall in Hknots.
      by apply Hinterp, Hknots.
    + split; [done|]. split; [done|].
      split; [by unfold cubic_full_batch; rewrite !length_map|].
      apply Forall_forall. intros line Hline. unfold cubic_full_batch in Hline.
      apply list_elem_of_fmap in Hline as (k & -> & Hk').
      unfold stored. rewrite length_zip_with, length_replicate.
      rewrite Forall_forall in Hknots. rewrite Hinterp by by apply Hknots. lia.
Qed.
End IdentityBasisFacts.

Section WidthFacts.

Lemma layers_forward_width_app (l1 l2 : list layer) (w : Z) :
  layers_forward_width (l1 ++ l2) w =
  (w' ← layers_forward_width l1 w; layers_forward_width l2 w').
Proof. apply foldM_app. Qed.

Lemma layers_forward_width_cons (l : layer) (ls : list layer) (w : Z) :
  layers_forward_width (l :: ls) w =
  (w' ← layer_forward_width l w; layers_forward_width ls w').
Proof. done. Qed.

Lemma layers_forward_width_nil (w : Z) : layers_forward_width [] w = Ok w.
Proof. done. Qed.

Lemma strided_kernel_bounds (a b : Z) :
  0 < b → b < a → 2 ≤ a / b →
  0 < a / b ∧ a / b ≤ a ∧ 0 < (a - a / b) / (a / b) + 1.
Proof.
  intros Hb Hab Hq.
  pose proof (Z.div_mod a b ltac:(lia)) as Hdm.
  pose proof (Z.mod_pos_bound a b Hb) as Hmod.
  assert (a / b ≤ a) by nia.
  pose proof (Z.div_pos (a - a / b) (a / b) ltac:(lia) ltac:(lia)).
  lia.
Qed.

Lemma down_strided_width (a k nf : Z) (activ : option string) :
  0 < k → k ≤ a → nf = (a - k) / k + 1 →
  layer_forward_width (HiddenFeaturesDownSampleEncoder k k nf activ) a = Ok nf.
Proof.
  intros Hk Hka ->. unfold layer_forward_width.
  rewrite (proj2 (Z.leb_gt k 0)), (proj2 (Z.ltb_ge a k)) by lia. simpl.
  destruct activ; [|done]. by rewrite Z.eqb_refl.
Qed.

Lemma down_unit_stride_width (a b : Z) (activ : option string) :
  0 < b → b < a →
  layer_forward_width (HiddenFeaturesDownSampleEncoder (a - b + 1) 1 b activ) a = Ok b.
Proof.
  intros Hb Hab. unfold layer_forward_width.
  rewrite (proj2 (Z.leb_gt (a - b + 1) 0)), (proj2 (Z.ltb_ge a (a - b + 1))) by lia.
  simpl. replace ((a - (a - b + 1)) / 1 + 1) with b by (rewrite Z.div_1_r; lia).
  destruct activ; [|done]. by rewrite Z.eqb_refl.
Qed.

Lemma up_strided_width (a k nf : Z) (activ : option string) :
  0 < k → 0 < a → nf = k * a →
  layer_forward_width (HiddenFeaturesUpsampleEncoder k k nf activ) a = Ok nf.
Proof.
  intros Hk Ha ->. unfold layer_forward_width.
  rewrite (proj2 (Z.leb_gt k 0)), (proj2 (Z.leb_gt a 0)) by lia. simpl.
  replace ((a - 1) * k + k) with (k * a) by lia.
  destruct activ; [|done]. by rewrite Z.eqb_refl.
Qed.

Lemma up_unit_stride_width (a b : Z) (activ : option string) :
  0 < a → a < b →
  layer_forward_width (HiddenFeaturesUpsampleEncoder (b - a + 1) 1 b activ) a = Ok b.
Proof.
  intros Ha Hab. unfold layer_forward_width.
  rewrite (proj2 (Z.leb_gt (b - a + 1) 0)), (proj2 (Z.leb_gt a 0)) by lia. simpl.
  replace ((a - 1) * 1 + (b - a + 1)) with b by lia.
  destruct activ; [|done]. by rewrite Z.eqb_refl.
Qed.

Lemma maxpool_strided_width (a k : Z) :
  0 < k → k ≤ a →
  layer_forward_width (MaxPool1dLayer k k) a = Ok ((a - k) / k + 1).
Proof.
  intros Hk Hka. unfold layer_forward_width.
  by rewrite (proj2 (Z.leb_gt k 0)), (proj2 (Z.ltb_ge a k)) by lia.
Qed.

Lemma maxpool_unit_stride_width (a b : Z) :
  0 < b → b < a →
  layer_forward_width (MaxPool1dLayer (a - b + 1) 1) a = Ok b.
Proof.
  intros Hb Hab. unfold layer_forward_width.
  rewrite (proj2 (Z.leb_gt (a - b + 1) 0)), (proj2 (Z.ltb_ge a (a - b + 1))) by lia.
  simpl. f_equal. rewrite Z.div_1_r. lia.
Qed.

Lemma bare_linear_width (a b : Z) :
  layer_forward_width (bare_linear a b) a = Ok b.
Proof. unfold bare_linear, layer_forward_width. by rewrite Z.eqb_refl. Qed.

Lemma construct_Ok_inv (l l' : layer) : construct l = Ok l' → l' = l.
Proof.
  destruct l; simpl; repeat (case_match; try done); by intros [= <-].
Qed.

Lemma construct_Raise_inv (l : layer) (e : exn) :
  construct l = Raise e → e = ValueError ∨ e = RuntimeError.
Proof.
  destruct l; simpl; repeat (case_match; try done); intros [= <-]; auto.
Qed.

Lemma construct_linear (i o : Z) (activ : option string) (bn : bool) (p : Q) :
  (p <= 1)%Q → 0 ≤ i → 0 ≤ o →
  construct (HiddenFeaturesLinearEncoder i o activ bn p)
  = Ok (HiddenFeaturesLinearEncoder i o activ bn p).
Proof.
  intros Hp Hi Ho. simpl.
  destruct (Qlt_le_dec 1 p) as [Hlt|_]; [by apply Qlt_not_le in Hlt|].
  by rewrite (proj2 (Z.ltb_ge i 0)), (proj2 (Z.ltb_ge o 0)) by done.
Qed.

Lemma construct_bare_linear (a b : Z) :
  0 ≤ a → 0 ≤ b → construct (bare_linear a b) = Ok (bare_linear a b).
Proof. intros Ha Hb. by apply construct_linear. Qed.

Lemma construct_down (k s nf : Z) (activ : option string) :
  0 ≤ k → 0 ≤ nf →
  construct (HiddenFeaturesDownSampleEncoder k s nf activ)
  = Ok (HiddenFeaturesDownSampleEncoder k s nf activ).
Proof.
  intros Hk Hnf. simpl.
  by rewrite (proj2 (Z.ltb_ge k 0)), (proj2 (Z.ltb_ge nf 0)) by done.
Qed.

Lemma construct_up (k s nf : Z) (activ : option string) :
  0 ≤ k → 0 ≤ nf →
  construct (HiddenFeaturesUpsampleEncoder k s nf activ)
  = Ok (HiddenFeaturesUpsampleEncoder k s nf activ).
Proof.
  intros Hk Hnf. simpl.
  by rewrite (proj2 (Z.ltb_ge k 0)), (proj2 (Z.ltb_ge nf 0)) by done.
Qed.

(** What one iteration of the hidden-layer loop records and builds. *)
Lemma hidden_layer_step_ok (layer_mode : string) (activ : option string)
    (bn : bool) (p : Q) (ws : list Z) (hl : list layer) (i : nat) (w_in w_out : Z) :
  layer_mode = "conv"%string ∨ layer_mode = "linear"%string →
  (p <= 1)%Q →
  ws !! i = Some w_in → ws !! S i = Some w_out → 0 < w_in → 0 < w_out →
  ∃ w' new,
    hidden_layer_step layer_mode activ bn p (ws, hl) i
      = Ok (<[S i := w']> ws, hl ++ new)
    ∧ layers_forward_width new w_in = Ok w'
    ∧ 0 < w'.
Proof.
  intros Hmode Hp Hi HSi Hin Hout. unfold hidden_layer_step, index, floor_div.
  rewrite Hi, HSi. cbn [mbind result_bind].
  destruct Hmode as [-> | ->]; cbn [String.eqb Ascii.eqb Bool.eqb].
  - destruct (w_out <? w_in) eqn:Hlt; [apply Z.ltb_lt in Hlt|apply Z.ltb_ge in Hlt].
    + rewrite (proj2 (Z.eqb_neq w_out 0)) by lia. cbn [mbind result_bind].
      destruct (2 <=? w_in / w_out) eqn:Hq;
        [apply Z.leb_le in Hq|apply Z.leb_gt in Hq].
      * destruct (strided_kernel_bounds w_in w_out Hout Hlt Hq) as (? & ? & ?).
        rewrite construct_down by lia. cbn [mbind result_bind].
        eexists _, [_]. split; [done|]. split; [|done].
        by rewrite layers_forward_width_cons, down_strided_width.
      * rewrite construct_down by lia. cbn [mbind result_bind].
        exists w_out, [HiddenFeaturesDownSampleEncoder (w_in - w_out + 1) 1 w_out activ].
        rewrite list_insert_id by done. split; [done|]. split; [|done].
        by rewrite layers_forward_width_cons, down_unit_stride_width.
    + destruct (w_in <? w_out) eqn:Hgt; [apply Z.ltb_lt in Hgt|apply Z.ltb_ge in Hgt].
      * rewrite (proj2 (Z.eqb_neq w_in 0)) by lia. cbn [mbind result_bind].
        destruct (2 <=? w_out / w_in) eqn:Hq;
          [apply Z.leb_le in Hq|apply Z.leb_gt in Hq].
        -- rewrite construct_up by nia. cbn [mbind result_bind].
           eexists _, [_]. split; [done|]. split; [|nia].
           by rewrite layers_forward_width_cons, up_strided_width by lia.
        -- rewrite construct_up by lia. cbn [mbind result_bind].
           exists w_out, [HiddenFeaturesUpsampleEncoder (w_out - w_in + 1) 1 w_out activ].
           rewrite list_insert_id by done. split; [done|]. split; [|done].
           by rewrite layers_forward_width_cons, up_unit_stride_width.
      * exists w_out, []. rewrite list_insert_id, app_nil_r by done.
        split; [done|]. split; [|done].
        rewrite layers_forward_width_nil. f_equal. lia.
  - rewrite construct_linear by (done || lia). cbn [mbind result_bind].
    exists w_out, [HiddenFeaturesLinearEncoder w_in w_out activ bn p].
    rewrite list_insert_id by done. split; [done|]. split; [|done].
    rewrite layers_forward_width_cons. simpl. by rewrite Z.eqb_refl.
Qed.

(** The loop over the hidden layers: after [i] iterations the layers built
    so far map the first width to the width recorded at position [i]. *)
Lemma hidden_layers_loop (layer_mode : string) (activ : option string)
    (bn : bool) (p : Q) (ws : list Z) (w0 : Z) (i : nat) :
  layer_mode = "conv"%string ∨ layer_mode = "linear"%string →
  (p <= 1)%Q →
  Forall (λ w, 0 < w) ws → ws !! 0%nat = Some w0 → (i < length ws)%nat →
  ∃ ws' hidden w,
    foldM (hidden_layer_step layer_mode activ bn p) (seq 0 i) (ws, []) = Ok (ws', hidden)
    ∧ length ws' = length ws
    ∧ ws' !! 0%nat = Some w0
    ∧ Forall (λ w, 0 < w) ws'
    ∧ drop (S i) ws' = drop (S i) ws
    ∧ ws' !! i = Some w
    ∧ layers_forward_width hidden w0 = Ok w.
Proof.
  intros Hmode Hp Hpos H0. induction i as [|i IH]; intros Hi.
  - exists ws, [], w0. simpl. done.
  - destruct IH as (ws' & hidden & w & Hloop & Hlen & H0' & Hpos' & Hdrop & Hw & Hchain);
      [lia|].
    destruct (lookup_lt_is_Some_2 ws' (S i) ltac:(lia)) as [w_out HSi].
    assert (0 < w) as Hwpos by (rewrite Forall_lookup in Hpos'; by eapply Hpos').
    assert (0 < w_out) as Hopos by (rewrite Forall_lookup in Hpos'; by eapply Hpos').
    destruct (hidden_layer_step_ok layer_mode activ bn p ws' hidden i w w_out
                Hmode Hp Hw HSi Hwpos Hopos) as (w' & new & Hstep & Hnew & Hw').
    exists (<[S i := w']> ws'), (hidden ++ new), w'.
    rewrite seq_S, foldM_app, Hloop. cbn [mbind result_bind foldM plus].
    rewrite Hstep. cbn [mbind result_bind].
    split; [done|]. split; [by rewrite length_insert|].
    split; [by rewrite list_lookup_insert_ne|].
    split; [by apply Forall_insert|].
    split; [|split].
    + rewrite drop_insert_lt by lia.
      replace (S (S i)) with (S i + 1)%nat by lia.
      rewrite <-!drop_drop. by rewrite Hdrop.
    + apply list_lookup_insert_eq. lia.
    + by rewrite layers_forward_width_app, Hchain.
Qed.

Lemma construct_all_ok (layers : list layer) :
  Forall (λ l, construct l = Ok l) layers → construct_all layers = Ok layers.
Proof.
  unfold construct_all. induction 1 as [|l layers Hl _ IH]; [done|].
  cbn [mapM_result]. by rewrite Hl, IH.
Qed.

Lemma construct_all_Ok_inv (layers built : list layer) :
  construct_all layers = Ok built → built = layers.
Proof.
  unfold construct_all. revert built.
  induction layers as [|l layers IH]; intros built; cbn [mapM_result].
  - by intros [= <-].
  - destruct (construct l) as [l'|e] eqn:Hl; cbn [mbind result_bind]; [|done].
    destruct (mapM_result construct layers) as [rest|e];
      cbn [mbind result_bind]; [|done].
    intros [= <-]. apply construct_Ok_inv in Hl as ->. by rewrite (IH _ eq_refl).
Qed.

(** The layers at hand are accepted by torch's constructors. *)
Ltac constructed :=
  rewrite construct_all_ok
    by (repeat constructor;
        first [apply construct_bare_linear | apply construct_down
              | apply construct_up | reflexivity];
        first [lia | nia]).

(** The output layer maps the last hidden width to exactly [n_theta]. *)
Lemma build_output_layer_ok (output_layer : string) (h n_theta : Z)
    (activ : option string) :
  output_layer = "linear"%string ∨ output_layer = "conv"%string
  ∨ output_layer = "max"%string →
  0 < h → 0 < n_theta →
  ∃ output,
    build_output_layer output_layer h n_theta activ = Ok output
    ∧ layers_forward_width output h = Ok n_theta.
Proof.
  intros Hmode Hh Hn. unfold build_output_layer, floor_div.
  destruct Hmode as [-> | [-> | ->]]; simpl.
  - constructed. eexists. split; [done|]. by rewrite layers_forward_width_cons, bare_linear_width.
  - destruct (n_theta <? h) eqn:Hlt; [apply Z.ltb_lt in Hlt|apply Z.ltb_ge in Hlt].
    + rewrite (proj2 (Z.eqb_neq n_theta 0)) by lia. cbn [mbind result_bind].
      destruct (2 <=? h / n_theta) eqn:Hq;
        [apply Z.leb_le in Hq|apply Z.leb_gt in Hq].
      * destruct (strided_kernel_bounds h n_theta Hn Hlt Hq) as (? & ? & ?).
        destruct ((h - h / n_theta) / (h / n_theta) + 1 =? n_theta) eqn:E; simpl.
        -- apply Z.eqb_eq in E. constructed. eexists. split; [done|].
           rewrite layers_forward_width_cons, down_strided_width by done.
           cbn [mbind result_bind]. by rewrite layers_forward_width_nil, E.
        -- constructed. eexists. split; [done|].
           rewrite layers_forward_width_cons, down_strided_width by done.
           cbn [mbind result_bind].
           by rewrite layers_forward_width_cons, bare_linear_width.
      * constructed. eexists. split; [done|]. by rewrite layers_forward_width_cons, down_unit_stride_width.
    + destruct (h <? n_theta) eqn:Hgt; [apply Z.ltb_lt in Hgt|apply Z.ltb_ge in Hgt].
      * rewrite (proj2 (Z.eqb_neq h 0)) by lia. cbn [mbind result_bind].
        destruct (2 <=? n_theta / h) eqn:Hq;
          [apply Z.leb_le in Hq|apply Z.leb_gt in Hq].
        -- destruct (n_theta / h * h =? n_theta) eqn:E; simpl.
           ++ apply Z.eqb_eq in E. constructed. eexists. split; [done|].
              rewrite layers_forward_width_cons, up_strided_width by lia.
              cbn [mbind result_bind]. rewrite layers_forward_width_nil. f_equal. lia.
           ++ constructed. eexists. split; [done|].
              rewrite layers_forward_width_cons, up_strided_width by lia.
              cbn [mbind result_bind].
              by rewrite layers_forward_width_cons, bare_linear_width.
        -- constructed. eexists. split; [done|]. by rewrite layers_forward_width_cons, up_unit_stride_width.
      * constructed. eexists. split; [done|].
        replace h with n_theta by lia.
        by rewrite layers_forward_width_cons, bare_linear_width.
  - destruct (n_theta <? h) eqn:Hlt; [apply Z.ltb_lt in Hlt|apply Z.ltb_ge in Hlt].
    + rewrite (proj2 (Z.eqb_neq n_theta 0)) by lia. cbn [mbind result_bind].
      destruct (2 <=? h / n_theta) eqn:Hq;
        [apply Z.leb_le in Hq|apply Z.leb_gt in Hq].
      * destruct (strided_kernel_bounds h n_theta Hn Hlt Hq) as (? & ? & ?).
        destruct ((h - h / n_theta) / (h / n_theta) + 1 =? n_theta) eqn:E; simpl.
        -- apply Z.eqb_eq in E. constructed. eexists. split; [done|].
           rewrite layers_forward_width_cons, maxpool_strided_width by done.
           cbn [mbind result_bind]. by rewrite layers_forward_width_nil, E.
        -- constructed. eexists. split; [done|].
           rewrite layers_forward_width_cons, maxpool_strided_width by done.
           cbn [mbind result_bind].
           by rewrite layers_forward_width_cons, bare_linear_width.
      * constructed. eexists. split; [done|]. by rewrite layers_forward_width_cons, maxpool_unit_stride_width.
    + constructed. eexists. split; [done|]. by rewrite layers_forward_width_cons, bare_linear_width.
Qed.
End WidthFacts.

Section WidthReconciliation.

Lemma conv_pair_step (w_in w_out : Z) (activ : option string) (bn : bool) (p : Q) :
  0 < w_in → 0 < w_out → w_in ≠ w_out →
  hidden_layer_step "conv" activ bn p ([w_in; w_out], []) 0
    = Ok ([w_in; (conv_pair_geometry w_in w_out).2],
          [conv_pair_layer w_in w_out activ])
  ∧ layer_forward_width (conv_pair_layer w_in w_out activ) w_in
    = Ok (conv_pair_geometry w_in w_out).2.
Proof.
  intros Hin Hout Hne.
  unfold hidden_layer_step, conv_pair_layer, conv_pair_geometry, index, floor_div.
  cbn [String.eqb Ascii.eqb Bool.eqb andb lookup list_lookup mbind result_bind].
  destruct (w_out <? w_in) eqn:Hlt; [apply Z.ltb_lt in Hlt|apply Z.ltb_ge in Hlt].
  - rewrite (proj2 (Z.eqb_neq w_out 0)) by lia. cbn [mbind result_bind].
    destruct (2 <=? w_in / w_out) eqn:Hq;
      [apply Z.leb_le in Hq|apply Z.leb_gt in Hq]; cbn [snd].
    + destruct (strided_kernel_bounds w_in w_out Hout Hlt Hq) as (? & ? & ?).
      rewrite construct_down by lia. cbn [mbind result_bind].
      split; [done|]. by apply down_strided_width.
    + rewrite construct_down by lia. cbn [mbind result_bind].
      split; [done|]. by apply down_unit_stride_width.
  - assert (w_in < w_out) as Hgt by lia.
    rewrite (proj2 (Z.ltb_lt w_in w_out)) by done.
    rewrite (proj2 (Z.eqb_neq w_in 0)) by lia. cbn [mbind result_bind].
    destruct (2 <=? w_out / w_in) eqn:Hq;
      [apply Z.leb_le in Hq|apply Z.leb_gt in Hq]; cbn [snd].
    + rewrite construct_up by nia. cbn [mbind result_bind].
      split; [done|]. apply up_strided_width; lia.
    + rewrite construct_up by lia. cbn [mbind result_bind].
      split; [done|]. by apply up_unit_stride_width.
Qed.

Lemma n_time_in_pooled_positive (n_time_in kernel : Z) :
  0 < n_time_in → 0 < kernel →
  ∃ pooled, n_time_in_pooled n_time_in kernel = Ok pooled ∧ 0 < pooled.
Proof.
  intros Hn Hk. unfold n_time_in_pooled, ceil_div.
  rewrite (proj2 (Z.eqb_neq kernel 0)) by lia. eexists. split; [done|].
  pose proof (Z.div_mod (- n_time_in) kernel ltac:(lia)) as Hdm.
  pose proof (Z.mod_pos_bound (- n_time_in) kernel Hk) as Hmod.
  nia.
Qed.

(** C3 (as amended): in convolutional mode the layer built for a pair of
    consecutive positive widths has kernel = stride = floor of the ratio
    when the ratio is at least 2 and kernel = |W_in - W_out| + 1 with
    stride 1 otherwise, and maps W_in to the width the loop records for
    the next layer: W_out in the stride-1 cases, (W_in - kernel)/kernel
    + 1 (down) or kernel * W_in (up) in the strided cases.  The output
    layer maps the last recorded width to n_theta: a block constructed
    on positive sizes, a dropout probability of at most 1 and at most
    as many layers as configured widths maps its input width to exactly
    n_theta whenever the width recorded after its last hidden layer is
    the last recorded width, as it is when the number of layers is the
    number of configured widths. *)
Theorem projection_network_reaches_n_theta
    (n_time_in n_time_out n_x n_s n_s_hidden n_theta : Z)
    (n_theta_hidden : list Z) (n_pool_kernel_size n_freq_downsample : Z)
    (pooling_mode layer_mode output_layer : string) (basis : IdentityBasis)
    (n_layers : Z) (batch_normalization : bool) (dropout_prob : Q)
    (activation : string) :
  0 < n_time_in → 0 ≤ n_time_out → 0 ≤ n_x → 0 ≤ n_s_hidden →
  0 < n_pool_kernel_size → 0 < n_theta →
  Forall (λ w, 0 < w) n_theta_hidden →
  0 ≤ n_layers ≤ Z.of_nat (length n_theta_hidden) →
  (dropout_prob <= 1)%Q →
  name_in pooling_mode ["max"; "stochastic"; "none"]%string = true →
  name_in activation ACTIVATIONS = true →
  layer_mode = "conv"%string ∨ layer_mode = "linear"%string →
  output_layer = "linear"%string ∨ output_layer = "conv"%string
  ∨ output_layer = "max"%string →
  (∀ w_in w_out, 0 < w_in → 0 < w_out → w_in ≠ w_out →
     hidden_layer_step "conv" (Some activation) batch_normalization dropout_prob
                       ([w_in; w_out], []) 0
       = Ok ([w_in; (conv_pair_geometry w_in w_out).2],
             [conv_pair_layer w_in w_out (Some activation)])
     ∧ layer_forward_width (conv_pair_layer w_in w_out (Some activation)) w_in
       = Ok (conv_pair_geometry w_in w_out).2)
  ∧ ∃ block w0,
      NHITSBlock_init n_time_in n_time_out n_x n_s n_s_hidden n_theta n_theta_hidden
        n_pool_kernel_size n_freq_downsample pooling_mode layer_mode output_layer
        basis n_layers batch_normalization dropout_prob activation = Ok block
      ∧ head (b_n_theta_hidden block) = Some w0
      ∧ (n_layers = Z.of_nat (length n_theta_hidden) →
         b_n_theta_hidden block !! Z.to_nat n_layers
         = last (b_n_theta_hidden block))
      ∧ (b_n_theta_hidden block !! Z.to_nat n_layers
         = last (b_n_theta_hidden block) →
         layers_forward_width (b_layers block) w0 = Ok n_theta).
Proof.
  intros Hin Hout Hx Hs Hk Hn Hpos Hdepth Hp Hpool Hact Hlayer Houtput.
  split; [intros; by apply conv_pair_step|].
  unfold NHITSBlock_init.
  assert (name_in pooling_mode POOLING_MODES = true) as ->.
  { unfold name_in in *. simpl in *.
    repeat (apply orb_true_iff in Hpool as [Hpool|Hpool]); rewrite ?Hpool;
      by rewrite ?orb_true_r. }
  assert (String.eqb pooling_mode "conv" = false) as Hnoconv.
  { destruct (String.eqb_spec pooling_mode "conv") as [->|]; [|done].
    by vm_compute in Hpool. }
  destruct (n_time_in_pooled_positive n_time_in n_pool_kernel_size Hin Hk)
    as (pooled & -> & Hpooled).
  rewrite Hact, Hnoconv. cbn [negb mbind result_bind].
  set (n_s_hidden' := if n_s =? 0 then 0 else n_s_hidden).
  set (w0 := pooled + (n_time_in + n_time_out) * n_x + n_s_hidden').
  assert (0 < w0) as Hw0 by (unfold w0, n_s_hidden'; destruct (n_s =? 0); nia).
  destruct (hidden_layers_loop layer_mode (Some activation) batch_normalization
              dropout_prob ([w0] ++ n_theta_hidden) w0 (Z.to_nat n_layers))
    as (ws' & hidden & w & Hloop & Hlen & H0' & Hpos' & _ & Hw & Hchain);
    [done|done|by constructor|done|simpl; lia|].
  rewrite Hloop. cbn [mbind result_bind].
  destruct (lookup_lt_is_Some_2 ws' (length n_theta_hidden)) as [h Hh];
    [rewrite Hlen; simpl; lia|].
  assert (last ws' = Some h) as Hlast.
  { rewrite last_lookup, Hlen. simpl. done. }
  rewrite Hlast. cbn [mbind result_bind].
  assert (0 < h) as Hhpos by (rewrite Forall_lookup in Hpos'; by eapply Hpos').
  destruct (build_output_layer_ok output_layer h n_theta (Some activation)
              Houtput Hhpos Hn) as (output & -> & Hout_w).
  cbn [mbind result_bind]. eexists _, w0. split; [done|].
  cbn [b_n_theta_hidden b_layers].
  split; [by destruct ws'; simplify_eq/=|]. split.
  - intros ->. by rewrite Nat2Z.id, Hlast.
  - rewrite Hw, Hlast. intros [= ->].
    by rewrite layers_forward_width_app, Hchain; cbn [mbind result_bind].
Qed.
End WidthReconciliation.

Section LoopFacts.
Context {S A : Type}.

Lemma foldM_seq_invariant (body : S → nat → result S) (P : nat → S → Prop)
    (n : nat) (s s' : S) :
  P 0%nat s →
  (∀ i s s', (i < n)%nat → P i s → body s i = Ok s' → P (Datatypes.S i) s') →
  foldM body (seq 0 n) s = Ok s' → P n s'.
Proof.
  intros H0 Hstep. revert s'. induction n as [|n IH]; intros s'.
  - simpl. by intros [= <-].
  - rewrite seq_S, foldM_app.
    destruct (foldM body (seq 0 n) s) as [s1|e] eqn:E; [|done].
    cbn [mbind result_bind foldM plus].
    destruct (body s1 n) as [s2|e] eqn:E2; [|done].
    cbn [mbind result_bind]. intros [= <-].
    apply (Hstep n s1 s2); [lia| |done].
    apply IH; [|done]. intros i t t' Hi. apply Hstep. lia.
Qed.

Lemma foldM_raise (body : S → A → result S) (l : list A) (s : S) (e : exn) :
  foldM body l s = Raise e → ∃ s' a, a ∈ l ∧ body s' a = Raise e.
Proof.
  revert s. induction l as [|a l IH]; intros s; [done|]. simpl.
  destruct (body s a) as [s1|e1] eqn:E; cbn [mbind result_bind].
  - intros Hl. destruct (IH _ Hl) as (s' & a' & Ha' & Hr).
    exists s', a'. split; [by right|done].
  - intros [= ->]. exists s, a. split; [by left|done].
Qed.

Lemma mapM_result_raise {B : Type} (f : A → result B) (l : list A) (e : exn) :
  mapM_result f l = Raise e → ∃ a, a ∈ l ∧ f a = Raise e.
Proof.
  induction l as [|a l IH]; [done|]. simpl.
  destruct (f a) as [b|e1] eqn:E; cbn [mbind result_bind].
  - destruct (mapM_result f l) as [bs|e2]; cbn [mbind result_bind]; [done|].
    intros [= ->]. destruct IH as (a' & Ha' & Hr); [done|].
    exists a'. split; [by right|done].
  - intros [= ->]. exists a. split; [by left|done].
Qed.

Lemma mapM_result_Ok_inv {B : Type} (f : A → result B) (l : list A) (bs : list B) :
  mapM_result f l = Ok bs → Forall (λ a, ∃ b, f a = Ok b) l.
Proof.
  revert bs. induction l as [|a l IH]; intros bs; [by constructor|]. simpl.
  destruct (f a) as [b|e] eqn:E; cbn [mbind result_bind]; [|done].
  destruct (mapM_result f l) as [bs'|e]; cbn [mbind result_bind]; [|done].
  intros _. constructor; [by exists b|by eapply IH].
Qed.
End LoopFacts.

Lemma bind_Ok_inv {A B : Type} (m : result A) (f : A → result B) (b : B) :
  m ≫= f = Ok b → ∃ a, m = Ok a ∧ f a = Ok b.
Proof. destruct m as [a|e]; [|done]. intros Hf. by exists a. Qed.

Lemma index_Ok_inv {A : Type} (l : list A) (i : nat) (a : A) :
  index l i = Ok a → l !! i = Some a.
Proof. unfold index. by destruct (l !! i); intros [= ->]. Qed.

(** Peel the first computation off a successful sequence. *)
Ltac bind_inv H x Hx :=
  apply bind_Ok_inv in H as (x & Hx & H); cbn beta in H.

Section StackFacts.
Variable cfg : NHITSConfig.

Lemma init_weights_Ok (m : torch_module) (name : string) :
  (∃ u, init_weights m name = Ok u) ↔
  name_in name INITIALIZATIONS = true ∨ is_linear m = false.
Proof.
  destruct m; simpl; try (split; [by right|intros _; by exists tt]).
  destruct (name_in name INITIALIZATIONS); split.
  - by left.
  - intros _. by exists tt.
  - by intros [? ?].
  - by intros [?|?].
Qed.

Lemma apply_init_weights_inv (h h' : heap) (ref : nat) :
  apply_init_weights h ref (initialization cfg) = Ok h' →
  ∃ block, h !! ref = Some block
           ∧ h' = <[ref := initialized_again block]> h
           ∧ init_accepts (initialization cfg) block.
Proof.
  unfold apply_init_weights, index.
  destruct (h !! ref) as [block|]; cbn [mbind result_bind]; [|done].
  destruct (mapM_result _ _) as [us|e] eqn:E; cbn [mbind result_bind]; [|done].
  intros [= <-]. exists block. split; [done|]. split; [done|].
  apply mapM_result_Ok_inv in E. unfold init_accepts.
  destruct (name_in (initialization cfg) INITIALIZATIONS) eqn:En; [by left|right].
  eapply Forall_impl; [exact E|]. simpl. intros m Hm.
  apply init_weights_Ok in Hm as [Hm|Hm]; [by rewrite En in Hm|done].
Qed.

Lemma NHITSBlock_init_inv
    (n_time_in n_time_out n_x n_s n_s_hidden n_theta : Z)
    (n_theta_hidden : list Z) (n_pool_kernel_size n_freq_downsample : Z)
    (pooling_mode layer_mode output_layer : string) (basis : IdentityBasis)
    (n_layers : Z) (batch_normalization : bool) (dropout_prob : Q)
    (activation : string) (block : NHITSBlock) :
  NHITSBlock_init n_time_in n_time_out n_x n_s n_s_hidden n_theta n_theta_hidden
    n_pool_kernel_size n_freq_downsample pooling_mode layer_mode output_layer
    basis n_layers batch_normalization dropout_prob activation = Ok block →
  name_in pooling_mode POOLING_MODES = true
  ∧ name_in activation ACTIVATIONS = true
  ∧ b_batch_normalization block = batch_normalization.
Proof.
  unfold NHITSBlock_init.
  destruct (name_in pooling_mode POOLING_MODES); cbn [negb]; [|done].
  destruct (n_time_in_pooled _ _) as [pooled|e]; cbn [mbind result_bind]; [|done].
  destruct (name_in activation ACTIVATIONS); cbn [negb]; [|done].
  destruct (String.eqb pooling_mode "conv"); [done|].
  destruct (foldM _ _ _) as [[ws hl]|e]; cbn [mbind result_bind]; [|done].
  destruct (last ws) as [h|]; cbn [mbind result_bind]; [|done].
  destruct (build_output_layer _ _ _ _) as [out|e]; cbn [mbind result_bind]; [|done].
  by intros [= <-].
Qed.

(** The two ways an iteration of the inner loop can succeed. *)
Lemma create_block_inv (i block_id : nat) (h h' : heap) (bl bl' : list nat) :
  create_block cfg i (h, bl) block_id = Ok (h', bl') →
  (shared_weights cfg = true ∧ (0 < block_id)%nat
   ∧ ∃ ref block, last bl = Some ref ∧ h !! ref = Some block
                  ∧ h' = <[ref := initialized_again block]> h
                  ∧ bl' = bl ++ [ref])
  ∨ ((shared_weights cfg = false ∨ block_id = 0%nat)
     ∧ stack_types cfg !! i = Some "identity"%string
     ∧ name_in (pooling_mode cfg) POOLING_MODES = true
     ∧ name_in (activation cfg) ACTIVATIONS = true
     ∧ ∃ block,
         b_batch_normalization block
         = bool_decide (length bl = 0%nat) && batch_normalization cfg
         ∧ init_accepts (initialization cfg) block
         ∧ h' = h ++ [initialized_again block]
         ∧ bl' = bl ++ [length h]).
Proof.
  unfold create_block.
  destruct (shared_weights cfg && bool_decide (0 < block_id)%nat) eqn:Hshared.
  - apply andb_prop in Hshared as [Hs Hb]. apply bool_decide_eq_true in Hb.
    destruct (last bl) as [ref|]; cbn [mbind result_bind]; [|done].
    destruct (apply_init_weights h ref _) as [h1|e] eqn:Hinit;
      cbn [mbind result_bind]; [|done].
    intros [= <- <-]. left. split; [done|]. split; [done|].
    apply apply_init_weights_inv in Hinit as (block & Hb' & -> & _).
    by exists ref, block.
  - intros Hbody. bind_inv Hbody created Hnew. destruct created as [h0 ref].
    bind_inv Hnew stack_type Hst. apply index_Ok_inv in Hst.
    destruct (String.eqb stack_type "identity") eqn:Hid; [|done].
    apply String.eqb_eq in Hid as ->.
    bind_inv Hnew freq Hfreq. bind_inv Hnew knots Hknots.
    bind_inv Hnew basis Hbasis. bind_inv Hnew hidden Hhidden.
    bind_inv Hnew kernel Hkernel. bind_inv Hnew freq' Hfreq'.
    bind_inv Hnew depth Hdepth. bind_inv Hnew blk Hblock.
    injection Hnew as <- <-.
    bind_inv Hbody h1 Hinit. revert Hbody.
    intros [= <- <-]. right.
    apply NHITSBlock_init_inv in Hblock as (Hpool & Hact & Hbn).
    apply apply_init_weights_inv in Hinit as (blk' & Hb' & -> & Hacc).
    rewrite lookup_app_r, Nat.sub_diag in Hb' by done. injection Hb' as <-.
    split.
    { apply andb_false_iff in Hshared as [?|Hb]; [by left|right].
      apply bool_decide_eq_false in Hb. lia. }
    split; [done|]. split; [done|]. split; [done|].
    exists blk. split; [done|]. split; [done|]. split; [|done].
    rewrite insert_app_r_alt, Nat.sub_diag by done. done.
Qed.
End StackFacts.

Section BlockConstruction.

Lemma usable_pooling_mode (pooling_mode : string) :
  name_in pooling_mode POOLING_MODES = true →
  String.eqb pooling_mode "conv" = false →
  name_in pooling_mode ["max"; "stochastic"; "none"]%string = true.
Proof.
  unfold name_in, POOLING_MODES. cbn [existsb]. intros Hin Hconv.
  rewrite Hconv in Hin. by rewrite orb_false_l in Hin.
Qed.

Lemma usable_output_layer (output_layer : string) (h n_theta : Z)
    (activ : option string) (output : list layer) :
  build_output_layer output_layer h n_theta activ = Ok output →
  name_in output_layer ["linear"; "conv"; "max"]%string = true.
Proof.
  unfold build_output_layer, name_in. cbn [existsb].
  destruct (String.eqb output_layer "linear"); [done|].
  destruct (String.eqb output_layer "conv"); [done|].
  by destruct (String.eqb output_layer "max").
Qed.

(** Everything a successful run of the constructor has computed. *)
Lemma NHITSBlock_init_Ok_inv
    (n_time_in n_time_out n_x n_s n_s_hidden n_theta : Z)
    (n_theta_hidden : list Z) (n_pool_kernel_size n_freq_downsample : Z)
    (pooling_mode layer_mode output_layer : string) (basis : IdentityBasis)
    (n_layers : Z) (batch_normalization : bool) (dropout_prob : Q)
    (activation : string) (block : NHITSBlock) :
  NHITSBlock_init n_time_in n_time_out n_x n_s n_s_hidden n_theta n_theta_hidden
    n_pool_kernel_size n_freq_downsample pooling_mode layer_mode output_layer
    basis n_layers batch_normalization dropout_prob activation = Ok block →
  name_in pooling_mode ["max"; "stochastic"; "none"]%string = true
  ∧ name_in activation ACTIVATIONS = true
  ∧ ∃ pooled ws hidden h output,
      n_time_in_pooled n_time_in n_pool_kernel_size = Ok pooled
      ∧ foldM (hidden_layer_step layer_mode (Some activation) batch_normalization
                                 dropout_prob)
              (seq 0 (Z.to_nat n_layers))
              ([pooled + (n_time_in + n_time_out) * n_x
                + (if n_s =? 0 then 0 else n_s_hidden)] ++ n_theta_hidden, [])
        = Ok (ws, hidden)
      ∧ last ws = Some h
      ∧ build_output_layer output_layer h n_theta (Some activation) = Ok output
      ∧ block = mkNHITSBlock n_time_in n_time_out n_s
                  (if n_s =? 0 then 0 else n_s_hidden) n_x n_pool_kernel_size
                  layer_mode pooling_mode batch_normalization dropout_prob
                  ws n_theta (hidden ++ output) basis 0.
Proof.
  unfold NHITSBlock_init.
  destruct (name_in pooling_mode POOLING_MODES) eqn:Hpool; cbn [negb]; [|done].
  destruct (n_time_in_pooled _ _) as [pooled|e]; cbn [mbind result_bind]; [|done].
  destruct (name_in activation ACTIVATIONS); cbn [negb]; [|done].
  destruct (String.eqb pooling_mode "conv") eqn:Hconv; [done|].
  destruct (foldM _ _ _) as [[ws hl]|e] eqn:Hloop; cbn [mbind result_bind]; [|done].
  destruct (last ws) as [h|] eqn:Hlast; cbn [mbind result_bind]; [|done].
  destruct (build_output_layer _ _ _ _) as [out|e] eqn:Hout;
    cbn [mbind result_bind]; [|done].
  intros [= <-]. split; [by apply usable_pooling_mode|]. split; [done|].
  by exists pooled, ws, hl, h, out.
Qed.
End BlockConstruction.

Section StackInversion.
Variable cfg : NHITSConfig.

(** The two ways an iteration of the inner loop can succeed, with every
    value the constructor of a new block was called on. *)
Lemma create_block_Ok_inv (i block_id : nat) (h h' : heap) (bl bl' : list nat) :
  create_block cfg i (h, bl) block_id = Ok (h', bl') →
  (∃ ref block,
     shared_weights cfg = true ∧ (0 < block_id)%nat
     ∧ last bl = Some ref ∧ h !! ref = Some block
     ∧ h' = <[ref := initialized_again block]> h
     ∧ bl' = bl ++ [ref])
  ∨ (∃ freq hidden kernel depth basis block,
       (shared_weights cfg = false ∨ block_id = 0%nat)
       ∧ stack_types cfg !! i = Some "identity"%string
       ∧ n_freq_downsample cfg !! i = Some freq ∧ freq ≠ 0
       ∧ IdentityBasis_init (n_time_in cfg) (n_time_out cfg) (interpolation_mode_ cfg)
         = Ok basis
       ∧ n_theta_hidden cfg !! i = Some hidden
       ∧ n_pool_kernel_size cfg !! i = Some kernel
       ∧ n_layers cfg !! i = Some depth
       ∧ NHITSBlock_init (n_time_in cfg) (n_time_out cfg) (n_x cfg) (n_s cfg)
           (n_s_hidden cfg) (n_time_in cfg + Z.max (n_time_out cfg / freq) 1)
           hidden kernel freq (pooling_mode cfg) (layer_mode cfg) (output_layer cfg)
           basis depth (bool_decide (length bl = 0%nat) && batch_normalization cfg)
           (dropout_prob_theta cfg) (activation cfg) = Ok block
       ∧ h' = h ++ [initialized_again block]
       ∧ bl' = bl ++ [length h]).
Proof.
  unfold create_block.
  destruct (shared_weights cfg && bool_decide (0 < block_id)%nat) eqn:Hshared.
  - apply andb_prop in Hshared as [Hs Hb]. apply bool_decide_eq_true in Hb.
    destruct (last bl) as [ref|]; cbn [mbind result_bind]; [|done].
    destruct (apply_init_weights h ref _) as [h1|e] eqn:Hinit;
      cbn [mbind result_bind]; [|done].
    intros [= <- <-]. left.
    apply apply_init_weights_inv in Hinit as (block & Hb' & -> & _).
    by exists ref, block.
  - intros Hbody. bind_inv Hbody created Hnew. destruct created as [h0 ref].
    bind_inv Hnew stack_type Hst. apply index_Ok_inv in Hst.
    destruct (String.eqb stack_type "identity") eqn:Hid; [|done].
    apply String.eqb_eq in Hid as ->.
    bind_inv Hnew freq Hfreq. bind_inv Hnew knots Hknots.
    bind_inv Hnew basis Hbasis. bind_inv Hnew hidden Hhidden.
    bind_inv Hnew kernel Hkernel. bind_inv Hnew freq' Hfreq'.
    bind_inv Hnew depth Hdepth. bind_inv Hnew blk Hblock.
    injection Hnew as <- <-.
    bind_inv Hbody h1 Hinit. revert Hbody.
    intros [= <- <-]. right.
    apply index_Ok_inv in Hfreq, Hhidden, Hkernel, Hfreq', Hdepth.
    rewrite Hfreq in Hfreq'. injection Hfreq' as <-.
    unfold floor_div in Hknots. destruct (freq =? 0) eqn:Hz; [done|].
    apply Z.eqb_neq in Hz. injection Hknots as <-.
    apply apply_init_weights_inv in Hinit as (blk' & Hb' & -> & Hacc).
    rewrite lookup_app_r, Nat.sub_diag in Hb' by done. injection Hb' as <-.
    exists freq, hidden, kernel, depth, basis, blk.
    split.
    { apply andb_false_iff in Hshared as [?|Hb]; [by left|right].
      apply bool_decide_eq_false in Hb. lia. }
    do 8 (split; [done|]). split; [|done].
    rewrite insert_app_r_alt, Nat.sub_diag by done. done.
Qed.

(** A property of states that every successful iteration keeps holds of
    the constructed model. *)
Lemma create_stack_ind (P : heap * list nat → Prop) :
  P ([], []) →
  (∀ i block_id st st', P st → create_block cfg i st block_id = Ok st' → P st') →
  ∀ st, create_stack cfg = Ok st → P st.
Proof.
  intros H0 Hstep st. unfold create_stack.
  apply (foldM_seq_invariant _ (λ _, P)); [done|].
  intros i s s' _ Hs Hbody. bind_inv Hbody blocks Hblocks. revert Hbody.
  apply (foldM_seq_invariant _ (λ _, P)); [done|].
  intros k t t' _. apply Hstep.
Qed.
End StackInversion.

Section BatchNormModules.

Lemma linear_encoder_without_batch_norm (i o : Z) (activ : option string) (p : Q) :
  Forall (λ m, is_batch_norm m = false)
         (submodules (HiddenFeaturesLinearEncoder i o activ false p)).
Proof.
  simpl. destruct (Qlt_le_dec 0 p), activ; repeat constructor.
Qed.

Lemma hidden_layers_without_batch_norm (layer_mode : string) (activ : option string)
    (p : Q) (l : list nat) (st st' : list Z * list layer) :
  layer_mode ≠ "conv"%string →
  foldM (hidden_layer_step layer_mode activ false p) l st = Ok st' →
  Forall (λ l, Forall (λ m, is_batch_norm m = false) (submodules l)) st.2 →
  Forall (λ l, Forall (λ m, is_batch_norm m = false) (submodules l)) st'.2.
Proof.
  intros Hconv. revert st. induction l as [|i l IH]; intros st; [by intros [= <-]|].
  cbn [foldM]. intros Hloop Hst. bind_inv Hloop st1 Hstep.
  apply (IH _ Hloop). clear IH Hloop. destruct st as [ws hl]. revert Hstep.
  unfold hidden_layer_step. rewrite (proj2 (String.eqb_neq _ _) Hconv).
  destruct (String.eqb layer_mode "linear"); [|by intros [= <-]].
  intros Hstep. bind_inv Hstep w_in Hin. bind_inv Hstep w_out Hout.
  bind_inv Hstep enc Henc. apply construct_Ok_inv in Henc as ->.
  injection Hstep as <-. simpl in *. apply Forall_app. split; [done|].
  constructor; [|constructor]. apply linear_encoder_without_batch_norm.
Qed.

Lemma output_layer_without_batch_norm (output_layer : string) (h n_theta : Z)
    (activ : option string) (output : list layer) :
  output_layer ≠ "conv"%string →
  build_output_layer output_layer h n_theta activ = Ok output →
  Forall (λ l, Forall (λ m, is_batch_norm m = false) (submodules l)) output.
Proof.
  intros Hconv. unfold build_output_layer.
  rewrite (proj2 (String.eqb_neq _ _) Hconv).
  assert (∀ layers,
            Forall (λ l, Forall (λ m, is_batch_norm m = false) (submodules l)) layers →
            construct_all layers = Ok output →
            Forall (λ l, Forall (λ m, is_batch_norm m = false) (submodules l)) output)
    as Hbuilt.
  { intros layers Hlayers Hc. by apply construct_all_Ok_inv in Hc as ->. }
  assert (∀ a b, Forall (λ m, is_batch_norm m = false) (submodules (bare_linear a b)))
    as Hbare by (intros; apply linear_encoder_without_batch_norm).
  destruct (String.eqb output_layer "linear");
    [apply Hbuilt; by repeat constructor|].
  destruct (String.eqb output_layer "max"); [|done].
  destruct (n_theta <? h); [|apply Hbuilt; by repeat constructor].
  intros Hout. bind_inv Hout q Hq. revert Hout.
  destruct (2 <=? q); [|apply Hbuilt; by repeat constructor].
  destruct (negb _); apply Hbuilt; by repeat constructor.
Qed.

Lemma NHITSBlock_init_without_batch_norm
    (n_time_in n_time_out n_x n_s n_s_hidden n_theta : Z)
    (n_theta_hidden : list Z) (n_pool_kernel_size n_freq_downsample : Z)
    (pooling_mode layer_mode output_layer : string) (basis : IdentityBasis)
    (n_layers : Z) (dropout_prob : Q) (activation : string) (block : NHITSBlock) :
  layer_mode ≠ "conv"%string → output_layer ≠ "conv"%string →
  NHITSBlock_init n_time_in n_time_out n_x n_s n_s_hidden n_theta n_theta_hidden
    n_pool_kernel_size n_freq_downsample pooling_mode layer_mode output_layer
    basis n_layers false dropout_prob activation = Ok block →
  Forall (λ m, is_batch_norm m = false) (modules block).
Proof.
  intros Hlayer Houtput Hinit.
  apply NHITSBlock_init_Ok_inv in Hinit
    as (_ & _ & pooled & ws & hl & h & out & _ & Hloop & _ & Hout & ->).
  unfold modules. cbn [b_layers]. apply Forall_concat, Forall_fmap, Forall_app.
  split.
  - by apply (hidden_layers_without_batch_norm _ _ _ _ _ _ Hlayer Hloop).
  - by eapply output_layer_without_batch_norm.
Qed.
End BatchNormModules.

Section AppliedBatchNorm.
(** A layer that runs a [BatchNorm1d] holds one. *)
Lemma applied_batch_norm_is_held (l : layer) :
  applies_batch_norm l = true → existsb is_batch_norm (submodules l) = true.
Proof.
  destruct l as [i o activ [] p|k s nf [a|]|k s nf [a|]|k s]; simpl; try done.
  intros _. destruct (Qlt_le_dec 0 p); simpl; done.
Qed.

Lemma modules_apply (block : NHITSBlock) :
  Forall (λ m, is_batch_norm m = false) (modules block) →
  existsb applies_batch_norm (b_layers block) = false.
Proof.
  unfold modules. intros Hnone.
  destruct (existsb applies_batch_norm (b_layers block)) eqn:E; [|done].
  apply existsb_exists in E as (l & Hl & Happ).
  apply applied_batch_norm_is_held, existsb_exists in Happ as (m & Hm & Hbn).
  rewrite Forall_forall in Hnone. rewrite Hnone in Hbn; [done|].
  apply list_elem_of_In, in_concat. exists (submodules l).
  split; [by apply in_map|done].
Qed.
End AppliedBatchNorm.

Section CreateStackInvariant.
Variable cfg : NHITSConfig.

Lemma create_block_well_formed (i block_id : nat) (st st' : heap * list nat) :
  well_formed cfg st → create_block cfg i st block_id = Ok st' → well_formed cfg st'.
Proof.
  destruct st as [h bl], st' as [h' bl'].
  intros (Hbn & Hrefs & Hnil & Hhead & Hseq) Hstep. simpl in *.
  apply create_block_inv in Hstep
    as [(Hs & _ & ref & block & Hlast & Href & -> & ->)
       |(_ & _ & _ & _ & block & Hblock & _ & -> & ->)]; unfold well_formed; simpl.
  - assert (ref < length h)%nat as Hlt by by eapply lookup_lt_Some.
    split; [|split; [|split; [|split]]].
    + intros r b Hr. destruct (decide (r = ref)) as [->|Hne].
      * rewrite list_lookup_insert_eq in Hr by done. injection Hr as <-.
        simpl. by apply Hbn.
      * rewrite list_lookup_insert_ne in Hr by done. by apply Hbn.
    + rewrite length_insert. apply Forall_app. split; [done|]. by constructor.
    + by destruct bl.
    + intros r. destruct bl as [|r0 bl]; [done|]. simpl. apply Hhead.
    + intros Hf. by rewrite Hf in Hs.
  - split; [|split; [|split; [|split]]].
    + intros r b Hr. destruct (decide (r < length h)%nat) as [Hlt|Hge].
      * rewrite lookup_app_l in Hr by done. by apply Hbn.
      * rewrite lookup_app_r in Hr by lia.
        destruct (r - length h)%nat as [|?] eqn:E; [|done].
        injection Hr as <-. simpl. rewrite Hblock.
        assert (r = length h) as -> by lia.
        rewrite andb_comm. f_equal.
        destruct bl as [|r0 bl].
        -- rewrite Hnil by done. done.
        -- inversion Hrefs; subst. rewrite !bool_decide_eq_false_2; [done|lia|done].
    + rewrite length_app. simpl. apply Forall_app. split.
      * eapply Forall_impl; [exact Hrefs|]. simpl. lia.
      * constructor; [lia|done].
    + by destruct bl.
    + intros r. destruct bl as [|r0 bl]; simpl.
      * intros [= <-]. by rewrite Hnil.
      * apply Hhead.
    + intros Hf. rewrite length_app, Hseq by done. simpl.
      by rewrite Nat.add_1_r, seq_S.
Qed.

Lemma inner_loop_well_formed (i n : nat) (st st' : heap * list nat) :
  well_formed cfg st →
  foldM (create_block cfg i) (seq 0 n) st = Ok st' → well_formed cfg st'.
Proof.
  intros Hst. apply (foldM_seq_invariant _ (λ _, well_formed cfg)); [done|].
  intros k s s' _. apply create_block_well_formed.
Qed.

Lemma create_stack_well_formed (st : heap * list nat) :
  create_stack cfg = Ok st → well_formed cfg st.
Proof.
  unfold create_stack. apply (foldM_seq_invariant _ (λ _, well_formed cfg)).
  - unfold well_formed. simpl. split; [done|]. by repeat split.
  - intros i s s' _ Hs Hbody. bind_inv Hbody blocks Hblocks.
    by eapply inner_loop_well_formed.
Qed.

(** Outside convolutional mode a block constructed without batch
    normalization holds no [BatchNorm1d] among its layers. *)
Lemma create_stack_without_batch_norm (st : heap * list nat) :
  layer_mode cfg ≠ "conv"%string → output_layer cfg ≠ "conv"%string →
  create_stack cfg = Ok st →
  ∀ ref block, st.1 !! ref = Some block → b_batch_normalization block = false →
               Forall (λ m, is_batch_norm m = false) (modules block).
Proof.
  intros Hlayer Houtput.
  apply (create_stack_ind cfg
           (λ st, ∀ ref block, st.1 !! ref = Some block →
                    b_batch_normalization block = false →
                    Forall (λ m, is_batch_norm m = false) (modules block)));
    [by intros [|?] ?|].
  intros i block_id [h1 bl1] [h2 bl2] Hprev Hstep ref block. cbn [fst snd] in *.
  apply create_block_Ok_inv in Hstep
    as [(ref0 & blk0 & _ & _ & _ & Href0 & -> & _)
       |(freq & hidden & kernel & depth & basis & blk0 & _ & _ & _ & _ & _ & _ & _ & _
         & Hinit & -> & _)].
  - destruct (decide (ref = ref0)) as [->|Hne].
    + rewrite list_lookup_insert_eq by by eapply lookup_lt_Some.
      intros [= <-]. apply (Hprev _ _ Href0).
    + rewrite list_lookup_insert_ne by done. apply Hprev.
  - destruct (decide (ref < length h1)%nat) as [Hlt|Hge].
    + rewrite lookup_app_l by done. apply Hprev.
    + intros Hlook.
      apply lookup_app_Some in Hlook as [Hlook|[_ Hlook]].
      { apply lookup_lt_Some in Hlook. lia. }
      destruct (proj1 (list_lookup_singleton_Some _ _ _) Hlook) as [_ Heq].
      subst block.
      cbn [b_batch_normalization initialized_again]. intros Hflag.
      pose proof Hinit as Hbn. apply NHITSBlock_init_inv in Hbn as (_ & _ & Hbn).
      rewrite Hflag in Hbn. rewrite <-Hbn in Hinit.
      change (modules (initialized_again blk0)) with (modules blk0).
      revert Hinit. by apply NHITSBlock_init_without_batch_norm.
Qed.

(** C10 (as amended): whatever the flag, a block is constructed with the
    argument batch_normalization set exactly when the flag is set and it
    is the first block constructed; that block is the first entry of the
    block list, and every entry that is another object was constructed
    without it and, when neither the layer mode nor the output layer is
    'conv', holds no BatchNorm1d among its layers and runs none.
    Without weight sharing the entry at a position is the object
    constructed at that position, so that this is every entry after the
    first. *)
Theorem batch_normalization_only_on_first_block (h : heap) (block_list : list nat) :
  create_stack cfg = Ok (h, block_list) →
  (∀ ref block, h !! ref = Some block →
     b_batch_normalization block
     = batch_normalization cfg && bool_decide (ref = 0%nat))
  ∧ (∀ ref, head block_list = Some ref → ref = 0%nat)
  ∧ (∀ position ref, block_list !! position = Some ref →
       ∃ block, h !! ref = Some block
                ∧ (ref ≠ 0%nat → b_batch_normalization block = false)
                ∧ (ref ≠ 0%nat →
                   layer_mode cfg ≠ "conv"%string → output_layer cfg ≠ "conv"%string →
                   Forall (λ m, is_batch_norm m = false) (modules block)
                   ∧ existsb applies_batch_norm (b_layers block) = false))
  ∧ (shared_weights cfg = false →
     ∀ position ref, block_list !! position = Some ref → ref = position).
Proof.
  intros Hcreate.
  destruct (create_stack_well_formed _ Hcreate) as (Hbn & Hrefs & _ & Hhead & Hseq).
  simpl in *. split; [done|]. split; [done|]. split.
  - intros position ref Hpos.
    rewrite Forall_lookup in Hrefs. specialize (Hrefs _ _ Hpos).
    destruct (lookup_lt_is_Some_2 h ref Hrefs) as [block Hblock].
    exists block. split; [done|].
    assert (ref ≠ 0%nat → b_batch_normalization block = false) as Hflag.
    { intros Hne.
      rewrite (Hbn _ _ Hblock), bool_decide_eq_false_2 by done. apply andb_false_r. }
    split; [done|]. intros Hne Hlayer Houtput.
    pose proof (create_stack_without_batch_norm _ Hlayer Houtput Hcreate
                  _ _ Hblock (Hflag Hne)) as Hnone.
    split; [done|]. by apply modules_apply.
  - intros Hshared position ref Hlook.
    rewrite (Hseq Hshared) in Hlook. by apply lookup_seq in Hlook as [-> _].
Qed.
End CreateStackInvariant.

Section WeightSharing.
Variable cfg : NHITSConfig.

Lemma stack_offset_S (i : nat) (count : Z) :
  n_blocks cfg !! i = Some count →
  stack_offset cfg (S i) = (stack_offset cfg i + Z.to_nat count)%nat.
Proof.
  intros Hi. unfold stack_offset.
  rewrite (take_S_r _ _ _ Hi), map_app, sum_list_with_app. simpl. lia.
Qed.

(** With weight sharing the inner loop appends one reference, once per
    block of the stack. *)
Lemma shared_inner_loop (i n : nat) (h h' : heap) (bl bl' : list nat) :
  shared_weights cfg = true →
  foldM (create_block cfg i) (seq 0 n) (h, bl) = Ok (h', bl') →
  ∃ ref, bl' = bl ++ replicate n ref.
Proof.
  intros Hshared Hloop.
  apply (foldM_seq_invariant (create_block cfg i)
           (λ k st, ∃ ref, st.2 = bl ++ replicate k ref) n (h, bl) (h', bl'));
    [by exists 0%nat; rewrite app_nil_r| |done].
  intros k [h1 bl1] [h2 bl2] _ [ref Hbl] Hstep. simpl in *. subst bl1.
  apply create_block_inv in Hstep
    as [(_ & Hk & ref' & _ & Hlast & _ & _ & ->)
       |([Hs| ->] & _ & _ & _ & _ & _ & _ & _ & ->)].
  - exists ref. destruct k as [|k]; [lia|].
    rewrite replicate_S_end, app_assoc, last_snoc in Hlast. injection Hlast as <-.
    by rewrite <-app_assoc, <-replicate_S_end.
  - by rewrite Hs in Hshared.
  - exists (length h1). simpl. by rewrite app_nil_r.
Qed.

Lemma shared_segments (h : heap) (block_list : list nat) :
  shared_weights cfg = true →
  create_stack cfg = Ok (h, block_list) →
  ∀ i count j, (i < length (stack_types cfg))%nat →
    n_blocks cfg !! i = Some count → (j < Z.to_nat count)%nat →
    ∃ ref, block_list !! (stack_offset cfg i + j)%nat = Some ref
           ∧ block_list !! stack_offset cfg i = Some ref.
Proof.
  intros Hshared Hcreate.
  cut (length (h, block_list).2 = stack_offset cfg (length (stack_types cfg))
       ∧ ∀ i count j, (i < length (stack_types cfg))%nat →
           n_blocks cfg !! i = Some count → (j < Z.to_nat count)%nat →
           ∃ ref, (h, block_list).2 !! (stack_offset cfg i + j)%nat = Some ref
                  ∧ (h, block_list).2 !! stack_offset cfg i = Some ref);
    [by intros [_ ?]|].
  revert Hcreate. unfold create_stack.
  apply (foldM_seq_invariant _
           (λ n st, length st.2 = stack_offset cfg n
                    ∧ ∀ i count j, (i < n)%nat → n_blocks cfg !! i = Some count →
                        (j < Z.to_nat count)%nat →
                        ∃ ref, st.2 !! (stack_offset cfg i + j)%nat = Some ref
                               ∧ st.2 !! stack_offset cfg i = Some ref)).
  - split; [done|]. intros; lia.
  - intros n [h1 bl1] [h2 bl2] Hn [Hlen Hprev] Hbody. simpl in *.
    bind_inv Hbody blocks Hblocks. apply index_Ok_inv in Hblocks.
    apply shared_inner_loop in Hbody as [ref ->]; [|done].
    split.
    { by rewrite length_app, length_replicate, Hlen, (stack_offset_S _ _ Hblocks). }
    intros i count j Hi Hcount Hj.
    destruct (decide (i < n)%nat) as [Hlt|Hge].
    + destruct (Hprev i count j Hlt Hcount Hj) as (r & H1 & H2).
      exists r. split; by apply lookup_app_l_Some.
    + assert (i = n) as -> by lia. rewrite Hblocks in Hcount. injection Hcount as <-.
      exists ref. rewrite <-Hlen.
      rewrite lookup_app_r, (lookup_app_r _ _ (length bl1)) by lia.
      split; apply lookup_replicate_2; lia.
Qed.

(** C9: with weight sharing enabled, every position of a stack in the
    constructed block list holds the reference held by the first
    position of that stack: one block object, the one constructed for
    the first block of the stack. *)
Theorem shared_blocks_alias_first_of_stack
    (h : heap) (block_list : list nat) (i : nat) (count : Z) (j : nat) :
  shared_weights cfg = true →
  create_stack cfg = Ok (h, block_list) →
  (i < length (stack_types cfg))%nat →
  n_blocks cfg !! i = Some count →
  (j < Z.to_nat count)%nat →
  ∃ ref block,
    block_list !! (stack_offset cfg i + j)%nat = Some ref
    ∧ block_list !! stack_offset cfg i = Some ref
    ∧ h !! ref = Some block.
Proof.
  intros Hshared Hcreate Hi Hcount Hj.
  pose proof (create_stack_well_formed cfg _ Hcreate) as (_ & Hrefs & _). simpl in Hrefs.
  destruct (shared_segments h block_list Hshared Hcreate i count j Hi Hcount Hj)
    as (ref & Hj' & H0).
  exists ref. rewrite Forall_lookup in Hrefs. specialize (Hrefs _ _ H0).
  destruct (lookup_lt_is_Some_2 h ref Hrefs) as [block Hblock]. by exists block.
Qed.
End WeightSharing.

Lemma bind_Raise_inv {A B : Type} (m : result A) (f : A → result B) (e : exn) :
  m ≫= f = Raise e → m = Raise e ∨ ∃ a, m = Ok a ∧ f a = Raise e.
Proof.
  destruct m as [a|e']; simpl; intros Hf.
  - right. by exists a.
  - left. by injection Hf as ->.
Qed.

Lemma index_Raise_inv {A : Type} (l : list A) (i : nat) (e : exn) :
  index l i = Raise e → e = IndexError.
Proof. unfold index. by destruct (l !! i); intros [= <-]. Qed.

Lemma floor_div_Raise_inv (a b : Z) (e : exn) :
  floor_div a b = Raise e → e = ZeroDivisionError.
Proof. unfold floor_div. by destruct (b =? 0); intros [= <-]. Qed.

(** Split a failed sequence: the first computation failed, or it returned
    and the rest failed. *)
Ltac raise_inv H x Hx :=
  apply bind_Raise_inv in H as [H|(x & Hx & H)]; cbn beta in H.

Section ConfigurationErrors.
Variable cfg : NHITSConfig.

Lemma construct_all_Raise_inv (layers : list layer) (e : exn) :
  construct_all layers = Raise e → e = ValueError ∨ e = RuntimeError.
Proof.
  unfold construct_all. intros H. apply mapM_result_raise in H as (l & _ & H).
  by eapply construct_Raise_inv.
Qed.

Lemma hidden_layer_step_raise (layer_mode : string) (activ : option string)
    (bn : bool) (p : Q) (st : list Z * list layer) (i : nat) (e : exn) :
  hidden_layer_step layer_mode activ bn p st i = Raise e →
  e = IndexError ∨ e = ZeroDivisionError ∨ e = ValueError ∨ e = RuntimeError.
Proof.
  destruct st as [ws hl]. unfold hidden_layer_step.
  assert (∀ l (k : layer → result (list Z * list layer)),
            (∀ l', k l' ≠ Raise e) →
            (l' ← construct l; k l') = Raise e →
            e = IndexError ∨ e = ZeroDivisionError ∨ e = ValueError
            ∨ e = RuntimeError) as Hbuilt.
  { intros l k Hk H. raise_inv H l' Hl; [|by apply Hk in H].
    apply construct_Raise_inv in H. tauto. }
  destruct (String.eqb layer_mode "conv").
  - intros H. raise_inv H w_in Hin; [left; by eapply index_Raise_inv|].
    raise_inv H w_out Hout; [left; by eapply index_Raise_inv|].
    destruct (w_out <? w_in).
    + raise_inv H q Hq; [right; left; by eapply floor_div_Raise_inv|].
      destruct (2 <=? q); (eapply Hbuilt; [|exact H]); by intros.
    + destruct (w_in <? w_out); [|done].
      raise_inv H q Hq; [right; left; by eapply floor_div_Raise_inv|].
      destruct (2 <=? q); (eapply Hbuilt; [|exact H]); by intros.
  - destruct (String.eqb layer_mode "linear"); [|done].
    intros H. raise_inv H w_in Hin; [left; by eapply index_Raise_inv|].
    raise_inv H w_out Hout; [left; by eapply index_Raise_inv|].
    (eapply Hbuilt; [|exact H]); by intros.
Qed.

Lemma build_output_layer_raise (output_layer : string) (h n_theta : Z)
    (activ : option string) (e : exn) :
  build_output_layer output_layer h n_theta activ = Raise e →
  e = ZeroDivisionError ∨ e = AttributeError ∨ e = ValueError ∨ e = RuntimeError.
Proof.
  unfold build_output_layer.
  assert (∀ layers, construct_all layers = Raise e →
            e = ZeroDivisionError ∨ e = AttributeError ∨ e = ValueError
            ∨ e = RuntimeError) as Hbuilt.
  { intros layers H. apply construct_all_Raise_inv in H. tauto. }
  destruct (String.eqb output_layer "linear"); [apply Hbuilt|].
  destruct (String.eqb output_layer "conv").
  { destruct (n_theta <? h).
    - intros H. raise_inv H q Hq; [left; by eapply floor_div_Raise_inv|].
      destruct (2 <=? q); [|by eapply Hbuilt].
      destruct (negb _); by eapply Hbuilt.
    - destruct (h <? n_theta); [|apply Hbuilt].
      intros H. raise_inv H q Hq; [left; by eapply floor_div_Raise_inv|].
      destruct (2 <=? q); [|by eapply Hbuilt].
      destruct (negb _); by eapply Hbuilt. }
  destruct (String.eqb output_layer "max"); [|intros [= <-]; tauto].
  destruct (n_theta <? h); [|apply Hbuilt].
  intros H. raise_inv H q Hq; [left; by eapply floor_div_Raise_inv|].
  destruct (2 <=? q); [|by eapply Hbuilt].
  destruct (negb _); by eapply Hbuilt.
Qed.

Lemma NHITSBlock_init_raise
    (n_time_in n_time_out n_x n_s n_s_hidden n_theta : Z)
    (n_theta_hidden : list Z) (n_pool_kernel_size n_freq_downsample : Z)
    (pooling_mode layer_mode output_layer : string) (basis : IdentityBasis)
    (n_layers : Z) (batch_normalization : bool) (dropout_prob : Q)
    (activation : string) (a : assertion) :
  NHITSBlock_init n_time_in n_time_out n_x n_s n_s_hidden n_theta n_theta_hidden
    n_pool_kernel_size n_freq_downsample pooling_mode layer_mode output_layer
    basis n_layers batch_normalization dropout_prob activation
    = Raise (AssertionError a) →
  (a = PoolingModeAssert ∧ name_in pooling_mode POOLING_MODES = false)
  ∨ (a = ActivationAssert ∧ name_in activation ACTIVATIONS = false).
Proof.
  unfold NHITSBlock_init.
  destruct (name_in pooling_mode POOLING_MODES); cbn [negb];
    [|intros [= <-]; by left].
  intros H. raise_inv H pooled Hpooled.
  { unfold n_time_in_pooled, ceil_div in H. by destruct (_ =? 0). }
  destruct (name_in activation ACTIVATIONS); cbn [negb] in H;
    [|injection H as <-; by right].
  destruct (String.eqb pooling_mode "conv"); [done|].
  raise_inv H st Hloop.
  { apply foldM_raise in H as (s' & k & _ & H).
    by apply hidden_layer_step_raise in H as [?|[?|[?|?]]]. }
  destruct st as [ws hl]. raise_inv H h Hlast; [by destruct (last ws)|].
  raise_inv H output Houtput; [|done].
  by apply build_output_layer_raise in H as [?|[?|[?|?]]].
Qed.

Lemma apply_init_weights_raise (h : heap) (ref : nat) (name : string) (a : assertion) :
  apply_init_weights h ref name = Raise (AssertionError a) →
  a = InitializationAssert ∧ name_in name INITIALIZATIONS = false.
Proof.
  unfold apply_init_weights. intros H.
  raise_inv H blk Hblock; [by apply index_Raise_inv in H|].
  raise_inv H us Hus; [|done].
  apply mapM_result_raise in H as (m & _ & H).
  destruct m; try done. simpl in H.
  destruct (name_in name INITIALIZATIONS); [done|]. by injection H as <-.
Qed.

(** Which assertion an iteration of the inner loop can fail, and why. *)
Lemma create_block_raise (i block_id : nat) (st : heap * list nat) (a : assertion) :
  create_block cfg i st block_id = Raise (AssertionError a) →
  a = InterpolationModeAssert
  ∨ (a = PoolingModeAssert ∧ name_in (pooling_mode cfg) POOLING_MODES = false)
  ∨ (a = ActivationAssert ∧ name_in (activation cfg) ACTIVATIONS = false)
  ∨ (a = InitializationAssert
     ∧ name_in (initialization cfg) INITIALIZATIONS = false)
  ∨ (a = BlockTypeAssert
     ∧ ∃ stack_type, stack_types cfg !! i = Some stack_type
                     ∧ name_in stack_type STACK_TYPES = false).
Proof.
  destruct st as [h bl]. unfold create_block. intros H.
  raise_inv H created Hcreated.
  - destruct (shared_weights cfg && bool_decide (0 < block_id)%nat).
    { by destruct (last bl). }
    raise_inv H stack_type Hst; [by apply index_Raise_inv in H|].
    apply index_Ok_inv in Hst.
    destruct (String.eqb stack_type "identity") eqn:Hid.
    + raise_inv H freq Hfreq; [by apply index_Raise_inv in H|].
      raise_inv H knots Hknots; [by apply floor_div_Raise_inv in H|].
      raise_inv H basis Hbasis.
      { unfold IdentityBasis_init in H. destruct (_ || _); [done|].
        injection H as <-. by left. }
      raise_inv H hidden Hhidden; [by apply index_Raise_inv in H|].
      raise_inv H kernel Hkernel; [by apply index_Raise_inv in H|].
      raise_inv H freq' Hfreq'; [by apply index_Raise_inv in H|].
      raise_inv H depth Hdepth; [by apply index_Raise_inv in H|].
      raise_inv H blk Hblk; [|done].
      apply NHITSBlock_init_raise in H as [[-> ?]|[-> ?]]; naive_solver.
    + injection H as <-. do 4 right. split; [done|].
      exists stack_type. split; [done|].
      unfold name_in, STACK_TYPES. simpl. by rewrite Hid.
  - destruct created as [h1 ref]. raise_inv H h2 Hinit; [|done].
    apply apply_init_weights_raise in H as [-> ?]. naive_solver.
Qed.

Lemma create_stack_raise (a : assertion) :
  create_stack cfg = Raise (AssertionError a) →
  a = InterpolationModeAssert
  ∨ (a = PoolingModeAssert ∧ name_in (pooling_mode cfg) POOLING_MODES = false)
  ∨ (a = ActivationAssert ∧ name_in (activation cfg) ACTIVATIONS = false)
  ∨ (a = InitializationAssert
     ∧ name_in (initialization cfg) INITIALIZATIONS = false)
  ∨ (a = BlockTypeAssert
     ∧ ∃ stack_type, stack_type ∈ stack_types cfg
                     ∧ name_in stack_type STACK_TYPES = false).
Proof.
  unfold create_stack. intros H.
  apply foldM_raise in H as (st & i & _ & H).
  raise_inv H blocks Hblocks; [by apply index_Raise_inv in H|].
  apply foldM_raise in H as (st' & block_id & _ & H).
  destruct (create_block_raise _ _ _ _ H) as [Ha|[Ha|[Ha|[Ha|[-> (t & Ht & Hname)]]]]];
    [tauto..|].
  do 4 right. split; [done|]. exists t. split; [|done].
  by eapply list_elem_of_lookup_2.
Qed.
End ConfigurationErrors.

Section NameChecks.
Variable cfg : NHITSConfig.




End NameChecks.

Section PoolingFacts.
Context {R : Type} `{Scalar R}.

Lemma strided_window_count (len k : Z) :
  0 < k → (len - k) / k + 1 = len / k.
Proof.
  intros Hk. replace (len - k) with (len + (-1) * k) by lia.
  rewrite Z.div_add by lia. lia.
Qed.

Lemma unfold_windows_length (size step : Z) (row : list R) :
  0 ≤ size → 0 < step → size ≤ Z.of_nat (length row) →
  ∃ windows, unfold_windows size step row = Ok windows
             ∧ length windows
               = Z.to_nat ((Z.of_nat (length row) - size) / step + 1).
Proof.
  intros Hsize Hstep Hlen. unfold unfold_windows.
  rewrite (proj2 (Z.ltb_ge size 0)), (proj2 (Z.leb_gt step 0)) by lia.
  rewrite (proj2 (Z.ltb_ge (Z.of_nat (length row)) size)) by lia. simpl.
  eexists. split; [done|]. by rewrite length_map, length_seq.
Qed.

(** Max pooling with stride = kernel keeps floor(L / k) positions. *)
Lemma MaxPool1d_line_length (kernel_size : Z) (row : list R) :
  0 < kernel_size → kernel_size ≤ Z.of_nat (length row) →
  ∃ pooled, MaxPool1d_line kernel_size kernel_size row = Ok pooled
            ∧ Z.of_nat (length pooled) = Z.of_nat (length row) / kernel_size.
Proof.
  intros Hk Hlen. unfold MaxPool1d_line.
  rewrite (proj2 (Z.leb_gt kernel_size 0)) by lia.
  destruct (unfold_windows_length kernel_size kernel_size row) as (ws & -> & Hws);
    [lia..|].
  cbn [mbind result_bind]. eexists. split; [done|].
  rewrite length_map, Hws, strided_window_count by done.
  apply Z2Nat.id, Z.div_pos; lia.
Qed.

(** The derived width is the ceiling: it is the pooled length exactly
    when the kernel divides the input length. *)
Lemma n_time_in_pooled_is_floor_iff (n_time_in kernel_size : Z) :
  0 < kernel_size →
  n_time_in_pooled n_time_in kernel_size = Ok (n_time_in / kernel_size)
  ↔ n_time_in mod kernel_size = 0.
Proof.
  intros Hk. unfold n_time_in_pooled, ceil_div.
  rewrite (proj2 (Z.eqb_neq kernel_size 0)) by lia.
  pose proof (Z.div_mod n_time_in kernel_size ltac:(lia)).
  pose proof (Z.mod_pos_bound n_time_in kernel_size Hk).
  pose proof (Z.div_mod (- n_time_in) kernel_size ltac:(lia)).
  pose proof (Z.mod_pos_bound (- n_time_in) kernel_size Hk).
  split.
  - intros [= E]. nia.
  - intros E. f_equal. nia.
Qed.
End PoolingFacts.

Section StochasticPoolFacts.
Context {R : Type} `{Scalar R}.


Lemma view_shape (rows cols : nat) (flat : list R) (x : Tensor2 R) :
  view rows cols flat = Ok x → has_shape rows cols x.
Proof.
  unfold view. case_bool_decide as Hlen; [|done]. intros [= <-].
  split; [by rewrite length_map, length_seq|].
  apply Forall_forall. intros row Hrow.
  apply list_elem_of_fmap in Hrow as (b & -> & Hb).
  apply elem_of_seq in Hb. rewrite length_take, length_drop. nia.
Qed.

End StochasticPoolFacts.

Section StochasticPoolReads.
Context {R : Type} `{Scalar R}.




End StochasticPoolReads.

(** C4: for an input of length 5 and kernel size 2 the max and the
    stochastic pooling layers return 2 = floor(5/2) positions, while the
    block derives n_time_in_pooled = 3 = ceil(5/2) for its first layer. *)
Theorem pooled_length_is_floor_but_derived_width_is_ceil :
  MaxPool1d 2 2 [[1; 2; 3; 4; 5]] = Ok [[2; 4]]
  ∧ StochasticPool1D_forward 2 2 [[1; 2; 3; 4; 5]] [0; 0]%nat = Ok [[1; 1]]
  ∧ n_time_in_pooled 5 2 = Ok 3.
Proof. by vm_compute. Qed.

(** C8: on two batch elements of two windows each, with offsets 1, 1, 0, 0
    drawn for the four output positions, the forward pass returns elements
    of the first window of the first batch element only, where selection
    by window gives one element of each window. *)
Theorem stochastic_pool_reads_first_window_only :
  StochasticPool1D_forward 2 2 [[10; 20; 30; 40]; [50; 60; 70; 80]] [1; 1; 0; 0]%nat
    = Ok [[20; 20]; [10; 10]]
  ∧ stochastic_pool_by_window 2 [[10; 20; 30; 40]; [50; 60; 70; 80]] [1; 1; 0; 0]%nat
    = [[20; 40]; [50; 70]].
Proof. by vm_compute. Qed.

(** * Further properties of the module *)

Section WindowFacts.
Context {R : Type} `{Scalar R}.

Lemma slice_to_from_app {A : Type} (n : Z) (l : list A) :
  slice_to n l ++ slice_from n l = l.
Proof. unfold slice_to, slice_from. apply take_drop. Qed.

Lemma slice_index_horizon (len : nat) (h : Z) :
  0 < h ≤ Z.of_nat len → slice_index len (- h) = (len - Z.to_nat h)%nat.
Proof.
  intros Hh. unfold slice_index. rewrite (proj2 (Z.ltb_lt (- h) 0)) by lia. lia.
Qed.

Lemma slice_index_degenerate (len : nat) (h : Z) :
  h = 0 ∨ Z.of_nat len ≤ h → slice_index len (- h) = 0%nat.
Proof.
  intros [-> | Hh]; [done|]. unfold slice_index.
  destruct (- h <? 0) eqn:E; [lia|]. apply Z.ltb_ge in E. lia.
Qed.

Lemma NHITS_forward_outsample (n_time_out : Z) (blocks : list (Block R))
    (static Y : Tensor2 R) (X : Tensor3 R) (insample_mask outsample_mask : Tensor2 R)
    (flag : bool) outsample_y aggregate block_forecasts mask :
  NHITS_forward n_time_out blocks static Y X insample_mask outsample_mask flag
    = Ok (outsample_y, aggregate, block_forecasts, mask) →
  outsample_y = outsample_window n_time_out Y
  ∧ mask = outsample_window n_time_out outsample_mask.
Proof.
  unfold NHITS_forward. destruct flag.
  - destruct (forecast_decomposition _ _ _ _ _ _) as [[f bf]|e]; [|done].
    by intros [= <- _ _ <-].
  - destruct (forecast _ _ _ _ _ _) as [f|e]; [|done].
    by intros [= <- _ _ <-].
Qed.

Lemma window_shapes (n_time_out : Z) (B T : nat) (y : Tensor2 R) :
  0 < n_time_out ≤ Z.of_nat T → has_shape B T y →
  has_shape B (T - Z.to_nat n_time_out) (insample_window n_time_out y)
  ∧ has_shape B (Z.to_nat n_time_out) (outsample_window n_time_out y).
Proof.
  intros Hh [HB HT]. unfold insample_window, outsample_window, has_shape.
  rewrite !length_map, !Forall_fmap. repeat split; try done.
  - eapply Forall_impl; [exact HT|]. intros row Hrow. simpl.
    unfold slice_to. rewrite length_take, Hrow, slice_index_horizon by done. lia.
  - eapply Forall_impl; [exact HT|]. intros row Hrow. simpl.
    unfold slice_from. rewrite length_drop, Hrow, slice_index_horizon by done. lia.
Qed.

(** X1: for a horizon 0 < n_time_out <= T the forward pass splits every
    series of length T into an insample window of length T - n_time_out
    and the returned outsample window of length n_time_out, which
    together are the series; the returned mask is cut the same way. *)
Theorem forward_splits_series_at_horizon
    (n_time_out : Z) (blocks : list (Block R)) (B T : nat)
    (static Y : Tensor2 R) (X : Tensor3 R) (insample_mask outsample_mask : Tensor2 R)
    (flag : bool) outsample_y aggregate block_forecasts mask :
  0 < n_time_out ≤ Z.of_nat T →
  has_shape B T Y → has_shape B T outsample_mask →
  NHITS_forward n_time_out blocks static Y X insample_mask outsample_mask flag
    = Ok (outsample_y, aggregate, block_forecasts, mask) →
  has_shape B (T - Z.to_nat n_time_out) (insample_window n_time_out Y)
  ∧ has_shape B (Z.to_nat n_time_out) outsample_y
  ∧ has_shape B (Z.to_nat n_time_out) mask
  ∧ zip_with app (insample_window n_time_out Y) outsample_y = Y.
Proof.
  intros Hh HY Hmask Hf.
  apply NHITS_forward_outsample in Hf as [-> ->].
  destruct (window_shapes n_time_out B T Y Hh HY) as [Hin Hout].
  destruct (window_shapes n_time_out B T outsample_mask Hh Hmask) as [_ Hout'].
  split; [done|]. split; [done|]. split; [done|].
  unfold insample_window, outsample_window.
  clear. induction Y as [|row Y IH]; [done|]. simpl.
  by rewrite slice_to_from_app, IH.
Qed.

(** X2: with n_time_out = 0, or with a horizon at least as long as the
    series, the insample window the forward pass forecasts from is empty
    and the returned outsample window is the whole series (shorter than
    the horizon when the horizon is longer). *)
Theorem forward_degenerate_horizon
    (n_time_out : Z) (blocks : list (Block R)) (B T : nat)
    (static Y : Tensor2 R) (X : Tensor3 R) (insample_mask outsample_mask : Tensor2 R)
    (flag : bool) outsample_y aggregate block_forecasts mask :
  n_time_out = 0 ∨ Z.of_nat T ≤ n_time_out →
  has_shape B T Y →
  NHITS_forward n_time_out blocks static Y X insample_mask outsample_mask flag
    = Ok (outsample_y, aggregate, block_forecasts, mask) →
  insample_window n_time_out Y = replicate B [] ∧ outsample_y = Y.
Proof.
  intros Hh [HB HT] Hf.
  apply NHITS_forward_outsample in Hf as [-> _].
  unfold insample_window, outsample_window. subst B. split.
  - induction HT as [|row Y Hrow _ IH]; [done|]. simpl. rewrite IH. f_equal.
    unfold slice_to. by rewrite Hrow, slice_index_degenerate.
  - induction HT as [|row Y Hrow _ IH]; [done|]. simpl. rewrite IH. f_equal.
    unfold slice_from. by rewrite Hrow, slice_index_degenerate.
Qed.
End WindowFacts.

Section ForwardFacts.
Context {R : Type} `{Scalar R}.

Lemma decomposition_returns_forecast (blocks : list (Block R))
    (y : Tensor2 R) (x : Tensor3 R) (m : Tensor2 R) (ox : Tensor3 R) (xs : Tensor2 R)
    (aggregate : Tensor2 R) (block_forecasts : Tensor3 R) :
  forecast_decomposition blocks y x m ox xs = Ok (aggregate, block_forecasts) →
  forecast blocks y x m ox xs = Ok aggregate.
Proof.
  unfold forecast_decomposition, forecast.
  destruct (foldM (decomposition_body _ _ _ _) _ _) as [[[r' f'] acc']|e] eqn:Hloop;
    cbn [mbind result_bind]; [|done].
  apply decomposition_fold in Hloop as (-> & _). cbn [mbind result_bind].
  destruct (stack acc') as [t|e]; cbn [mbind result_bind]; [|done].
  by intros [= <- _].
Qed.

(** X3: with the blocks evaluated deterministically (the same weights
    and, where a block draws at random, the same draws in both passes),
    asking the forward pass for the decomposition changes nothing else:
    whenever it returns with return_decomposition set, it returns the
    same outsample window, forecast and mask without it. *)
Theorem forward_decomposition_flag_is_transparent
    (n_time_out : Z) (blocks : list (Block R))
    (static Y : Tensor2 R) (X : Tensor3 R) (insample_mask outsample_mask : Tensor2 R)
    outsample_y aggregate block_forecasts mask :
  NHITS_forward n_time_out blocks static Y X insample_mask outsample_mask true
    = Ok (outsample_y, aggregate, block_forecasts, mask) →
  NHITS_forward n_time_out blocks static Y X insample_mask outsample_mask false
    = Ok (outsample_y, aggregate, None, mask)
  ∧ is_Some block_forecasts.
Proof.
  unfold NHITS_forward.
  destruct (forecast_decomposition _ _ _ _ _ _) as [[f bf]|e] eqn:Hd; [|done].
  cbn [mbind result_bind]. intros [= <- <- <- <-].
  by rewrite (decomposition_returns_forecast _ _ _ _ _ _ _ _ Hd).
Qed.


(** X4: once a block has run, the residual of the forecast loop is a
    zero at every position where the time-reversed availability mask is
    a zero and the difference residual - backcast of that block is
    finite (the difference having the shape of the mask): such an
    unavailable observation never reaches a later block.  Stated for
    any scalars on which a finite value times a zero is a zero, as on
    single-precision numbers, where the zero may be of either sign; a
    difference that is infinite or not a number is not removed by the
    mask. *)
Theorem unavailable_positions_stay_zero
    (finite zero : R → Prop)
    (front : list (Block R)) (block : Block R)
    (insample_x_t outsample_x_t : Tensor3 R)
    (x_s insample_mask : Tensor2 R) (start : Tensor2 R * Tensor2 R)
    (residual running backcast contribution difference : Tensor2 R)
    (residuals aggregate : Tensor2 R) :
  (∀ a z, finite a → zero z → zero (s_mul a z)) →
  foldM (forecast_body (flip3 insample_x_t) outsample_x_t x_s (flip2 insample_mask))
        front start = Ok (residual, running) →
  block residual (flip3 insample_x_t) outsample_x_t x_s = Ok (backcast, contribution) →
  t_sub residual backcast = Ok difference →
  dims difference = dims (flip2 insample_mask) →
  foldM (forecast_body (flip3 insample_x_t) outsample_x_t x_s (flip2 insample_mask))
        (front ++ [block]) start = Ok (residuals, aggregate) →
  ∀ b j drow a mrow z,
    difference !! b = Some drow → drow !! j = Some a → finite a →
    flip2 insample_mask !! b = Some mrow → mrow !! j = Some z → zero z →
    ∃ row v, residuals !! b = Some row ∧ row !! j = Some v ∧ zero v.
Proof.
  intros Hlaw Hfront Hblock Hsub Hdims Hloop b j drow a mrow z Hd Ha Hfin Hm Hz Hzero.
  rewrite foldM_app, Hfront in Hloop. cbn [mbind result_bind foldM] in Hloop.
  bind_inv Hloop st Hbody. injection Hloop as ->.
  unfold forecast_body in Hbody. rewrite Hblock in Hbody.
  cbn [mbind result_bind] in Hbody. rewrite Hsub in Hbody.
  cbn [mbind result_bind] in Hbody.
  bind_inv Hbody r' Hmul. bind_inv Hbody f' Hadd. injection Hbody as <- <-.
  unfold t_mul in Hmul. rewrite broadcast2_same_dims in Hmul by done.
  injection Hmul as <-.
  exists (zip_with s_mul drow mrow), (s_mul a z).
  split; [by rewrite lookup_zip_with, Hd, Hm|].
  split; [by rewrite lookup_zip_with, Ha, Hz|]. by apply Hlaw.
Qed.
End ForwardFacts.

(** On single-precision numbers a finite value times a zero is a zero. *)
Lemma float32_mul_zero (a z : float32) :
  float32_finite a → float32_zero z → float32_zero (SFmul 24 128 a z).
Proof. by destruct a, z. Qed.

Section ForecastShapes.
Context {R : Type} `{Scalar R}.

Lemma has_shape_dims (B T : nat) (x : Tensor2 R) :
  has_shape B T x ↔ dims x = replicate B T.
Proof.
  unfold has_shape, dims. split.
  - intros [<- Hrows]. induction Hrows as [|row x Hrow _ IH]; simpl; [done|].
    by rewrite Hrow, IH.
  - revert B. induction x as [|row x IH]; intros [|B] E; try done.
    injection E as Hrow E. destruct (IH _ E) as [Hlen Hrows].
    split; [simpl; by rewrite Hlen|by constructor].
Qed.

Lemma has_shape_flip2 (B T : nat) (x : Tensor2 R) :
  has_shape B T x → has_shape B T (flip2 x).
Proof.
  intros [Hlen Hrows]. unfold flip2. split; [by rewrite length_map|].
  apply Forall_forall. intros row Hrow.
  apply list_elem_of_fmap in Hrow as (r & -> & Hr).
  rewrite Forall_forall in Hrows. rewrite length_rev. by apply Hrows.
Qed.

Lemma has_shape_last_column (B T : nat) (x : Tensor2 R) :
  (0 < T)%nat → has_shape B T x → has_shape B 1 (last_column x).
Proof.
  intros HT [Hlen Hrows]. unfold last_column. split; [by rewrite length_map|].
  apply Forall_forall. intros row Hrow.
  apply list_elem_of_fmap in Hrow as (r & -> & Hr).
  rewrite Forall_forall in Hrows. rewrite length_drop, (Hrows r Hr). lia.
Qed.

Lemma has_shape_repeat_columns (B n : nat) (x : Tensor2 R) :
  has_shape B 1 x → has_shape B n (repeat_columns x n).
Proof.
  intros [Hlen Hrows]. unfold repeat_columns. split; [by rewrite length_map|].
  apply Forall_forall. intros row Hrow.
  apply list_elem_of_fmap in Hrow as (r & -> & Hr).
  rewrite Forall_forall in Hrows. rewrite length_concat_replicate, (Hrows r Hr). lia.
Qed.

Lemma decomposition_loop_shapes (B T horizon : nat) (x' ox : Tensor3 R)
    (xs m' : Tensor2 R) (blocks : list (Block R)) (r f : Tensor2 R)
    (acc : list (Tensor2 R)) :
  Forall (conforming B T horizon x' ox xs) blocks →
  has_shape B T m' → has_shape B T r →
  has_shape B 1 f ∨ has_shape B horizon f →
  ∃ r' f' cs,
    foldM (decomposition_body x' ox xs m') blocks (r, f, acc) = Ok (r', f', acc ++ cs)
    ∧ has_shape B T r'
    ∧ (blocks ≠ [] → has_shape B horizon f')
    ∧ Forall (has_shape B horizon) cs
    ∧ length cs = length blocks.
Proof.
  intros Hblocks Hm. revert r f acc.
  induction Hblocks as [|block blocks Hblock _ IH]; intros r f acc Hr Hf.
  - exists r, f, []. rewrite app_nil_r.
    split; [done|]. split; [done|]. split; [by intros Hn; destruct Hn|].
    split; [by constructor|done].
  - destruct (Hblock r Hr) as (bc & bf & Hrun & Hbc & Hbf).
    simpl. rewrite Hrun. simpl.
    apply has_shape_dims in Hr as Dr. apply has_shape_dims in Hbc as Dbc.
    apply has_shape_dims in Hm as Dm. apply has_shape_dims in Hbf as Dbf.
    pose proof (residual_update_elementwise r bc m'
                  ltac:(congruence) ltac:(congruence)) as Hupdate.
    destruct (t_sub r bc) as [d|e]; [|done]. cbn [mbind result_bind] in *.
    rewrite Hupdate. cbn [mbind result_bind].
    assert (∃ f1, t_add f bf = Ok f1 ∧ has_shape B horizon f1) as (f1 & -> & Hf1).
    { destruct Hf as [Hf|Hf].
      - exists (zip_with (zip_with s_add) (repeat_columns f horizon) bf).
        pose proof (has_shape_repeat_columns B horizon f Hf) as Hrep.
        apply has_shape_dims in Hrep as Drep.
        split.
        + apply t_add_level; [|congruence].
          destruct Hf as [_ Hrows]. eapply Forall_impl; [exact Hrows|]. simpl. lia.
        + apply has_shape_dims. rewrite dims_zip_with by congruence. done.
      - apply has_shape_dims in Hf as Df.
        exists (zip_with (zip_with s_add) f bf). split.
        + apply t_add_same_dims. congruence.
        + apply has_shape_dims. rewrite dims_zip_with by congruence. done. }
    cbn [mbind result_bind].
    destruct (IH (zip_with (zip_with s_mul) (zip_with (zip_with s_sub) r bc) m') f1
                 (acc ++ [bf])) as (r' & f' & cs & Hloop & Hr' & Hf' & Hcs & Hlen).
    { apply has_shape_dims.
      rewrite dims_zip_with by (rewrite dims_zip_with; congruence).
      rewrite dims_zip_with by congruence. done. }
    { by right. }
    exists r', f', (bf :: cs). rewrite Hloop, <-app_assoc. simpl.
    split; [done|]. split; [done|]. split.
    + intros _. destruct blocks as [|b0 blocks0]; [|by apply Hf'].
      cbn [foldM] in Hloop. by injection Hloop as <- <- _.
    + split; [by constructor|by rewrite Hlen].
Qed.

Lemma forecast_returns_shape (B T horizon : nat) (blocks : list (Block R))
    (insample_y : Tensor2 R) (insample_x_t : Tensor3 R) (insample_mask : Tensor2 R)
    (outsample_x_t : Tensor3 R) (x_s : Tensor2 R) :
  (0 < T)%nat → blocks ≠ [] →
  has_shape B T insample_y → has_shape B T insample_mask →
  Forall (conforming B T horizon (flip3 insample_x_t) outsample_x_t x_s) blocks →
  ∃ aggregate,
    forecast blocks insample_y insample_x_t insample_mask outsample_x_t x_s
      = Ok aggregate
    ∧ has_shape B horizon aggregate.
Proof.
  intros HT Hne Hy Hm Hblocks.
  pose proof (has_shape_flip2 _ _ _ Hy) as Hr.
  pose proof (has_shape_flip2 _ _ _ Hm) as Hm'.
  pose proof (has_shape_last_column _ _ _ HT Hy) as Hlevel.
  destruct (decomposition_loop_shapes B T horizon _ _ _ _ blocks _ _ []
              Hblocks Hm' Hr (or_introl Hlevel))
    as (r' & f' & cs & Hloop & _ & Hf' & _).
  apply decomposition_fold in Hloop as [Hloop _].
  exists f'. unfold forecast. rewrite Hloop. split; [done|]. by apply Hf'.
Qed.

(** X5: with blocks that keep the shape (B, T) of the residual and
    return forecasts of shape (B, H), a non-empty window and a mask of
    the window's shape, both passes return, the forecast has shape
    (B, H), and when the future exogenous tensor spans the horizon the
    decomposition has one entry per block and one for the level. *)
Theorem forecast_on_conforming_blocks
    (B T horizon : nat) (blocks : list (Block R))
    (insample_y : Tensor2 R) (insample_x_t : Tensor3 R) (insample_mask : Tensor2 R)
    (outsample_x_t : Tensor3 R) (x_s : Tensor2 R) :
  (0 < B)%nat → (0 < T)%nat → blocks ≠ [] →
  has_shape B T insample_y → has_shape B T insample_mask →
  Forall (conforming B T horizon (flip3 insample_x_t) outsample_x_t x_s) blocks →
  (∃ aggregate,
     forecast blocks insample_y insample_x_t insample_mask outsample_x_t x_s
       = Ok aggregate
     ∧ has_shape B horizon aggregate)
  ∧ (size2 outsample_x_t = horizon →
     ∃ aggregate block_forecasts,
       forecast_decomposition blocks insample_y insample_x_t insample_mask
                              outsample_x_t x_s = Ok (aggregate, block_forecasts)
       ∧ size0 block_forecasts = B
       ∧ size1 block_forecasts = S (length blocks)
       ∧ size2 block_forecasts = horizon).
Proof.
  intros HB HT Hne Hy Hm Hblocks.
  pose proof (has_shape_flip2 _ _ _ Hy) as Hr.
  pose proof (has_shape_flip2 _ _ _ Hm) as Hm'.
  pose proof (has_shape_last_column _ _ _ HT Hy) as Hlevel.
  split; [by apply (forecast_returns_shape B T)|].
  intros Hspan.
  set (rep := repeat_columns (last_column insample_y) (size2 outsample_x_t)).
  destruct (decomposition_loop_shapes B T horizon _ _ _ _ blocks _ _ [rep]
              Hblocks Hm' Hr (or_introl Hlevel))
    as (r' & f' & cs & Hloop & _ & _ & Hcs & Hlen).
  unfold forecast_decomposition. fold rep. rewrite Hloop. cbn [mbind result_bind].
  pose proof (has_shape_repeat_columns B (size2 outsample_x_t) _ Hlevel) as Hrep.
  fold rep in Hrep. rewrite Hspan in Hrep.
  assert (stack ([rep] ++ cs)
          = Ok (mkTensor3 (length ([rep] ++ cs)) (length rep)
                  (length (default [] (head rep))) ([rep] ++ cs))) as ->.
  { unfold stack. simpl.
    rewrite bool_decide_eq_true_2 by done. simpl.
    assert (forallb (λ y, bool_decide (dims y = dims rep)) cs = true) as ->; [|done].
    apply forallb_forall. intros c Hc. apply bool_decide_eq_true.
    apply list_elem_of_In in Hc. rewrite Forall_forall in Hcs.
    apply has_shape_dims in Hrep as ->. apply has_shape_dims. by apply Hcs. }
  cbn [mbind result_bind]. eexists _, _. split; [done|]. simpl.
  destruct Hrep as [Hlen_rep Hrows]. split; [done|]. split; [by rewrite Hlen|].
  destruct rep as [|row rep']; [simpl in Hlen_rep; lia|].
  simpl. by inversion Hrows.
Qed.
End ForecastShapes.

Section CubicModeNames.
Context {R : Type} `{Scalar R} `{Interpolation R}.

(** X6: every interpolation mode that contains 'cubic' passes the
    assertion of the constructor, but the forward pass of the basis
    then needs what follows the last '-' of the mode to be an integer
    literal as int() reads it (blanks around it, a sign and underscores
    between digits allowed): without one it raises ValueError on every
    input, and with a literal of value 0 (and a forecast size that is
    not negative) ZeroDivisionError.  The mode is a string of
    characters below code point 256, taken of at most 4300 characters,
    so that no limit on the digits of a literal is met. *)
Theorem cubic_mode_needs_a_sub_batch_size
    (backcast_size forecast_size : Z) (mode : string) :
  contains "cubic" mode = true →
  (String.length mode ≤ 4300)%nat →
  ∃ self,
    IdentityBasis_init backcast_size forecast_size mode = Ok self
    ∧ (py_int (last_field "-" mode) = Raise ValueError →
       ∀ theta : Tensor2 R, IdentityBasis_forward self theta = Raise ValueError)
    ∧ (py_int (last_field "-" mode) = Ok 0 → 0 ≤ forecast_size →
       ∀ theta : Tensor2 R, IdentityBasis_forward self theta = Raise ZeroDivisionError).
Proof.
  intros Hcubic _. eexists. split.
  { unfold IdentityBasis_init. rewrite Hcubic. by rewrite orb_true_r. }
  destruct (cubic_is_not_nearest_or_linear _ Hcubic) as [Hn Hl].
  split.
  - intros Hint theta. unfold IdentityBasis_forward. simpl.
    by rewrite Hn, Hl, Hcubic, Hint.
  - intros Hint Hsize theta. unfold IdentityBasis_forward. simpl.
    rewrite Hn, Hl, Hcubic, Hint. cbn [mbind result_bind].
    unfold cubic_forecast, zeros.
    rewrite (proj2 (Z.ltb_ge forecast_size 0)) by done.
    cbn [mbind result_bind]. unfold ceil_div. done.
Qed.
End CubicModeNames.

Section StochasticPoolGeneral.
Context {R : Type} `{Scalar R}.

End StochasticPoolGeneral.


Section StackConstruction.
Variable cfg : NHITSConfig.

(** X8: a construction that yields a block has one of the pooling modes
    'max', 'stochastic', 'none' and one of the output layers 'linear',
    'conv', 'max': the pooling mode 'conv' passes the assertion of the
    block constructor, but no block is ever constructed with it. *)
Theorem constructed_blocks_have_usable_modes (h : heap) (block_list : list nat) :
  create_stack cfg = Ok (h, block_list) →
  h ≠ [] →
  name_in (pooling_mode cfg) ["max"; "stochastic"; "none"]%string = true
  ∧ name_in (output_layer cfg) ["linear"; "conv"; "max"]%string = true.
Proof.
  intros Hcreate.
  apply (create_stack_ind cfg
           (λ st, st.1 ≠ [] →
              name_in (pooling_mode cfg) ["max"; "stochastic"; "none"]%string = true
              ∧ name_in (output_layer cfg) ["linear"; "conv"; "max"]%string = true))
    with (st := (h, block_list)); [done| |done].
  intros i block_id [h1 bl1] [h2 bl2] Hprev Hstep. simpl in *.
  apply create_block_Ok_inv in Hstep
    as [(ref & blk & _ & _ & _ & Href & -> & _)
       |(freq & hidden & kernel & depth & basis & blk & _ & _ & _ & _ & _ & _ & _ & _
         & Hinit & _)].
  - intros _. apply Hprev. intros ->. done.
  - intros _.
    apply NHITSBlock_init_Ok_inv in Hinit
      as (Hpool & _ & pooled & ws & hl & w & out & _ & _ & _ & Hout & _).
    split; [done|]. by eapply usable_output_layer.
Qed.
End StackConstruction.

Section LayerModes.
Variables (activ : option string) (bn : bool) (p : Q).

Lemma unknown_layer_mode_loop (layer_mode : string) (l : list nat)
    (st : list Z * list layer) :
  layer_mode ≠ "conv"%string → layer_mode ≠ "linear"%string →
  foldM (hidden_layer_step layer_mode activ bn p) l st = Ok st.
Proof.
  intros Hc Hl. induction l as [|i l IH]; [done|]. cbn [foldM].
  assert (hidden_layer_step layer_mode activ bn p st i = Ok st) as ->; [|done].
  destruct st as [ws hl]. unfold hidden_layer_step.
  by rewrite (proj2 (String.eqb_neq _ _) Hc), (proj2 (String.eqb_neq _ _) Hl).
Qed.

(** An iteration that returns has found both widths and keeps the
    number of widths. *)
Lemma hidden_layer_step_inv (layer_mode : string) (ws ws' : list Z)
    (hl hl' : list layer) (i : nat) :
  layer_mode = "conv"%string ∨ layer_mode = "linear"%string →
  hidden_layer_step layer_mode activ bn p (ws, hl) i = Ok (ws', hl') →
  (S i < length ws)%nat ∧ length ws' = length ws.
Proof.
  intros Hmode Hstep.
  assert (∃ w_in w_out rest,
            index ws i = Ok w_in ∧ index ws (S i) = Ok w_out
            ∧ (rest = Ok (ws', hl'))
            ∧ (rest = Ok (ws', hl') → length ws' = length ws))
    as (w_in & w_out & rest & Hin & Hout & Hrest & Hlen).
  { unfold hidden_layer_step in Hstep.
    destruct Hmode as [-> | ->]; simpl in Hstep.
    - bind_inv Hstep w_in Hin. bind_inv Hstep w_out Hout.
      exists w_in, w_out, (Ok (ws', hl')). repeat split; try done. intros _.
      destruct (w_out <? w_in).
      + bind_inv Hstep q Hq.
        destruct (2 <=? q); bind_inv Hstep enc Henc; injection Hstep as <- _;
          by rewrite ?length_insert.
      + destruct (w_in <? w_out); [|by injection Hstep as <- _].
        bind_inv Hstep q Hq.
        destruct (2 <=? q); bind_inv Hstep enc Henc; injection Hstep as <- _;
          by rewrite ?length_insert.
    - bind_inv Hstep w_in Hin. bind_inv Hstep w_out Hout.
      exists w_in, w_out, (Ok (ws', hl')). repeat split; try done. intros _.
      bind_inv Hstep enc Henc. by injection Hstep as <- _. }
  split; [|by apply Hlen].
  apply index_Ok_inv in Hout. by eapply lookup_lt_Some.
Qed.

Lemma hidden_layers_loop_bound (layer_mode : string) (ws ws' : list Z)
    (hl' : list layer) (n : nat) :
  layer_mode = "conv"%string ∨ layer_mode = "linear"%string →
  foldM (hidden_layer_step layer_mode activ bn p) (seq 0 n) (ws, []) = Ok (ws', hl') →
  length ws' = length ws ∧ (n = 0%nat ∨ n < length ws)%nat.
Proof.
  intros Hmode Hloop.
  apply (foldM_seq_invariant (hidden_layer_step layer_mode activ bn p)
           (λ k st, length st.1 = length ws ∧ (k = 0%nat ∨ k < length ws)%nat)
           n (ws, []) (ws', hl')); [by split; [|left]| |done].
  intros k [ws1 hl1] [ws2 hl2] _ [Hlen _] Hstep. simpl in *.
  apply hidden_layer_step_inv in Hstep as [Hk Hlen']; [|done]. lia.
Qed.

(** In linear mode the loop leaves the widths alone and builds one
    layer per iteration. *)
Lemma linear_layers_loop (ws ws' : list Z) (hl : list layer) (n : nat) :
  foldM (hidden_layer_step "linear" activ bn p) (seq 0 n) (ws, []) = Ok (ws', hl) →
  ws' = ws ∧ hl = linear_layers ws activ bn p n.
Proof.
  revert ws' hl. induction n as [|n IH]; intros ws' hl Hloop.
  - by injection Hloop as <- <-.
  - rewrite seq_S, foldM_app in Hloop. bind_inv Hloop st Hst.
    destruct st as [ws1 hl1]. apply IH in Hst as [-> ->].
    cbn [foldM plus] in Hloop. bind_inv Hloop st Hst. injection Hloop as ->.
    unfold hidden_layer_step in Hst. simpl String.eqb in Hst. cbv iota in Hst.
    bind_inv Hst w_in Hin. bind_inv Hst w_out Hout. bind_inv Hst enc Henc.
    apply construct_Ok_inv in Henc as ->. injection Hst as <- <-.
    apply index_Ok_inv in Hin, Hout. split; [done|].
    unfold linear_layers. rewrite seq_S, map_app. simpl. by rewrite Hin, Hout.
Qed.

(** On sizes and a dropout probability that torch's layers accept the
    loop of linear mode returns as long as it finds its widths. *)
Lemma linear_layers_loop_ok (ws : list Z) (n : nat) :
  (p <= 1)%Q → Forall (λ w, 0 ≤ w) ws → (n < length ws)%nat →
  foldM (hidden_layer_step "linear" activ bn p) (seq 0 n) (ws, [])
    = Ok (ws, linear_layers ws activ bn p n).
Proof.
  intros Hp Hws. induction n as [|n IH]; intros Hn; [done|].
  rewrite seq_S, foldM_app, IH by lia. cbn [mbind result_bind foldM plus].
  destruct (lookup_lt_is_Some_2 ws n ltac:(lia)) as [w_in Hin].
  destruct (lookup_lt_is_Some_2 ws (S n) ltac:(lia)) as [w_out Hout].
  unfold hidden_layer_step, index. simpl String.eqb. cbv iota.
  rewrite Hin, Hout. cbn [mbind result_bind].
  rewrite construct_linear;
    [|done|by eapply (Forall_lookup_1 _ ws)..].
  cbn [mbind result_bind].
  unfold linear_layers. rewrite seq_S, map_app. simpl. by rewrite Hin, Hout.
Qed.

Lemma linear_layers_width (ws : list Z) (n : nat) (w0 : Z) :
  ws !! 0%nat = Some w0 →
  layers_forward_width (linear_layers ws activ bn p n) w0
    = Ok (default 0 (ws !! n)).
Proof.
  intros H0. induction n as [|n IH]; [simpl; by rewrite H0|].
  unfold linear_layers in *. rewrite seq_S, map_app, layers_forward_width_app, IH.
  cbn [mbind result_bind]. simpl.
  rewrite layers_forward_width_cons. simpl. by rewrite Z.eqb_refl.
Qed.
End LayerModes.

Section LayerModeTheorems.
Variables (n_time_in n_time_out n_x n_s n_s_hidden n_theta : Z).
Variables (n_theta_hidden : list Z) (n_pool_kernel_size n_freq_downsample : Z).
Variables (pooling_mode layer_mode output_layer : string) (basis : IdentityBasis).
Variables (batch_normalization : bool) (dropout_prob : Q) (activation : string).

(** X9: a layer mode other than 'conv' and 'linear' is not rejected: the
    constructed block has no hidden layer at all, its network is the
    output layer alone, built on the last configured width, and the
    number of layers asked for plays no part. *)
Theorem unknown_layer_mode_builds_no_hidden_layer (n_layers : Z) (block : NHITSBlock) :
  layer_mode ≠ "conv"%string → layer_mode ≠ "linear"%string →
  NHITSBlock_init n_time_in n_time_out n_x n_s n_s_hidden n_theta n_theta_hidden
    n_pool_kernel_size n_freq_downsample pooling_mode layer_mode output_layer
    basis n_layers batch_normalization dropout_prob activation = Ok block →
  tail (b_n_theta_hidden block) = n_theta_hidden
  ∧ (∃ h, last (b_n_theta_hidden block) = Some h
          ∧ build_output_layer output_layer h n_theta (Some activation)
            = Ok (b_layers block))
  ∧ ∀ other_n_layers,
      NHITSBlock_init n_time_in n_time_out n_x n_s n_s_hidden n_theta n_theta_hidden
        n_pool_kernel_size n_freq_downsample pooling_mode layer_mode output_layer
        basis other_n_layers batch_normalization dropout_prob activation = Ok block.
Proof.
  intros Hc Hl Hinit.
  pose proof Hinit as Hinit'.
  apply NHITSBlock_init_Ok_inv in Hinit'
    as (_ & _ & pooled & ws & hl & h & out & Hpooled & Hloop & Hlast & Hout & ->).
  rewrite unknown_layer_mode_loop in Hloop by done. injection Hloop as <- <-.
  simpl. split; [done|]. split; [by exists h|].
  intros other. revert Hinit. unfold NHITSBlock_init.
  destruct (negb _); [done|]. rewrite Hpooled. cbn [mbind result_bind].
  destruct (negb _); [done|]. destruct (String.eqb pooling_mode "conv"); [done|].
  by rewrite !unknown_layer_mode_loop by done.
Qed.

(** X10: in the modes 'conv' and 'linear' a block is constructed only
    with at most as many layers as configured widths, and linear mode
    with more layers than widths (on sizes and a dropout probability
    that torch's layers accept) raises IndexError. *)
Theorem hidden_layers_need_configured_widths (n_layers : Z) :
  layer_mode = "conv"%string ∨ layer_mode = "linear"%string →
  (∀ block,
     NHITSBlock_init n_time_in n_time_out n_x n_s n_s_hidden n_theta n_theta_hidden
       n_pool_kernel_size n_freq_downsample pooling_mode layer_mode output_layer
       basis n_layers batch_normalization dropout_prob activation = Ok block →
     n_layers ≤ Z.of_nat (length n_theta_hidden)
     ∧ length (b_n_theta_hidden block) = S (length n_theta_hidden))
  ∧ (layer_mode = "linear"%string →
     name_in pooling_mode ["max"; "stochastic"; "none"]%string = true →
     name_in activation ACTIVATIONS = true →
     0 ≤ n_time_in → 0 ≤ n_time_out → 0 ≤ n_x → 0 ≤ n_s_hidden →
     0 < n_pool_kernel_size →
     Forall (λ w, 0 ≤ w) n_theta_hidden →
     (0 <= dropout_prob <= 1)%Q →
     Z.of_nat (length n_theta_hidden) < n_layers →
     NHITSBlock_init n_time_in n_time_out n_x n_s n_s_hidden n_theta n_theta_hidden
       n_pool_kernel_size n_freq_downsample pooling_mode layer_mode output_layer
       basis n_layers batch_normalization dropout_prob activation = Raise IndexError).
Proof.
  intros Hmode. split.
  - intros block Hinit.
    apply NHITSBlock_init_Ok_inv in Hinit
      as (_ & _ & pooled & ws & hl & h & out & _ & Hloop & _ & _ & ->).
    apply hidden_layers_loop_bound in Hloop as [Hlen Hn]; [|done].
    simpl in *. split; [lia|done].
  - intros -> Hpool Hact Hin Hout Hx Hs Hk Hws [_ Hp] Hn. unfold NHITSBlock_init.
    assert (name_in pooling_mode POOLING_MODES = true) as ->.
    { unfold name_in in *. simpl in *.
      repeat (apply orb_true_iff in Hpool as [Hpool|Hpool]); rewrite ?Hpool;
        by rewrite ?orb_true_r. }
    assert (String.eqb pooling_mode "conv" = false) as ->.
    { destruct (String.eqb_spec pooling_mode "conv") as [->|]; [|done].
      by vm_compute in Hpool. }
    unfold n_time_in_pooled, ceil_div.
    rewrite (proj2 (Z.eqb_neq n_pool_kernel_size 0)) by lia.
    rewrite Hact. cbn [negb mbind result_bind].
    set (ws := [_] ++ n_theta_hidden).
    assert (length ws = S (length n_theta_hidden)) as Hlen by done.
    replace (Z.to_nat n_layers)
      with (length n_theta_hidden + S (Z.to_nat n_layers - S (length n_theta_hidden)))%nat
      by lia.
    assert (Forall (λ w, 0 ≤ w) ws) as Hws0.
    { constructor; [|done].
      assert (- n_time_in / n_pool_kernel_size ≤ 0)
        by (apply Z.div_le_upper_bound; lia).
      destruct (n_s =? 0); nia. }
    rewrite seq_app, foldM_app, linear_layers_loop_ok; [|done|done|lia].
    cbn [mbind result_bind plus seq foldM].
    assert (hidden_layer_step "linear" (Some activation) batch_normalization
              dropout_prob
              (ws, linear_layers ws (Some activation) batch_normalization
                     dropout_prob (length n_theta_hidden))
              (length n_theta_hidden) = Raise IndexError) as ->; [|done].
    unfold hidden_layer_step, index. simpl String.eqb. cbv iota.
    destruct (lookup_lt_is_Some_2 ws (length n_theta_hidden) ltac:(lia)) as [w Hw].
    rewrite Hw. cbn [mbind result_bind].
    by rewrite (lookup_ge_None_2 ws (S (length n_theta_hidden))) by lia.
Qed.

(** X11: in linear mode with a linear output layer the hidden layers
    always fit one another, and the whole network maps the width of its
    input to n_theta exactly when the width reached after n_layers
    layers is the last configured width, which the output layer is
    built on; otherwise its forward pass raises RuntimeError. *)
Theorem linear_network_fits_iff_depth_reaches_last_width
    (n_layers : Z) (block : NHITSBlock) :
  layer_mode = "linear"%string → output_layer = "linear"%string →
  NHITSBlock_init n_time_in n_time_out n_x n_s n_s_hidden n_theta n_theta_hidden
    n_pool_kernel_size n_freq_downsample pooling_mode layer_mode output_layer
    basis n_layers batch_normalization dropout_prob activation = Ok block →
  ∃ w0,
    head (b_n_theta_hidden block) = Some w0
    ∧ (layers_forward_width (b_layers block) w0 = Ok n_theta
       ↔ b_n_theta_hidden block !! Z.to_nat n_layers = last (b_n_theta_hidden block))
    ∧ (b_n_theta_hidden block !! Z.to_nat n_layers ≠ last (b_n_theta_hidden block) →
       layers_forward_width (b_layers block) w0 = Raise RuntimeError).
Proof.
  intros -> -> Hinit.
  apply NHITSBlock_init_Ok_inv in Hinit
    as (_ & _ & pooled & ws & hl & h & out & _ & Hloop & Hlast & Hout & ->).
  pose proof Hloop as Hbound.
  apply hidden_layers_loop_bound in Hbound as [Hlen Hn]; [|by right].
  set (ws0 := [_] ++ n_theta_hidden) in *.
  assert (Z.to_nat n_layers < length ws0)%nat as Hlt by (destruct Hn; simpl in *; lia).
  apply linear_layers_loop in Hloop as [-> ->].
  unfold build_output_layer in Hout. simpl String.eqb in Hout. cbv iota in Hout.
  apply construct_all_Ok_inv in Hout as ->.
  destruct (lookup_lt_is_Some_2 ws0 (Z.to_nat n_layers) Hlt) as [w Hw].
  eexists. split; [done|]. cbn [b_layers b_n_theta_hidden].
  rewrite layers_forward_width_app, linear_layers_width by done.
  cbn [mbind result_bind]. rewrite Hw, Hlast. cbn [default].
  rewrite layers_forward_width_cons. unfold bare_linear. simpl.
  destruct (w =? h) eqn:E; [apply Z.eqb_eq in E|apply Z.eqb_neq in E].
  - subst. split; [done|]. intros Hne. by destruct Hne.
  - split; [|done]. split; [done|]. intros [= ?]. done.
Qed.
End LayerModeTheorems.

Section ProjectionInput.
Context {R : Type} `{Scalar R}.

Lemma MaxPool1d_shape (k : Z) (B L : nat) (y : Tensor2 R) :
  0 < k ≤ Z.of_nat L → has_shape B L y →
  ∃ pooled, MaxPool1d k k y = Ok pooled
            ∧ has_shape B (Z.to_nat (Z.of_nat L / k)) pooled.
Proof.
  intros Hk [<- Hrows]. unfold MaxPool1d.
  induction Hrows as [|row y Hrow _ IH].
  - exists []. split; [done|]. split; [done|constructor].
  - destruct IH as (pooled & Hpooled & Hlen & Hshape).
    destruct (MaxPool1d_line_length k row) as (line & Hline & Hwidth); [lia..|].
    exists (line :: pooled). cbn [mapM_result]. rewrite Hline, Hpooled. split; [done|].
    split; [simpl; by rewrite Hlen|]. constructor; [|done]. rewrite Hrow in Hwidth. lia.
Qed.

Lemma first_linear_layer_rejects (ws : list Z) (activ : option string) (bn : bool)
    (p : Q) (n : nat) (output : list layer) (w0 w : Z) :
  ws !! 0%nat = Some w0 → (0 < n)%nat → w ≠ w0 →
  layers_forward_width (linear_layers ws activ bn p n ++ output) w
    = Raise RuntimeError.
Proof.
  intros H0 Hn Hw. destruct n as [|n]; [lia|].
  unfold linear_layers. cbn [seq map app]. rewrite layers_forward_width_cons.
  rewrite H0. simpl. by rewrite (proj2 (Z.eqb_neq w w0)).
Qed.

Lemma ceil_div_fixes (n k : Z) :
  0 < n → 0 < k → (- ((- n) / k) = n ↔ k = 1 ∨ n = 1).
Proof.
  intros Hn Hk.
  pose proof (Z.div_mod (- n) k ltac:(lia)) as Hdm.
  pose proof (Z.mod_pos_bound (- n) k Hk) as Hmod.
  split.
  - intros E. destruct (decide (k = 1)) as [|Hk1]; [by left|right]. nia.
  - intros [-> | ->].
    + rewrite Z.div_1_r. lia.
    + nia.
Qed.

Section OneBlock.
Variables (n_time_in n_time_out n_s_hidden n_theta : Z).
Variables (n_theta_hidden : list Z) (kernel n_freq_downsample : Z).
Variables (output_layer : string) (basis : IdentityBasis) (n_layers : Z).
Variables (batch_normalization : bool) (dropout_prob : Q) (activation : string).
Variables (static_encoder : Tensor2 R → result (Tensor2 R)) (idx : list nat).
Variables (insample_x_t outsample_x_t : Tensor3 R) (x_s : Tensor2 R).

(** X12: a block with max pooling, linear layers and no exogenous or
    static input pools a window of n_time_in values to floor(n_time_in /
    kernel) values, while its first layer is built for the ceiling: the
    two agree exactly when the kernel divides n_time_in, and otherwise
    the network rejects the pooled window. *)
Theorem max_pooled_window_fits_iff_kernel_divides
    (block : NHITSBlock) (B : nat) (insample_y : Tensor2 R) :
  0 < kernel ≤ n_time_in → 1 ≤ n_layers →
  NHITSBlock_init n_time_in n_time_out 0 0 n_s_hidden n_theta n_theta_hidden
    kernel n_freq_downsample "max" "linear" output_layer
    basis n_layers batch_normalization dropout_prob activation = Ok block →
  has_shape B (Z.to_nat n_time_in) insample_y →
  ∃ x w0,
    projection_input block static_encoder idx insample_y insample_x_t
                     outsample_x_t x_s = Ok x
    ∧ has_shape B (Z.to_nat (n_time_in / kernel)) x
    ∧ head (b_n_theta_hidden block) = Some w0
    ∧ (w0 = n_time_in / kernel ↔ n_time_in mod kernel = 0)
    ∧ (n_time_in mod kernel ≠ 0 →
       layers_forward_width (b_layers block) (n_time_in / kernel)
       = Raise RuntimeError).
Proof.
  intros Hk Hn Hinit Hshape.
  apply NHITSBlock_init_Ok_inv in Hinit
    as (_ & _ & pooled & ws & hl & h & out & Hpooled & Hloop & Hlast & Hout & ->).
  pose proof Hloop as Hbound.
  apply hidden_layers_loop_bound in Hbound as [Hlen Hb]; [|by right].
  set (ws0 := [_] ++ n_theta_hidden) in *.
  assert (Z.to_nat n_layers < length ws0)%nat as Hlt by (destruct Hb; simpl in *; lia).
  apply linear_layers_loop in Hloop as [-> ->].
  destruct (MaxPool1d_shape kernel B (Z.to_nat n_time_in) insample_y)
    as (x & Hx & Hxshape); [lia|done|].
  rewrite Z2Nat.id in Hxshape by lia.
  exists x, (pooled + (n_time_in + n_time_out) * 0 + 0).
  unfold projection_input. simpl. rewrite Hx. simpl.
  split; [done|]. split; [done|]. split; [done|].
  assert (pooled + (n_time_in + n_time_out) * 0 + 0 = n_time_in / kernel
          ↔ n_time_in mod kernel = 0) as Hiff.
  { rewrite <-(n_time_in_pooled_is_floor_iff n_time_in kernel) by lia.
    rewrite Hpooled. split; [intros <-; f_equal; lia|intros [= ->]; lia]. }
  split; [done|]. intros Hmod.
  apply (first_linear_layer_rejects ws0 _ _ _ _ _
           (pooled + (n_time_in + n_time_out) * 0 + 0)); [done|lia|].
  intros E. by apply Hmod, Hiff.
Qed.

(** X13: with pooling mode 'none' the window reaches the network
    unchanged, but the first layer is still built for ceil(n_time_in /
    kernel) values: the network takes the window only for kernel size 1
    (or a window of one value) and rejects it otherwise. *)
Theorem unpooled_window_fits_iff_kernel_is_one
    (block : NHITSBlock) (insample_y : Tensor2 R) :
  0 < n_time_in → 0 < kernel → 1 ≤ n_layers →
  NHITSBlock_init n_time_in n_time_out 0 0 n_s_hidden n_theta n_theta_hidden
    kernel n_freq_downsample "none" "linear" output_layer
    basis n_layers batch_normalization dropout_prob activation = Ok block →
  projection_input block static_encoder idx insample_y insample_x_t
                   outsample_x_t x_s = Ok insample_y
  ∧ ∃ w0,
      head (b_n_theta_hidden block) = Some w0
      ∧ (w0 = n_time_in ↔ kernel = 1 ∨ n_time_in = 1)
      ∧ (w0 ≠ n_time_in →
         layers_forward_width (b_layers block) n_time_in = Raise RuntimeError).
Proof.
  intros Hin Hk Hn Hinit.
  apply NHITSBlock_init_Ok_inv in Hinit
    as (_ & _ & pooled & ws & hl & h & out & Hpooled & Hloop & Hlast & Hout & ->).
  pose proof Hloop as Hbound.
  apply hidden_layers_loop_bound in Hbound as [Hlen Hb]; [|by right].
  set (ws0 := [_] ++ n_theta_hidden) in *.
  assert (Z.to_nat n_layers < length ws0)%nat as Hlt by (destruct Hb; simpl in *; lia).
  apply linear_layers_loop in Hloop as [-> ->].
  split; [done|].
  exists (pooled + (n_time_in + n_time_out) * 0 + 0).
  split; [done|].
  unfold n_time_in_pooled, ceil_div in Hpooled.
  rewrite (proj2 (Z.eqb_neq kernel 0)) in Hpooled by lia. injection Hpooled as <-.
  split.
  - rewrite <-(ceil_div_fixes n_time_in kernel) by done. lia.
  - intros Hw.
    apply (first_linear_layer_rejects ws0 _ _ _ _ _
             (- (- n_time_in / kernel) + (n_time_in + n_time_out) * 0 + 0));
      [done|lia|]. intros E. apply Hw. by rewrite E.
Qed.
End OneBlock.
End ProjectionInput.

Section StackLayout.
Variable cfg : NHITSConfig.

Lemma create_block_placed_keeps (i0 block_id : nat) (st st' : heap * list nat)
    (p i : nat) :
  create_block cfg i0 st block_id = Ok st' → placed cfg st p i → placed cfg st' p i.
Proof.
  destruct st as [h bl], st' as [h' bl']. intros Hstep (ref & blk & Hp & Href & Hbuilt).
  simpl in *.
  apply create_block_Ok_inv in Hstep
    as [(ref0 & blk0 & _ & _ & _ & Href0 & -> & ->)
       |(freq & hidden & kernel & depth & basis & blk0 & _ & _ & _ & _ & _ & _ & _ & _
         & _ & -> & ->)].
  - destruct (decide (ref = ref0)) as [->|Hne].
    + exists ref0, (initialized_again blk0). simpl.
      split; [by apply lookup_app_l_Some|].
      split; [apply list_lookup_insert_eq; by eapply lookup_lt_Some|].
      rewrite Href in Href0. by injection Href0 as <-.
    + exists ref, blk. simpl. split; [by apply lookup_app_l_Some|].
      split; [by rewrite list_lookup_insert_ne|done].
  - exists ref, blk. simpl. split; [by apply lookup_app_l_Some|].
    split; [by apply lookup_app_l_Some|done].
Qed.

Lemma create_block_placed_new (i block_id : nat) (h h' : heap) (bl bl' : list nat) :
  create_block cfg i (h, bl) block_id = Ok (h', bl') →
  ((0 < block_id)%nat → placed cfg (h, bl) (length bl - 1) i) →
  length bl' = S (length bl) ∧ placed cfg (h', bl') (length bl) i.
Proof.
  intros Hstep Hprev.
  apply create_block_Ok_inv in Hstep
    as [(ref0 & blk0 & _ & Hid & Hlast & Href0 & -> & ->)
       |(freq & hidden & kernel & depth & basis & blk0 & _ & _ & Hfreq & Hnz & Hbasis
         & _ & Hkernel & _ & Hinit & -> & ->)].
  - split; [rewrite length_app; simpl; lia|].
    destruct (Hprev Hid) as (ref & blk & Hp & Href & Hbuilt). simpl in *.
    rewrite last_lookup in Hlast.
    replace (pred (length bl)) with (length bl - 1)%nat in Hlast by lia.
    rewrite Hlast in Hp. injection Hp as <-.
    rewrite Href0 in Href. injection Href as <-.
    exists ref0, (initialized_again blk0). simpl.
    split; [by rewrite lookup_app_r, Nat.sub_diag|].
    split; [apply list_lookup_insert_eq; by eapply lookup_lt_Some|done].
  - split; [rewrite length_app; simpl; lia|].
    exists (length h), (initialized_again blk0). simpl.
    split; [by rewrite lookup_app_r, Nat.sub_diag|].
    split; [by rewrite lookup_app_r, Nat.sub_diag|].
    apply NHITSBlock_init_Ok_inv in Hinit
      as (_ & _ & pooled & ws & hl & w & out & Hpooled & _ & _ & _ & ->).
    exists freq. simpl. split; [done|]. split; [done|]. split; [done|].
    split; [done|]. split.
    { unfold n_time_in_pooled, ceil_div in Hpooled.
      destruct (kernel =? 0) eqn:E; [done|]. by apply Z.eqb_neq in E. }
    split; [|done].
    unfold IdentityBasis_init in Hbasis. destruct (_ || _); [|done].
    by injection Hbasis as <-.
Qed.

(** The inner loop appends one position per block, each built for the
    stack of the loop. *)
Lemma inner_loop_layout (i n : nat) (st st' : heap * list nat) :
  foldM (create_block cfg i) (seq 0 n) st = Ok st' →
  length st'.2 = (length st.2 + n)%nat
  ∧ (∀ p i', placed cfg st p i' → placed cfg st' p i')
  ∧ ∀ j, (j < n)%nat → placed cfg st' (length st.2 + j) i.
Proof.
  apply (foldM_seq_invariant (create_block cfg i)
           (λ k s, length s.2 = (length st.2 + k)%nat
                   ∧ (∀ p i', placed cfg st p i' → placed cfg s p i')
                   ∧ ∀ j, (j < k)%nat → placed cfg s (length st.2 + j) i)).
  - split; [lia|]. split; [done|]. intros; lia.
  - intros k [h1 bl1] [h2 bl2] _ (Hlen & Hold & Hnew) Hstep. cbn [fst snd] in *.
    destruct (create_block_placed_new _ _ _ _ _ _ Hstep) as [Hlen' Hlast].
    { intros Hk. rewrite Hlen. replace (length st.2 + k - 1)%nat
        with (length st.2 + (k - 1))%nat by lia. apply Hnew. lia. }
    split; [lia|]. split.
    + intros p i' Hp. eapply create_block_placed_keeps; [exact Hstep|]. by apply Hold.
    + intros j Hj. destruct (decide (j < k)%nat) as [Hlt|Hge].
      * eapply create_block_placed_keeps; [exact Hstep|]. by apply Hnew.
      * assert (j = k) as -> by lia. by rewrite <-Hlen.
Qed.

Lemma create_stack_layout (st : heap * list nat) :
  create_stack cfg = Ok st →
  length st.2 = stack_offset cfg (length (stack_types cfg))
  ∧ (∀ i, (i < length (stack_types cfg))%nat → is_Some (n_blocks cfg !! i))
  ∧ ∀ i count j, (i < length (stack_types cfg))%nat →
      n_blocks cfg !! i = Some count → (j < Z.to_nat count)%nat →
      placed cfg st (stack_offset cfg i + j) i.
Proof.
  unfold create_stack.
  apply (foldM_seq_invariant _
           (λ n s, length s.2 = stack_offset cfg n
                   ∧ (∀ i, (i < n)%nat → is_Some (n_blocks cfg !! i))
                   ∧ ∀ i count j, (i < n)%nat →
                       n_blocks cfg !! i = Some count → (j < Z.to_nat count)%nat →
                       placed cfg s (stack_offset cfg i + j) i)).
  - split; [done|]. split; intros; lia.
  - intros n s s' Hn (Hlen & Hsome & Hprev) Hbody.
    bind_inv Hbody blocks Hblocks. apply index_Ok_inv in Hblocks.
    apply inner_loop_layout in Hbody as (Hlen' & Hold & Hnew).
    split; [rewrite Hlen', Hlen; by rewrite (stack_offset_S _ _ _ Hblocks)|].
    split.
    { intros i Hi. destruct (decide (i < n)%nat); [by apply Hsome|].
      assert (i = n) as -> by lia. by eexists. }
    intros i count j Hi Hcount Hj.
    destruct (decide (i < n)%nat) as [Hlt|Hge].
    + apply Hold. by eapply Hprev.
    + assert (i = n) as -> by lia. rewrite Hblocks in Hcount. injection Hcount as <-.
      rewrite <-Hlen. by apply Hnew.
Qed.

(** X14: a constructed model has one position per requested block: the
    length of its block list is the sum over the stacks of the block
    counts (a negative count as zero), and every stack type has a block
    count. *)
Theorem block_list_has_one_position_per_block (h : heap) (block_list : list nat) :
  create_stack cfg = Ok (h, block_list) →
  length block_list
  = sum_list (map Z.to_nat (take (length (stack_types cfg)) (n_blocks cfg)))
  ∧ (length (stack_types cfg) ≤ length (n_blocks cfg))%nat.
Proof.
  intros Hcreate. apply create_stack_layout in Hcreate as (Hlen & Hsome & _).
  split; [done|].
  destruct (decide (length (stack_types cfg) ≤ length (n_blocks cfg))%nat)
    as [|Hgt]; [done|].
  destruct (Hsome (length (n_blocks cfg)) ltac:(lia)) as [count Hcount].
  apply lookup_lt_Some in Hcount. lia.
Qed.

(** X15: in a constructed model the block at position j of stack i is
    built from the i-th entries of the per-stack lists, with or without
    weight sharing: n_theta = n_time_in + max(n_time_out //
    n_freq_downsample[i], 1), so at least one forecast knot, pooling
    kernel n_pool_kernel_size[i], both factors different from zero, and
    an identity basis from n_time_in to n_time_out. *)
Theorem stack_blocks_use_the_parameters_of_their_stack
    (h : heap) (block_list : list nat) (i : nat) (count : Z) (j : nat) :
  create_stack cfg = Ok (h, block_list) →
  (i < length (stack_types cfg))%nat →
  n_blocks cfg !! i = Some count →
  (j < Z.to_nat count)%nat →
  ∃ ref block freq,
    block_list !! (stack_offset cfg i + j)%nat = Some ref
    ∧ h !! ref = Some block
    ∧ n_freq_downsample cfg !! i = Some freq ∧ freq ≠ 0
    ∧ b_n_theta block = n_time_in cfg + Z.max (n_time_out cfg / freq) 1
    ∧ n_time_in cfg < b_n_theta block
    ∧ n_pool_kernel_size cfg !! i = Some (b_n_pool_kernel_size block)
    ∧ b_n_pool_kernel_size block ≠ 0
    ∧ b_basis block
      = mkIdentityBasis (n_time_out cfg) (n_time_in cfg) (interpolation_mode_ cfg).
Proof.
  intros Hcreate Hi Hcount Hj.
  apply create_stack_layout in Hcreate as (_ & _ & Hplaced).
  destruct (Hplaced i count j Hi Hcount Hj)
    as (ref & blk & Hp & Href & freq & Hfreq & Hnz & Htheta & Hkernel & Hknz
        & Hbasis & _).
  exists ref, blk, freq. simpl in *. repeat split; try done. lia.
Qed.
End StackLayout.

Section InitialisationCount.
Variable cfg : NHITSConfig.

Lemma occurrences_snoc (ref r : nat) (bl : list nat) :
  occurrences ref (bl ++ [r])
  = (occurrences ref bl + (if decide (r = ref) then 1 else 0))%nat.
Proof.
  unfold occurrences. rewrite filter_app, length_app. f_equal.
  rewrite filter_cons, filter_nil. by case_decide.
Qed.

Lemma occurrences_fresh (ref : nat) (bl : list nat) :
  Forall (λ r, r ≠ ref) bl → occurrences ref bl = 0%nat.
Proof.
  unfold occurrences. induction 1 as [|r bl Hr _ IH]; [done|].
  rewrite filter_cons. by rewrite decide_False.
Qed.

(** X16: every block object of a constructed model has had its weights
    initialised once for each position of the block list that refers to
    it, and at least once: without weight sharing exactly once, with
    weight sharing the block of a stack is initialised again for every
    further block of the stack. *)
Theorem weights_initialised_once_per_position
    (h : heap) (block_list : list nat) (ref : nat) (block : NHITSBlock) :
  create_stack cfg = Ok (h, block_list) →
  h !! ref = Some block →
  b_initialized block = occurrences ref block_list
  ∧ (0 < b_initialized block)%nat
  ∧ (shared_weights cfg = false → b_initialized block = 1%nat).
Proof.
  intros Hcreate Href.
  assert (b_initialized block = occurrences ref block_list
          ∧ (0 < b_initialized block)%nat) as [Hocc Hpos].
  { revert ref block Href.
    apply (create_stack_ind cfg
             (λ st, Forall (λ r, (r < length st.1)%nat) st.2
                    ∧ ∀ ref block, st.1 !! ref = Some block →
                        b_initialized block = occurrences ref st.2
                        ∧ (0 < b_initialized block)%nat))
      with (st := (h, block_list)); [done| |done].
    intros i block_id [h1 bl1] [h2 bl2] [Hrefs Hcount] Hstep. cbn [fst snd] in *.
    apply create_block_Ok_inv in Hstep
      as [(ref0 & blk0 & _ & _ & _ & Href0 & -> & ->)
         |(freq & hidden & kernel & depth & basis & blk0 & _ & _ & _ & _ & _ & _ & _ & _
           & Hinit & -> & ->)].
    - assert (ref0 < length h1)%nat as Hlt by by eapply lookup_lt_Some.
      split.
      { rewrite length_insert. apply Forall_app. split; [done|]. by constructor. }
      intros r b Hr. rewrite occurrences_snoc.
      destruct (decide (r = ref0)) as [->|Hne].
      + rewrite list_lookup_insert_eq in Hr by done. injection Hr as <-.
        rewrite decide_True by done. simpl.
        destruct (Hcount _ _ Href0) as [-> _]. lia.
      + rewrite list_lookup_insert_ne in Hr by done.
        rewrite decide_False by done. destruct (Hcount _ _ Hr) as [-> ?]. lia.
    - split.
      { rewrite length_app. simpl. apply Forall_app. split.
        - eapply Forall_impl; [exact Hrefs|]. simpl. lia.
        - constructor; [lia|done]. }
      intros r b Hr. rewrite occurrences_snoc.
      destruct (decide (r < length h1)%nat) as [Hlt|Hge].
      + rewrite lookup_app_l in Hr by done.
        rewrite decide_False by lia. destruct (Hcount _ _ Hr) as [-> ?]. lia.
      + rewrite lookup_app_r in Hr by lia.
        destruct (r - length h1)%nat as [|?] eqn:E; [|done].
        injection Hr as <-. assert (r = length h1) as -> by lia.
        rewrite decide_True by done.
        rewrite occurrences_fresh
          by (eapply Forall_impl; [exact Hrefs|]; simpl; lia).
        apply NHITSBlock_init_Ok_inv in Hinit
          as (_ & _ & pooled & ws & hl & w & out & _ & _ & _ & _ & ->).
        simpl. lia. }
  split; [done|]. split; [done|]. intros Hshared.
  destruct (create_stack_well_formed _ _ Hcreate) as (_ & _ & _ & _ & Hseq).
  simpl in Hseq. rewrite Hocc, (Hseq Hshared).
  apply lookup_lt_Some in Href. clear -Href. unfold occurrences.
  induction (length h) as [|n IH]; [lia|].
  rewrite seq_S, filter_app, length_app, filter_cons, filter_nil. simpl.
  destruct (decide (ref = n)) as [->|Hne].
  - rewrite decide_True by done. simpl.
    assert (filter (λ r, r = n) (seq 0 n) = []) as ->; [|done].
    apply (proj1 (length_zero_iff_nil _)).
    apply (occurrences_fresh n). apply Forall_forall. intros r Hr.
    apply elem_of_seq in Hr. lia.
  - rewrite decide_False by done. simpl. rewrite IH by lia. done.
Qed.
End InitialisationCount.

Section Wrapper.
Variable cfg : NHITSConfig.

(** X17: with the activation 'SELU' the wrapper replaces the
    initialization by 'lecun_normal' before it builds the model: the
    name it was given is never checked or used, and the construction
    cannot fail on the initialization name. *)
Theorem selu_overrides_the_initialization :
  activation cfg = "SELU"%string →
  (∀ name, NHITS_model (with_initialization cfg name) = NHITS_model cfg)
  ∧ NHITS_model cfg ≠ Raise (AssertionError InitializationAssert).
Proof.
  intros Hselu. unfold NHITS_model. simpl. rewrite Hselu. simpl.
  split; [done|].
  intros Hraise. apply create_stack_raise in Hraise
    as [?|[[? _]|[[? _]|[[_ E]|[? _]]]]]; done.
Qed.
End Wrapper.

Section FirstWidth.
Variables (activ : option string) (bn : bool) (p : Q).

(** The loop over the hidden layers never rewrites the first width. *)
Lemma hidden_layers_loop_head (layer_mode : string) (l : list nat)
    (st st' : list Z * list layer) :
  foldM (hidden_layer_step layer_mode activ bn p) l st = Ok st' →
  head st'.1 = head st.1.
Proof.
  revert st. induction l as [|i l IH]; intros st; [by intros [= <-]|].
  cbn [foldM]. intros Hloop. bind_inv Hloop st1 Hstep.
  rewrite (IH _ Hloop). clear IH Hloop.
  destruct st as [ws hl], st1 as [ws1 hl1]. simpl.
  assert (ws1 = ws ∨ ∃ w, ws1 = <[S i := w]> ws) as [->|[w ->]]; [|done|].
  { unfold hidden_layer_step in Hstep.
    destruct (String.eqb layer_mode "conv").
    - bind_inv Hstep w_in Hin. bind_inv Hstep w_out Hout.
      destruct (w_out <? w_in).
      + bind_inv Hstep q Hq.
        destruct (2 <=? q); bind_inv Hstep enc Henc; injection Hstep as <- _; eauto.
      + destruct (w_in <? w_out); [|injection Hstep as <- _; eauto].
        bind_inv Hstep q Hq.
        destruct (2 <=? q); bind_inv Hstep enc Henc; injection Hstep as <- _; eauto.
    - destruct (String.eqb layer_mode "linear").
      + bind_inv Hstep w_in Hin. bind_inv Hstep w_out Hout.
        bind_inv Hstep enc Henc. injection Hstep as <- _. eauto.
      + injection Hstep as <- _. eauto. }
  by destruct ws.
Qed.
End FirstWidth.

Section EndToEnd.
Context {R : Type} `{Scalar R}.

(** X18: on series of length T > n_time_out > 0, with masks of the
    same shape and blocks that keep the shape of the insample window
    and forecast the horizon, the forward pass of the model returns,
    and the forecast has the shape (B, n_time_out) of the outsample
    window and of the outsample mask it is returned with. *)
Theorem forward_returns_forecast_of_the_outsample_shape
    (n_time_out : Z) (blocks : list (Block R)) (B T : nat)
    (static Y : Tensor2 R) (X : Tensor3 R) (insample_mask outsample_mask : Tensor2 R) :
  0 < n_time_out < Z.of_nat T → blocks ≠ [] →
  has_shape B T Y → has_shape B T insample_mask → has_shape B T outsample_mask →
  Forall (conforming B (T - Z.to_nat n_time_out) (Z.to_nat n_time_out)
            (flip3 (slice3_to (- n_time_out) X)) (slice3_from (- n_time_out) X)
            static) blocks →
  ∃ outsample_y aggregate mask,
    NHITS_forward n_time_out blocks static Y X insample_mask outsample_mask false
      = Ok (outsample_y, aggregate, None, mask)
    ∧ has_shape B (Z.to_nat n_time_out) outsample_y
    ∧ has_shape B (Z.to_nat n_time_out) aggregate
    ∧ has_shape B (Z.to_nat n_time_out) mask.
Proof.
  intros Hh Hne HY Hin Hout Hblocks.
  destruct (window_shapes n_time_out B T Y ltac:(lia) HY) as [Hy_in Hy_out].
  destruct (window_shapes n_time_out B T insample_mask ltac:(lia) Hin) as [Hm_in _].
  destruct (window_shapes n_time_out B T outsample_mask ltac:(lia) Hout) as [_ Hm_out].
  destruct (forecast_returns_shape B (T - Z.to_nat n_time_out) (Z.to_nat n_time_out)
              blocks _ _ _ _ static ltac:(lia) Hne Hy_in Hm_in Hblocks)
    as (aggregate & Hforecast & Hshape).
  eexists _, aggregate, _. unfold NHITS_forward. rewrite Hforecast.
  cbn [mbind result_bind]. done.
Qed.
End EndToEnd.

Section ThetaLayout.
Context {R : Type} `{Scalar R}.
Variable cfg : NHITSConfig.

(** X19: the coefficients of a block of a constructed model split into
    n_time_in backcast coefficients and max(n_time_out //
    n_freq_downsample[i], 1) forecast knots: for theta of the block's
    width n_theta the basis cuts a backcast of shape (B, n_time_in) and
    at least one knot per series, however large the downsample factor. *)
Theorem constructed_block_keeps_a_forecast_knot
    (h : heap) (block_list : list nat) (i : nat) (count : Z) (j : nat) :
  0 ≤ n_time_in cfg →
  create_stack cfg = Ok (h, block_list) →
  (i < length (stack_types cfg))%nat →
  n_blocks cfg !! i = Some count →
  (j < Z.to_nat count)%nat →
  ∃ ref block freq knots,
    block_list !! (stack_offset cfg i + j)%nat = Some ref
    ∧ h !! ref = Some block
    ∧ n_freq_downsample cfg !! i = Some freq
    ∧ Z.of_nat knots = Z.max (n_time_out cfg / freq) 1
    ∧ (0 < knots)%nat
    ∧ ∀ (B : nat) (theta : Tensor2 R),
        has_shape B (Z.to_nat (b_n_theta block)) theta →
        has_shape B (Z.to_nat (n_time_in cfg))
                  (map (slice_to (backcast_size (b_basis block))) theta)
        ∧ has_shape B knots
                    (map (slice_from (backcast_size (b_basis block))) theta).
Proof.
  intros Hin Hcreate Hi Hcount Hj.
  apply create_stack_layout in Hcreate as (_ & _ & Hplaced).
  destruct (Hplaced i count j Hi Hcount Hj)
    as (ref & blk & Hp & Href & freq & Hfreq & Hnz & Htheta & _ & _ & Hbasis & _).
  exists ref, blk, freq, (Z.to_nat (Z.max (n_time_out cfg / freq) 1)).
  simpl in *. split; [done|]. split; [done|]. split; [done|].
  split; [lia|]. split; [lia|].
  intros B theta [HB Hrows]. rewrite Hbasis. simpl.
  split; (split; [by rewrite length_map|]); rewrite Forall_fmap;
    (eapply Forall_impl; [exact Hrows|]); intros row Hrow; simpl;
    destruct (slice_to_from_lengths (n_time_in cfg)
                (Z.to_nat (Z.max (n_time_out cfg / freq) 1)) row Hin)
      as (_ & Hto & Hfrom); (done || (rewrite Hrow, Htheta; lia)).
Qed.
End ThetaLayout.

Section ExogenousInput.
Context {R : Type} `{Scalar R}.

Lemma length_concat_uniform {A : Type} (n : nat) (ls : list (list A)) :
  Forall (λ l, length l = n) ls → length (concat ls) = (length ls * n)%nat.
Proof.
  induction 1 as [|l ls Hl _ IH]; [done|]. simpl. rewrite length_app, IH, Hl. lia.
Qed.

Lemma reshape_rows_shape (B C T : nat) (x : Tensor3 R) :
  (0 < B)%nat → has_shape3 B C T x →
  ∃ rows, reshape_rows B x = Ok rows ∧ has_shape B (C * T) rows.
Proof.
  intros HB [Hlen Hdata]. unfold reshape_rows.
  assert (length (concat (concat (data3 x))) = (B * (C * T))%nat) as Hflat.
  { rewrite <-Hlen. clear Hlen.
    induction Hdata as [|m ms [Hm Hrows] _ IH]; [done|].
    simpl. rewrite concat_app, length_app, IH.
    rewrite (length_concat_uniform T) by done. rewrite Hm. lia. }
  rewrite decide_False by lia. rewrite Hflat.
  replace (B * (C * T))%nat with (C * T * B)%nat by lia.
  rewrite Nat.Div0.mod_mul, decide_True by done.
  rewrite Nat.div_mul by lia.
  destruct (view B (C * T) (concat (concat (data3 x)))) as [rows|e] eqn:Hview.
  - exists rows. split; [done|]. by eapply view_shape.
  - unfold view in Hview. rewrite bool_decide_eq_true_2 in Hview by lia. done.
Qed.

Lemma cat1_shape (B a b : nat) (x y : Tensor2 R) :
  has_shape B a x → has_shape B b y →
  ∃ z, cat1 x y = Ok z ∧ has_shape B (a + b) z.
Proof.
  intros [Hx Hxrows] [Hy Hyrows]. unfold cat1. rewrite decide_True by congruence.
  eexists. split; [done|]. split; [rewrite length_zip_with; lia|].
  clear Hx Hy. revert y Hyrows.
  induction Hxrows as [|r x Hr _ IH]; intros y Hyrows; [constructor|].
  destruct Hyrows as [|s y Hs Hyrows]; [constructor|]. simpl.
  constructor; [rewrite length_app; lia|by apply IH].
Qed.

Lemma projection_input_shape
    (n_time_in n_time_out n_x n_s n_s_hidden n_theta : Z)
    (n_theta_hidden : list Z) (kernel n_freq_downsample : Z)
    (layer_mode output_layer : string) (basis : IdentityBasis) (n_layers : Z)
    (batch_normalization : bool) (dropout_prob : Q) (activation : string)
    (static_encoder : Tensor2 R → result (Tensor2 R)) (idx : list nat)
    (block : NHITSBlock) (B : nat) (insample_y : Tensor2 R)
    (insample_x_t outsample_x_t : Tensor3 R) (x_s : Tensor2 R) :
  0 < kernel ≤ n_time_in → n_time_in mod kernel = 0 →
  0 ≤ n_time_out → 0 ≤ n_x → 0 ≤ n_s → 0 ≤ n_s_hidden → (0 < B)%nat →
  NHITSBlock_init n_time_in n_time_out n_x n_s n_s_hidden n_theta n_theta_hidden
    kernel n_freq_downsample "max" layer_mode output_layer
    basis n_layers batch_normalization dropout_prob activation = Ok block →
  has_shape B (Z.to_nat n_time_in) insample_y →
  has_shape3 B (Z.to_nat n_x) (Z.to_nat n_time_in) insample_x_t →
  has_shape3 B (Z.to_nat n_x) (Z.to_nat n_time_out) outsample_x_t →
  (0 < n_s → 0 < n_s_hidden →
   ∃ encoded, static_encoder x_s = Ok encoded
              ∧ has_shape B (Z.to_nat n_s_hidden) encoded) →
  ∃ x w0,
    projection_input block static_encoder idx insample_y insample_x_t
                     outsample_x_t x_s = Ok x
    ∧ head (b_n_theta_hidden block) = Some w0
    ∧ has_shape B (Z.to_nat w0) x.
Proof.
  intros Hk Hmod Hout Hx Hs Hsh HB Hinit Hy Hxin Hxout Hstatic.
  apply NHITSBlock_init_Ok_inv in Hinit
    as (_ & _ & pooled & ws & hl & h & out & Hpooled & Hloop & Hlast & Hout' & ->).
  apply hidden_layers_loop_head in Hloop. simpl in Hloop.
  destruct (MaxPool1d_shape kernel B (Z.to_nat n_time_in) insample_y)
    as (y1 & Hy1 & Hy1shape); [lia|done|].
  rewrite Z2Nat.id in Hy1shape by lia.
  assert (pooled = n_time_in / kernel) as ->.
  { apply (n_time_in_pooled_is_floor_iff n_time_in kernel) in Hmod; [|lia].
    rewrite Hmod in Hpooled. by injection Hpooled. }
  assert (0 ≤ n_time_in / kernel) as Hq by (apply Z.div_pos; lia).
  unfold projection_input. simpl. rewrite Hy1. cbn [mbind result_bind].
  assert (length y1 = B) as Hlen1 by by destruct Hy1shape.
  rewrite Hlen1.
  assert (∃ y2, (if 0 <? n_x
                 then x_in ← reshape_rows B insample_x_t;
                      insample_y ← cat1 y1 x_in;
                      x_out ← reshape_rows B outsample_x_t;
                      cat1 insample_y x_out
                 else Ok y1) = Ok y2
                ∧ has_shape B (Z.to_nat (n_time_in / kernel
                                         + (n_time_in + n_time_out) * n_x)) y2)
    as (y2 & -> & Hy2).
  { destruct (0 <? n_x) eqn:Ex; [apply Z.ltb_lt in Ex|apply Z.ltb_ge in Ex].
    - destruct (reshape_rows_shape B _ _ insample_x_t HB Hxin) as (r1 & -> & Hr1).
      cbn [mbind result_bind].
      destruct (cat1_shape B _ _ y1 r1 Hy1shape Hr1) as (c1 & -> & Hc1).
      cbn [mbind result_bind].
      destruct (reshape_rows_shape B _ _ outsample_x_t HB Hxout) as (r2 & -> & Hr2).
      cbn [mbind result_bind].
      destruct (cat1_shape B _ _ c1 r2 Hc1 Hr2) as (c2 & -> & Hc2).
      exists c2. split; [done|].
      replace (Z.to_nat (n_time_in / kernel + (n_time_in + n_time_out) * n_x))
        with (Z.to_nat (n_time_in / kernel) + Z.to_nat n_x * Z.to_nat n_time_in
              + Z.to_nat n_x * Z.to_nat n_time_out)%nat by nia.
      done.
    - exists y1. split; [done|]. by replace n_x with 0 by lia; rewrite Z.mul_0_r, Z.add_0_r. }
  cbn [mbind result_bind].
  cut (∃ x, (if (0 <? n_s) && (0 <? (if n_s =? 0 then 0 else n_s_hidden))
             then x_s0 ← static_encoder x_s; cat1 y2 x_s0
             else Ok y2) = Ok x
            ∧ has_shape B (Z.to_nat (n_time_in / kernel + (n_time_in + n_time_out) * n_x
                                     + (if n_s =? 0 then 0 else n_s_hidden))) x).
  { intros (x & Hx' & Hxs).
    exists x, (n_time_in / kernel + (n_time_in + n_time_out) * n_x
               + (if n_s =? 0 then 0 else n_s_hidden)). done. }
  assert (0 ≤ n_time_in / kernel + (n_time_in + n_time_out) * n_x) as Hw by nia.
  destruct (n_s =? 0) eqn:En; [apply Z.eqb_eq in En|apply Z.eqb_neq in En].
  - rewrite andb_false_r. exists y2. split; [done|]. by rewrite Z.add_0_r.
  - rewrite (proj2 (Z.ltb_lt 0 n_s)) by lia. simpl.
    destruct (0 <? n_s_hidden) eqn:Eh; [apply Z.ltb_lt in Eh|apply Z.ltb_ge in Eh].
    + destruct (Hstatic ltac:(lia) Eh) as (encoded & -> & Henc).
      cbn [mbind result_bind].
      destruct (cat1_shape B _ _ y2 encoded Hy2 Henc) as (c & -> & Hc).
      exists c. split; [done|]. by rewrite Z2Nat.inj_add by lia.
    + exists y2. split; [done|]. by replace n_s_hidden with 0 by lia; rewrite Z.add_0_r.
Qed.

(** X20: for a block with max pooling whose kernel divides n_time_in,
    the input the forward pass hands to the projection network (the
    pooled window, the flattened past and future exogenous variables
    and the encoded static features) has exactly the width the
    constructor has derived for the first layer. *)
Theorem projection_input_has_the_derived_width
    (n_time_in n_time_out n_x n_s n_s_hidden n_theta : Z)
    (n_theta_hidden : list Z) (kernel n_freq_downsample : Z)
    (layer_mode output_layer : string) (basis : IdentityBasis) (n_layers : Z)
    (batch_normalization : bool) (dropout_prob : Q) (activation : string)
    (static_encoder : Tensor2 R → result (Tensor2 R)) (idx : list nat)
    (block : NHITSBlock) (B : nat) (insample_y : Tensor2 R)
    (insample_x_t outsample_x_t : Tensor3 R) (x_s : Tensor2 R) :
  0 < kernel ≤ n_time_in → n_time_in mod kernel = 0 →
  0 ≤ n_time_out → 0 ≤ n_x → 0 ≤ n_s → 0 ≤ n_s_hidden → (0 < B)%nat →
  NHITSBlock_init n_time_in n_time_out n_x n_s n_s_hidden n_theta n_theta_hidden
    kernel n_freq_downsample "max" layer_mode output_layer
    basis n_layers batch_normalization dropout_prob activation = Ok block →
  has_shape B (Z.to_nat n_time_in) insample_y →
  has_shape3 B (Z.to_nat n_x) (Z.to_nat n_time_in) insample_x_t →
  has_shape3 B (Z.to_nat n_x) (Z.to_nat n_time_out) outsample_x_t →
  (0 < n_s → 0 < n_s_hidden →
   ∃ encoded, static_encoder x_s = Ok encoded
              ∧ has_shape B (Z.to_nat n_s_hidden) encoded) →
  ∃ x w0,
    projection_input block static_encoder idx insample_y insample_x_t
                     outsample_x_t x_s = Ok x
    ∧ head (b_n_theta_hidden block) = Some w0
    ∧ has_shape B (Z.to_nat w0) x.
Proof. apply projection_input_shape. Qed.
End ExogenousInput.

Section DecompositionHorizon.
Context {R : Type} `{Scalar R}.

(** X21: the decomposition pass repeats the level over the time axis
    of the future exogenous tensor, not over the horizon: with blocks
    that forecast a horizon different from that axis the normal pass
    returns, but the decomposition pass cannot stack its entries and
    raises RuntimeError. *)
Theorem decomposition_needs_exogenous_horizon
    (B T horizon : nat) (blocks : list (Block R))
    (insample_y : Tensor2 R) (insample_x_t : Tensor3 R) (insample_mask : Tensor2 R)
    (outsample_x_t : Tensor3 R) (x_s : Tensor2 R) :
  (0 < B)%nat → (0 < T)%nat → blocks ≠ [] →
  has_shape B T insample_y → has_shape B T insample_mask →
  Forall (conforming B T horizon (flip3 insample_x_t) outsample_x_t x_s) blocks →
  size2 outsample_x_t ≠ horizon →
  (∃ aggregate,
     forecast blocks insample_y insample_x_t insample_mask outsample_x_t x_s
       = Ok aggregate)
  ∧ forecast_decomposition blocks insample_y insample_x_t insample_mask
                           outsample_x_t x_s = Raise RuntimeError.
Proof.
  intros HB HT Hne Hy Hm Hblocks Hspan.
  split.
  { destruct (forecast_returns_shape B T horizon blocks _ _ _ _ _ HT Hne Hy Hm Hblocks)
      as (aggregate & Hf & _). by exists aggregate. }
  pose proof (has_shape_flip2 _ _ _ Hy) as Hr.
  pose proof (has_shape_flip2 _ _ _ Hm) as Hm'.
  pose proof (has_shape_last_column _ _ _ HT Hy) as Hlevel.
  set (rep := repeat_columns (last_column insample_y) (size2 outsample_x_t)).
  destruct (decomposition_loop_shapes B T horizon _ _ _ _ blocks _ _ [rep]
              Hblocks Hm' Hr (or_introl Hlevel))
    as (r' & f' & cs & Hloop & _ & _ & Hcs & Hlen).
  unfold forecast_decomposition. fold rep. rewrite Hloop. cbn [mbind result_bind].
  pose proof (has_shape_repeat_columns B (size2 outsample_x_t) _ Hlevel) as Hrep.
  fold rep in Hrep.
  destruct cs as [|c cs]; [by destruct blocks|].
  inversion Hcs as [|? ? Hc _]; subst.
  assert (dims c ≠ dims rep) as Hdims.
  { apply has_shape_dims in Hrep as ->. apply has_shape_dims in Hc as ->.
    destruct B as [|B']; [lia|]. simpl. congruence. }
  unfold stack. simpl.
  rewrite bool_decide_eq_true_2 by done.
  rewrite (bool_decide_eq_false_2 (dims c = dims rep)) by done. done.
Qed.
End DecompositionHorizon.

Section SharedBatchNormalization.
Variable cfg : NHITSConfig.

(** X22: with weight sharing every block of the first stack is the
    first block object, so that batch normalization, when asked for, is
    applied at every position of the first stack and not only at the
    first. *)
Theorem shared_first_stack_is_batch_normalised
    (h : heap) (block_list : list nat) (count : Z) (j : nat) :
  shared_weights cfg = true →
  create_stack cfg = Ok (h, block_list) →
  (0 < length (stack_types cfg))%nat →
  n_blocks cfg !! 0%nat = Some count →
  (j < Z.to_nat count)%nat →
  ∃ block,
    block_list !! j = Some 0%nat
    ∧ h !! 0%nat = Some block
    ∧ b_batch_normalization block = batch_normalization cfg.
Proof.
  intros Hshared Hcreate Hstacks Hcount Hj.
  destruct (shared_segments cfg h block_list Hshared Hcreate 0 count j Hstacks Hcount Hj)
    as (ref & Hpos & Hfirst).
  change (stack_offset cfg 0) with 0%nat in *. simpl in Hpos.
  destruct (create_stack_well_formed _ _ Hcreate) as (Hbn & Hrefs & _ & Hhead & _).
  simpl in *.
  assert (ref = 0%nat) as ->.
  { apply Hhead. destruct block_list; [done|]. simpl in *. done. }
  rewrite Forall_lookup in Hrefs. specialize (Hrefs _ _ Hfirst).
  destruct (lookup_lt_is_Some_2 h 0 Hrefs) as [blk Hblk].
  exists blk. split; [done|]. split; [done|].
  rewrite (Hbn _ _ Hblk). rewrite bool_decide_eq_true_2 by done. apply andb_true_r.
Qed.
End SharedBatchNormalization.

Section BlockContract.
Context {R : Type} `{Scalar R} `{Interpolation R}.

(** X23: a block built with max pooling and a kernel that divides
    n_time_in, an identity basis in nearest or linear mode from
    n_time_in to n_time_out, and n_theta = n_time_in + knots with at
    least one knot, whose network maps an input of the derived width
    to theta of width n_theta, keeps the shapes the forecast loop
    relies on: on every residual of shape (B, n_time_in) its forward
    pass returns a backcast of that shape and a forecast of shape
    (B, n_time_out). *)
Theorem block_forward_keeps_the_shapes_of_the_loop
    (n_time_in n_time_out n_x n_s n_s_hidden n_theta : Z)
    (n_theta_hidden : list Z) (kernel n_freq_downsample : Z)
    (layer_mode output_layer : string) (basis : IdentityBasis) (n_layers : Z)
    (batch_normalization : bool) (dropout_prob : Q) (activation : string)
    (static_encoder layers : Tensor2 R → result (Tensor2 R)) (idx : list nat)
    (block : NHITSBlock) (B knots : nat)
    (insample_x_t outsample_x_t : Tensor3 R) (x_s : Tensor2 R) :
  0 < kernel ≤ n_time_in → n_time_in mod kernel = 0 →
  0 < n_time_out → 0 ≤ n_x → 0 ≤ n_s → 0 ≤ n_s_hidden → (0 < B)%nat →
  (0 < knots)%nat → n_theta = n_time_in + Z.of_nat knots →
  basis = mkIdentityBasis n_time_out n_time_in (interpolation_mode basis) →
  interpolation_mode basis = "nearest"%string
  ∨ interpolation_mode basis = "linear"%string →
  NHITSBlock_init n_time_in n_time_out n_x n_s n_s_hidden n_theta n_theta_hidden
    kernel n_freq_downsample "max" layer_mode output_layer
    basis n_layers batch_normalization dropout_prob activation = Ok block →
  has_shape3 B (Z.to_nat n_x) (Z.to_nat n_time_in) insample_x_t →
  has_shape3 B (Z.to_nat n_x) (Z.to_nat n_time_out) outsample_x_t →
  (0 < n_s → 0 < n_s_hidden →
   ∃ encoded, static_encoder x_s = Ok encoded
              ∧ has_shape B (Z.to_nat n_s_hidden) encoded) →
  (∀ x, has_shape B (Z.to_nat (default 0 (head (b_n_theta_hidden block)))) x →
        ∃ theta, layers x = Ok theta ∧ has_shape B (Z.to_nat n_theta) theta) →
  (∀ mode line, line ≠ [] →
     length (F_interpolate mode n_time_out line) = Z.to_nat n_time_out) →
  conforming B (Z.to_nat n_time_in) (Z.to_nat n_time_out)
    insample_x_t outsample_x_t x_s
    (NHITSBlock_forward block static_encoder layers idx).
Proof.
  intros Hk Hmod Hout Hx Hs Hsh HB Hknots Htheta Hbasis Hmode Hinit Hxin Hxout
         Hstatic Hlayers Hinterp residuals Hres.
  destruct (projection_input_shape _ _ _ _ _ _ _ _ _ _ _ _ _ _ _ _
              static_encoder idx block B residuals insample_x_t outsample_x_t x_s
              Hk Hmod (Z.lt_le_incl _ _ Hout) Hx Hs Hsh HB Hinit Hres Hxin Hxout
              Hstatic)
    as (x & w0 & Hx' & Hhead & Hxshape).
  rewrite Hhead in Hlayers. simpl in Hlayers.
  destruct (Hlayers x Hxshape) as (theta & Hrun & [Hlen Hrows]).
  apply NHITSBlock_init_Ok_inv in Hinit
    as (_ & _ & pooled & ws & hl & h & out & _ & _ & _ & _ & ->).
  unfold NHITSBlock_forward. rewrite Hx'. cbn [mbind result_bind].
  rewrite Hrun. cbn [mbind result_bind b_basis].
  assert (∀ row, row ∈ theta →
            length (slice_to n_time_in row) = Z.to_nat n_time_in
            ∧ length (slice_from n_time_in row) = knots) as Hslices.
  { intros row Hrow. rewrite Forall_forall in Hrows.
    destruct (slice_to_from_lengths n_time_in knots row ltac:(lia)) as (_ & ? & ?);
      [|done]. rewrite (Hrows row Hrow). lia. }
  exists (map (slice_to n_time_in) theta),
         (map (F_interpolate (interpolation_mode basis) n_time_out)
              (map (slice_from n_time_in) theta)).
  split.
  { rewrite Hbasis. unfold IdentityBasis_forward. simpl.
    destruct Hmode as [-> | ->]; done. }
  split.
  - split; [by rewrite length_map|]. rewrite Forall_fmap.
    apply Forall_forall. intros row Hrow. simpl. by apply Hslices.
  - split; [by rewrite !length_map|]. rewrite !Forall_fmap.
    apply Forall_forall. intros row Hrow. simpl. apply Hinterp.
    destruct (Hslices row Hrow) as [_ Hlen']. intros E. rewrite E in Hlen'.
    simpl in Hlen'. lia.
Qed.
End BlockContract.
(** * The theorems at concrete inputs *)

Lemma reading_block_keeps_shape (B T : nat) (x ox : Tensor3 Z) (xs : Tensor2 Z) :
  shape_keeping B T T x ox xs reading_block.
Proof.
  intros residual backcast contribution [Hlen Hrows] [= <- <-].
  split; [|done]. split; [by rewrite length_map|].
  apply Forall_forall. intros row Hrow.
  apply list_elem_of_fmap in Hrow as (r & -> & Hr).
  rewrite Forall_forall in Hrows. rewrite length_map. by apply Hrows.
Qed.

(** Two blocks that forecast what they are given, on the series 1, 2, 3
    whose last value is unavailable: the forecast is the last value 3
    plus the series read backwards, 3, 2, 1, plus that residual with its
    first position masked, 0, 2, 1. *)
Lemma forecast_is_doubly_residual_recurrence_witness :
  forecast [reading_block; reading_block] [[1; 2; 3]] no_exogenous_3 [[1; 1; 0]]
           no_exogenous_3 []
  = Ok [[6; 7; 5]].
Proof.
  rewrite (forecast_is_doubly_residual_recurrence 1 3 3).
  - reflexivity.
  - lia.
  - split; [reflexivity|]. repeat constructor.
  - split; [reflexivity|]. repeat constructor.
  - constructor; [apply reading_block_keeps_shape|].
    constructor; [apply reading_block_keeps_shape|constructor].
Defined.



(** C3, as stated, fails on the pair (10, 4) of hidden widths in
    convolutional mode: the layer built maps width 10 to width 5, and the
    loop overwrites the configured 4 by 5. *)
Lemma strided_hidden_layer_misses_configured_width :
  hidden_layer_step "conv" (Some "ReLU"%string) false 0%Q ([10; 4], []) 0
    = Ok ([10; 5], [HiddenFeaturesDownSampleEncoder 2 2 5 (Some "ReLU"%string)])
  ∧ layers_forward_width
      [HiddenFeaturesDownSampleEncoder 2 2 5 (Some "ReLU"%string)] 10 = Ok 5
  ∧ layers_forward_width
      [HiddenFeaturesDownSampleEncoder 2 2 5 (Some "ReLU"%string)] 10 ≠ Ok 4.
Proof. by vm_compute. Qed.

(** With fewer layers than configured widths the output layer is still
    built on the last configured width: one layer on the widths (10, 4)
    maps the input width 2 to 10, the output layer is built for the
    width 4, and the network maps 2 to 12 instead of n_theta = 6. *)
Lemma shallow_network_misses_n_theta :
  ∃ block,
    NHITSBlock_init 4 2 0 0 0 6 [10; 4] 2 1 "max" "conv" "conv"
      (mkIdentityBasis 2 4 "linear") 1 false 0%Q "ReLU" = Ok block
    ∧ b_n_theta_hidden block = [2; 10; 4]
    ∧ layers_forward_width (b_layers block) 2 = Ok 12.
Proof. eexists. by vm_compute. Qed.

Lemma projection_network_reaches_n_theta_witness :
  ∃ block w0,
    NHITSBlock_init 4 2 0 0 0 6 [10; 4] 2 1 "max" "conv" "conv"
      (mkIdentityBasis 2 4 "linear") 2 false 0%Q "ReLU" = Ok block
    ∧ head (b_n_theta_hidden block) = Some w0
    ∧ layers_forward_width (b_layers block) w0 = Ok 6.
Proof.
  destruct (projection_network_reaches_n_theta 4 2 0 0 0 6 [10; 4] 2 1
              "max" "conv" "conv" (mkIdentityBasis 2 4 "linear") 2 false 0%Q "ReLU")
    as [_ (block & w0 & Hinit & Hhead & Hfull & Hwidth)].
  - lia.
  - lia.
  - lia.
  - lia.
  - lia.
  - lia.
  - repeat constructor.
  - simpl. lia.
  - unfold Qle. simpl. lia.
  - reflexivity.
  - reflexivity.
  - left. reflexivity.
  - right. left. reflexivity.
  - exists block, w0. split; [exact Hinit|]. split; [exact Hhead|].
    apply Hwidth, Hfull. reflexivity.
Defined.



Lemma IdentityBasis_forward_shapes_witness :
  ∃ backcast forecast,
    IdentityBasis_forward (H0 := nearest_lines) (mkIdentityBasis 4 2 "cubic-2")
      [[1; 2; 10; 20]; [3; 4; 30; 40]; [5; 6; 50; 60]] = Ok (backcast, forecast)
    ∧ backcast = map (take 2) [[1; 2; 10; 20]; [3; 4; 30; 40]; [5; 6; 50; 60]]
    ∧ has_shape 3 2 backcast
    ∧ has_shape 3 4 forecast.
Proof.
  apply (IdentityBasis_forward_shapes (H0 := nearest_lines)
           (mkIdentityBasis 4 2 "cubic-2")
           [[1; 2; 10; 20]; [3; 4; 30; 40]; [5; 6; 50; 60]] 3 2).
  - simpl. lia.
  - simpl. lia.
  - lia.
  - split; [reflexivity|]. repeat constructor.
  - intros mode line _. unfold F_interpolate, nearest_lines.
    rewrite length_map. apply length_seq.
  - right. right. split; [reflexivity|]. exists 2. split; [reflexivity|lia].
Defined.

Lemma cubic_sub_batching_is_invisible_witness :
  IdentityBasis_forward (H0 := nearest_lines) (mkIdentityBasis 4 2 "cubic-2")
    [[1; 2; 10; 20]; [3; 4; 30; 40]; [5; 6; 50; 60]]
  = Ok ([[1; 2]; [3; 4]; [5; 6]],
        [[10; 10; 20; 20]; [30; 30; 40; 40]; [50; 50; 60; 60]]).
Proof.
  etrans.
  - apply (cubic_sub_batching_is_invisible (H0 := nearest_lines)
             (mkIdentityBasis 4 2 "cubic-2")
             [[1; 2; 10; 20]; [3; 4; 30; 40]; [5; 6; 50; 60]] 2).
    + reflexivity.
    + reflexivity.
    + lia.
    + simpl. lia.
    + repeat constructor.
  - reflexivity.
Defined.

Lemma shared_blocks_alias_first_of_stack_witness :
  ∃ h block_list,
    create_stack shared_config = Ok (h, block_list)
    ∧ ∃ ref block,
        block_list !! (stack_offset shared_config 0 + 2)%nat = Some ref
        ∧ block_list !! stack_offset shared_config 0 = Some ref
        ∧ h !! ref = Some block.
Proof.
  destruct (create_stack shared_config) as [[h block_list]|e] eqn:Hcreate;
    [|by vm_compute in Hcreate].
  exists h, block_list. split; [reflexivity|].
  apply (shared_blocks_alias_first_of_stack shared_config h block_list 0 3 2).
  - reflexivity.
  - exact Hcreate.
  - simpl. lia.
  - reflexivity.
  - lia.
Defined.

(** C10, as stated, fails in convolutional mode: the second of two
    blocks is constructed without batch normalization, and still its
    up-sampling encoder holds a BatchNorm1d and runs it.  It also fails
    with shared weights: the second block of the first stack is the
    first block itself, batch normalization included. *)
Lemma later_blocks_are_batch_normalised :
  (∃ h second,
     create_stack conv_pair_config = Ok (h, [0; 1]%nat)
     ∧ batch_normalization conv_pair_config = true
     ∧ h !! 1%nat = Some second
     ∧ b_batch_normalization second = false
     ∧ b_layers second
       = [HiddenFeaturesUpsampleEncoder 2 2 8 (Some "ReLU"%string);
          HiddenFeaturesDownSampleEncoder 3 1 6 None]
     ∧ existsb applies_batch_norm (b_layers second) = true
     ∧ existsb is_batch_norm (modules second) = true)
  ∧ (∃ h first,
       create_stack shared_linear_config = Ok (h, [0; 0; 0; 1; 1]%nat)
       ∧ h !! 0%nat = Some first
       ∧ b_batch_normalization first = true
       ∧ existsb applies_batch_norm (b_layers first) = true).
Proof. split; eexists _, _; by vm_compute. Qed.

Lemma batch_normalization_only_on_first_block_witness :
  ∃ h block,
    create_stack plain_config = Ok (h, [0; 1; 2; 3; 4]%nat)
    ∧ h !! 1%nat = Some block
    ∧ b_batch_normalization block = false
    ∧ Forall (λ m, is_batch_norm m = false) (modules block)
    ∧ existsb applies_batch_norm (b_layers block) = false.
Proof.
  destruct (create_stack plain_config) as [[h block_list]|e] eqn:Hcreate;
    [|by vm_compute in Hcreate].
  destruct (batch_normalization_only_on_first_block plain_config h block_list Hcreate)
    as (_ & _ & Hentry & _).
  assert (block_list = [0; 1; 2; 3; 4]%nat) as ->
    by (vm_compute in Hcreate; by injection Hcreate as <- <-).
  destruct (Hentry 1%nat 1%nat eq_refl) as (block & Hblock & Hflag & Hnone).
  exists h, block. split; [reflexivity|]. split; [exact Hblock|].
  split; [by apply Hflag|]. by apply Hnone.
Defined.

Lemma forward_splits_series_at_horizon_witness :
  has_shape 1 (4 - Z.to_nat 2) (insample_window 2 [[1; 2; 3; 4]])
  ∧ has_shape 1 (Z.to_nat 2) [[3; 4]]
  ∧ has_shape 1 (Z.to_nat 2) [[1; 1]]
  ∧ zip_with app (insample_window 2 [[1; 2; 3; 4]]) [[3; 4]] = [[1; 2; 3; 4]].
Proof.
  apply (forward_splits_series_at_horizon 2 [echo_block] 1 4 [] [[1; 2; 3; 4]]
           no_exogenous_4 [[1; 1; 1; 1]] [[1; 1; 1; 1]] false
           [[3; 4]] [[9; 10]] None [[1; 1]]).
  - lia.
  - split; [reflexivity|]. repeat constructor.
  - split; [reflexivity|]. repeat constructor.
  - reflexivity.
Defined.

Lemma forward_degenerate_horizon_witness :
  insample_window 0 [[1; 2; 3; 4]] = replicate 1 []
  ∧ [[1; 2; 3; 4]] = [[1; 2; 3; 4]].
Proof.
  apply (forward_degenerate_horizon 0 [] 1 4 [] [[1; 2; 3; 4]]
           no_exogenous_4 [[1; 1; 1; 1]] [[1; 1; 1; 1]] false
           [[1; 2; 3; 4]] [[]] None [[1; 1; 1; 1]]).
  - left. reflexivity.
  - split; [reflexivity|]. repeat constructor.
  - reflexivity.
Defined.

Lemma forward_decomposition_flag_is_transparent_witness :
  NHITS_forward 2 [echo_block] [] [[1; 2; 3; 4]] no_exogenous_4
    [[1; 1; 1; 1]] [[1; 1; 1; 1]] false
  = Ok ([[3; 4]], [[9; 10]], None, [[1; 1]])
  ∧ is_Some (Some (mkTensor3 1 2 2 [[[2; 2]; [7; 8]]])).
Proof.
  apply (forward_decomposition_flag_is_transparent 2 [echo_block] []
           [[1; 2; 3; 4]] no_exogenous_4 [[1; 1; 1; 1]] [[1; 1; 1; 1]]
           [[3; 4]] [[9; 10]] (Some (mkTensor3 1 2 2 [[[2; 2]; [7; 8]]])) [[1; 1]]).
  reflexivity.
Defined.

(** Not a number and infinity times zero are not a number. *)
Lemma masked_not_a_number_stays :
  SFmul 24 128 S754_nan f_zero = S754_nan
  ∧ SFmul 24 128 (S754_infinity false) f_zero = S754_nan.
Proof. done. Qed.

Lemma unavailable_positions_stay_zero_witness :
  foldM (forecast_body (H := float32_scalar) (flip3 no_float_exogenous)
           no_float_exogenous [] (flip2 [[f_one; f_zero]]))
        [silent_float_block] ([[f_five; f_one]], [[f_one]])
    = Ok ([[f_zero; f_one]], [[f_two; f_two]])
  ∧ ∃ row v, [[f_zero; f_one]] !! 0%nat = Some row ∧ row !! 0%nat = Some v
             ∧ float32_zero v.
Proof.
  assert (foldM (forecast_body (H := float32_scalar) (flip3 no_float_exogenous)
                   no_float_exogenous [] (flip2 [[f_one; f_zero]]))
                [silent_float_block] ([[f_five; f_one]], [[f_one]])
          = Ok ([[f_zero; f_one]], [[f_two; f_two]])) as Hloop by reflexivity.
  split; [exact Hloop|].
  apply (unavailable_positions_stay_zero (H := float32_scalar)
           float32_finite float32_zero [] silent_float_block
           no_float_exogenous no_float_exogenous [] [[f_one; f_zero]]
           ([[f_five; f_one]], [[f_one]])
           [[f_five; f_one]] [[f_one]] [[f_zero; f_zero]] [[f_one; f_one]]
           [[f_five; f_one]] [[f_zero; f_one]] [[f_two; f_two]]
           float32_mul_zero eq_refl eq_refl eq_refl eq_refl Hloop
           0%nat 0%nat [f_five; f_one] f_five [f_zero; f_one] f_zero
           eq_refl eq_refl I eq_refl eq_refl I).
Defined.

Lemma forecast_on_conforming_blocks_witness :
  (∃ aggregate,
     forecast [echo_block] [[1; 2]] no_exogenous [[1; 1]] no_exogenous []
       = Ok aggregate
     ∧ has_shape 1 2 aggregate)
  ∧ (size2 no_exogenous = 2%nat →
     ∃ aggregate block_forecasts,
       forecast_decomposition [echo_block] [[1; 2]] no_exogenous [[1; 1]]
                              no_exogenous [] = Ok (aggregate, block_forecasts)
       ∧ size0 block_forecasts = 1%nat
       ∧ size1 block_forecasts = 2%nat
       ∧ size2 block_forecasts = 2%nat).
Proof.
  apply (forecast_on_conforming_blocks 1 2 2 [echo_block] [[1; 2]] no_exogenous
           [[1; 1]] no_exogenous []).
  - lia.
  - lia.
  - discriminate.
  - split; [reflexivity|]. repeat constructor.
  - split; [reflexivity|]. repeat constructor.
  - constructor; [|constructor]. intros residuals Hshape.
    exists residuals, [[7; 8]]. split; [reflexivity|]. split; [exact Hshape|].
    split; [reflexivity|]. repeat constructor.
Defined.

(** What int() makes of some fields of a mode name. *)
Lemma py_int_readings :
  py_int " 2" = Ok 2 ∧ py_int "1_0" = Ok 10 ∧ py_int "-0" = Ok 0
  ∧ py_int "+ 2" = Raise ValueError ∧ py_int "1__0" = Raise ValueError
  ∧ py_int "_1" = Raise ValueError ∧ py_int "" = Raise ValueError
  ∧ py_int "cubic" = Raise ValueError.
Proof. by vm_compute. Qed.

Lemma cubic_mode_needs_a_sub_batch_size_witness :
  (IdentityBasis_init 4 2 "cubic" = Ok (mkIdentityBasis 2 4 "cubic")
   ∧ IdentityBasis_forward (H0 := nearest_lines) (mkIdentityBasis 2 4 "cubic")
       [[1; 2; 3; 4; 5]]
     = Raise ValueError)
  ∧ (IdentityBasis_init 4 2 "bicubic- 0_0" = Ok (mkIdentityBasis 2 4 "bicubic- 0_0")
     ∧ IdentityBasis_forward (H0 := nearest_lines)
         (mkIdentityBasis 2 4 "bicubic- 0_0") [[1; 2; 3; 4; 5]]
       = Raise ZeroDivisionError).
Proof.
  split.
  - destruct (cubic_mode_needs_a_sub_batch_size (H0 := nearest_lines) 4 2
                "cubic" eq_refl ltac:(simpl; lia))
      as (self & Hinit & Hvalue & _).
    injection Hinit as <-. split; [reflexivity|]. apply Hvalue. reflexivity.
  - destruct (cubic_mode_needs_a_sub_batch_size (H0 := nearest_lines) 4 2
                "bicubic- 0_0" eq_refl ltac:(simpl; lia))
      as (self & Hinit & _ & Hzero).
    injection Hinit as <-. split; [reflexivity|]. apply Hzero; [reflexivity|lia].
Defined.


Lemma constructed_blocks_have_usable_modes_witness :
  name_in (pooling_mode plain_config) ["max"; "stochastic"; "none"]%string = true
  ∧ name_in (output_layer plain_config) ["linear"; "conv"; "max"]%string = true.
Proof.
  destruct (create_stack plain_config) as [[h block_list]|e] eqn:Hcreate;
    [|by vm_compute in Hcreate].
  apply (constructed_blocks_have_usable_modes plain_config h block_list Hcreate).
  intros ->. by vm_compute in Hcreate.
Defined.

Lemma unknown_layer_mode_builds_no_hidden_layer_witness :
  ∃ block,
    NHITSBlock_init 4 2 0 0 0 6 [10; 4] 2 1 "max" "dense" "linear"
      (mkIdentityBasis 2 4 "linear") 2 false 0%Q "ReLU" = Ok block
    ∧ tail (b_n_theta_hidden block) = [10; 4]
    ∧ (∃ h, last (b_n_theta_hidden block) = Some h
            ∧ build_output_layer "linear" h 6 (Some "ReLU"%string)
              = Ok (b_layers block))
    ∧ ∀ other_n_layers,
        NHITSBlock_init 4 2 0 0 0 6 [10; 4] 2 1 "max" "dense" "linear"
          (mkIdentityBasis 2 4 "linear") other_n_layers false 0%Q "ReLU" = Ok block.
Proof.
  destruct (NHITSBlock_init 4 2 0 0 0 6 [10; 4] 2 1 "max" "dense" "linear"
              (mkIdentityBasis 2 4 "linear") 2 false 0%Q "ReLU")
    as [block|e] eqn:Hinit; [|by vm_compute in Hinit].
  exists block. split; [reflexivity|].
  apply (unknown_layer_mode_builds_no_hidden_layer 4 2 0 0 0 6 [10; 4] 2 1
           "max" "dense" "linear" (mkIdentityBasis 2 4 "linear") false 0%Q "ReLU"
           2 block).
  - discriminate.
  - discriminate.
  - exact Hinit.
Defined.

Lemma hidden_layers_need_configured_widths_witness :
  NHITSBlock_init 4 2 0 0 0 6 [10; 4] 2 1 "max" "linear" "linear"
    (mkIdentityBasis 2 4 "linear") 3 false 0%Q "ReLU" = Raise IndexError.
Proof.
  apply (proj2 (hidden_layers_need_configured_widths 4 2 0 0 0 6 [10; 4] 2 1
                  "max" "linear" "linear" (mkIdentityBasis 2 4 "linear") false 0%Q
                  "ReLU" 3 (or_intror eq_refl))).
  - reflexivity.
  - reflexivity.
  - reflexivity.
  - lia.
  - lia.
  - lia.
  - lia.
  - lia.
  - repeat constructor; lia.
  - unfold Qle. simpl. lia.
  - simpl. lia.
Defined.

Lemma linear_network_fits_iff_depth_reaches_last_width_witness :
  ∃ block w0,
    NHITSBlock_init 4 2 0 0 0 6 [10; 4] 2 1 "max" "linear" "linear"
      (mkIdentityBasis 2 4 "linear") 1 false 0%Q "ReLU" = Ok block
    ∧ head (b_n_theta_hidden block) = Some w0
    ∧ layers_forward_width (b_layers block) w0 = Raise RuntimeError.
Proof.
  destruct (NHITSBlock_init 4 2 0 0 0 6 [10; 4] 2 1 "max" "linear" "linear"
              (mkIdentityBasis 2 4 "linear") 1 false 0%Q "ReLU")
    as [block|e] eqn:Hinit; [|by vm_compute in Hinit].
  destruct (linear_network_fits_iff_depth_reaches_last_width 4 2 0 0 0 6 [10; 4] 2 1
              "max" "linear" "linear" (mkIdentityBasis 2 4 "linear") false 0%Q "ReLU"
              1 block eq_refl eq_refl Hinit) as (w0 & Hhead & _ & Hraise).
  exists block, w0. split; [reflexivity|]. split; [exact Hhead|].
  apply Hraise. vm_compute in Hinit. injection Hinit as <-. simpl. discriminate.
Defined.

Lemma max_pooled_window_fits_iff_kernel_divides_witness :
  ∃ block x w0,
    NHITSBlock_init 5 2 0 0 0 7 [8] 2 1 "max" "linear" "linear"
      (mkIdentityBasis 2 5 "linear") 1 false 0%Q "ReLU" = Ok block
    ∧ projection_input block (λ x_s, Ok x_s) [] [[1; 2; 3; 4; 5]]
        no_exogenous no_exogenous [] = Ok x
    ∧ has_shape 1 (Z.to_nat (5 / 2)) x
    ∧ head (b_n_theta_hidden block) = Some w0
    ∧ (w0 = 5 / 2 ↔ 5 mod 2 = 0)
    ∧ (5 mod 2 ≠ 0 →
       layers_forward_width (b_layers block) (5 / 2) = Raise RuntimeError).
Proof.
  destruct (NHITSBlock_init 5 2 0 0 0 7 [8] 2 1 "max" "linear" "linear"
              (mkIdentityBasis 2 5 "linear") 1 false 0%Q "ReLU")
    as [block|e] eqn:Hinit; [|by vm_compute in Hinit].
  destruct (max_pooled_window_fits_iff_kernel_divides 5 2 0 7 [8] 2 1 "linear"
              (mkIdentityBasis 2 5 "linear") 1 false 0%Q "ReLU"
              (λ x_s, Ok x_s) [] no_exogenous no_exogenous [] block 1
              [[1; 2; 3; 4; 5]])
    as (x & w0 & Hrest).
  - lia.
  - lia.
  - exact Hinit.
  - split; [reflexivity|]. repeat constructor.
  - exists block, x, w0. split; [reflexivity|]. exact Hrest.
Defined.

Lemma unpooled_window_fits_iff_kernel_is_one_witness :
  ∃ block,
    NHITSBlock_init 4 2 0 0 0 6 [8] 2 1 "none" "linear" "linear"
      (mkIdentityBasis 2 4 "linear") 1 false 0%Q "ReLU" = Ok block
    ∧ projection_input block (λ x_s, Ok x_s) [] [[1; 2; 3; 4]]
        no_exogenous no_exogenous [] = Ok [[1; 2; 3; 4]]
    ∧ ∃ w0,
        head (b_n_theta_hidden block) = Some w0
        ∧ (w0 = 4 ↔ 2 = 1 ∨ 4 = 1)
        ∧ (w0 ≠ 4 → layers_forward_width (b_layers block) 4 = Raise RuntimeError).
Proof.
  destruct (NHITSBlock_init 4 2 0 0 0 6 [8] 2 1 "none" "linear" "linear"
              (mkIdentityBasis 2 4 "linear") 1 false 0%Q "ReLU")
    as [block|e] eqn:Hinit; [|by vm_compute in Hinit].
  exists block. split; [reflexivity|].
  apply (unpooled_window_fits_iff_kernel_is_one 4 2 0 6 [8] 2 1 "linear"
           (mkIdentityBasis 2 4 "linear") 1 false 0%Q "ReLU"
           (λ x_s, Ok x_s) [] no_exogenous no_exogenous [] block [[1; 2; 3; 4]]).
  - lia.
  - lia.
  - lia.
  - exact Hinit.
Defined.

Lemma block_list_has_one_position_per_block_witness :
  ∃ h block_list,
    create_stack plain_config = Ok (h, block_list)
    ∧ length block_list
      = sum_list (map Z.to_nat (take (length (stack_types plain_config))
                                     (n_blocks plain_config)))
    ∧ (length (stack_types plain_config) ≤ length (n_blocks plain_config))%nat.
Proof.
  destruct (create_stack plain_config) as [[h block_list]|e] eqn:Hcreate;
    [|by vm_compute in Hcreate].
  exists h, block_list. split; [reflexivity|].
  apply (block_list_has_one_position_per_block plain_config h block_list Hcreate).
Defined.

Lemma stack_blocks_use_the_parameters_of_their_stack_witness :
  ∃ h block_list,
    create_stack plain_config = Ok (h, block_list)
    ∧ ∃ ref block freq,
        block_list !! (stack_offset plain_config 1 + 1)%nat = Some ref
        ∧ h !! ref = Some block
        ∧ n_freq_downsample plain_config !! 1%nat = Some freq ∧ freq ≠ 0
        ∧ b_n_theta block
          = n_time_in plain_config + Z.max (n_time_out plain_config / freq) 1
        ∧ n_time_in plain_config < b_n_theta block
        ∧ n_pool_kernel_size plain_config !! 1%nat
          = Some (b_n_pool_kernel_size block)
        ∧ b_n_pool_kernel_size block ≠ 0
        ∧ b_basis block
          = mkIdentityBasis (n_time_out plain_config) (n_time_in plain_config)
              (interpolation_mode_ plain_config).
Proof.
  destruct (create_stack plain_config) as [[h block_list]|e] eqn:Hcreate;
    [|by vm_compute in Hcreate].
  exists h, block_list. split; [reflexivity|].
  apply (stack_blocks_use_the_parameters_of_their_stack plain_config h block_list
           1 2 1 Hcreate).
  - simpl. lia.
  - reflexivity.
  - lia.
Defined.

Lemma weights_initialised_once_per_position_witness :
  ∃ h block_list block,
    create_stack shared_config = Ok (h, block_list)
    ∧ h !! 0%nat = Some block
    ∧ b_initialized block = occurrences 0 block_list
    ∧ (0 < b_initialized block)%nat
    ∧ (shared_weights shared_config = false → b_initialized block = 1%nat).
Proof.
  destruct (create_stack shared_config) as [[h block_list]|e] eqn:Hcreate;
    [|by vm_compute in Hcreate].
  destruct (h !! 0%nat) as [block|] eqn:Href;
    [|vm_compute in Hcreate; injection Hcreate as <- <-; discriminate].
  exists h, block_list, block. split; [reflexivity|]. split; [exact Href|].
  apply (weights_initialised_once_per_position shared_config h block_list 0 block
           Hcreate Href).
Defined.

Lemma selu_overrides_the_initialization_witness :
  name_in (initialization selu_config) INITIALIZATIONS = false
  ∧ NHITS_model selu_config ≠ Raise (AssertionError InitializationAssert).
Proof.
  split; [reflexivity|].
  apply (proj2 (selu_overrides_the_initialization selu_config eq_refl)).
Defined.

Lemma forward_returns_forecast_of_the_outsample_shape_witness :
  ∃ outsample_y aggregate mask,
    NHITS_forward 2 [echo_block] [] [[1; 2; 3; 4]] no_exogenous_4
      [[1; 1; 1; 1]] [[1; 1; 1; 1]] false
    = Ok (outsample_y, aggregate, None, mask)
    ∧ has_shape 1 (Z.to_nat 2) outsample_y
    ∧ has_shape 1 (Z.to_nat 2) aggregate
    ∧ has_shape 1 (Z.to_nat 2) mask.
Proof.
  apply (forward_returns_forecast_of_the_outsample_shape 2 [echo_block] 1 4 []
           [[1; 2; 3; 4]] no_exogenous_4 [[1; 1; 1; 1]] [[1; 1; 1; 1]]).
  - lia.
  - discriminate.
  - split; [reflexivity|]. repeat constructor.
  - split; [reflexivity|]. repeat constructor.
  - split; [reflexivity|]. repeat constructor.
  - constructor; [|constructor]. intros residuals Hshape.
    exists residuals, [[7; 8]]. split; [reflexivity|]. split; [exact Hshape|].
    split; [reflexivity|]. repeat constructor.
Defined.

Lemma constructed_block_keeps_a_forecast_knot_witness :
  ∃ h block_list,
    create_stack plain_config = Ok (h, block_list)
    ∧ ∃ ref block freq knots,
        block_list !! (stack_offset plain_config 1 + 0)%nat = Some ref
        ∧ h !! ref = Some block
        ∧ n_freq_downsample plain_config !! 1%nat = Some freq
        ∧ Z.of_nat knots = Z.max (n_time_out plain_config / freq) 1
        ∧ (0 < knots)%nat
        ∧ ∀ (B : nat) (theta : Tensor2 Z),
            has_shape B (Z.to_nat (b_n_theta block)) theta →
            has_shape B (Z.to_nat (n_time_in plain_config))
                      (map (slice_to (backcast_size (b_basis block))) theta)
            ∧ has_shape B knots
                        (map (slice_from (backcast_size (b_basis block))) theta).
Proof.
  destruct (create_stack plain_config) as [[h block_list]|e] eqn:Hcreate;
    [|by vm_compute in Hcreate].
  exists h, block_list. split; [reflexivity|].
  apply (constructed_block_keeps_a_forecast_knot plain_config h block_list 1 2 0).
  - simpl. lia.
  - exact Hcreate.
  - simpl. lia.
  - reflexivity.
  - lia.
Defined.

Lemma projection_input_has_the_derived_width_witness :
  ∃ block x w0,
    NHITSBlock_init 4 2 1 0 0 6 [8] 2 1 "max" "linear" "linear"
      (mkIdentityBasis 2 4 "linear") 1 false 0%Q "ReLU" = Ok block
    ∧ projection_input block (λ x_s, Ok x_s) [] [[1; 2; 3; 4]]
        past_channel future_channel [] = Ok x
    ∧ head (b_n_theta_hidden block) = Some w0
    ∧ has_shape 1 (Z.to_nat w0) x.
Proof.
  destruct (NHITSBlock_init 4 2 1 0 0 6 [8] 2 1 "max" "linear" "linear"
              (mkIdentityBasis 2 4 "linear") 1 false 0%Q "ReLU")
    as [block|e] eqn:Hinit; [|by vm_compute in Hinit].
  destruct (projection_input_has_the_derived_width 4 2 1 0 0 6 [8] 2 1
              "linear" "linear" (mkIdentityBasis 2 4 "linear") 1 false 0%Q "ReLU"
              (λ x_s, Ok x_s) [] block 1 [[1; 2; 3; 4]]
              past_channel future_channel [])
    as (x & w0 & Hrest).
  - lia.
  - reflexivity.
  - lia.
  - lia.
  - lia.
  - lia.
  - lia.
  - exact Hinit.
  - split; [reflexivity|]. repeat constructor.
  - split; [reflexivity|]. repeat constructor.
  - split; [reflexivity|]. repeat constructor.
  - intros Hs. lia.
  - exists block, x, w0. split; [reflexivity|]. exact Hrest.
Defined.

Lemma decomposition_needs_exogenous_horizon_witness :
  (∃ aggregate,
     forecast [echo_block] [[1; 2]] no_exogenous [[1; 1]] no_exogenous_3 []
       = Ok aggregate)
  ∧ forecast_decomposition [echo_block] [[1; 2]] no_exogenous [[1; 1]]
                           no_exogenous_3 [] = Raise RuntimeError.
Proof.
  apply (decomposition_needs_exogenous_horizon 1 2 2 [echo_block] [[1; 2]]
           no_exogenous [[1; 1]] no_exogenous_3 []).
  - lia.
  - lia.
  - discriminate.
  - split; [reflexivity|]. repeat constructor.
  - split; [reflexivity|]. repeat constructor.
  - constructor; [|constructor]. intros residuals Hshape.
    exists residuals, [[7; 8]]. split; [reflexivity|]. split; [exact Hshape|].
    split; [reflexivity|]. repeat constructor.
  - simpl. lia.
Defined.

Lemma shared_first_stack_is_batch_normalised_witness :
  ∃ h block_list block,
    create_stack shared_config = Ok (h, block_list)
    ∧ block_list !! 2%nat = Some 0%nat
    ∧ h !! 0%nat = Some block
    ∧ b_batch_normalization block = batch_normalization shared_config.
Proof.
  destruct (create_stack shared_config) as [[h block_list]|e] eqn:Hcreate;
    [|by vm_compute in Hcreate].
  destruct (shared_first_stack_is_batch_normalised shared_config h block_list 3 2)
    as (block & Hrest).
  - reflexivity.
  - exact Hcreate.
  - simpl. lia.
  - reflexivity.
  - lia.
  - exists h, block_list, block. split; [reflexivity|]. exact Hrest.
Defined.

Lemma block_forward_keeps_the_shapes_of_the_loop_witness :
  ∃ block,
    NHITSBlock_init 4 2 0 0 0 5 [8] 2 1 "max" "linear" "linear"
      (mkIdentityBasis 2 4 "nearest") 1 false 0%Q "ReLU" = Ok block
    ∧ conforming 1 (Z.to_nat 4) (Z.to_nat 2) no_exogenous no_exogenous []
        (NHITSBlock_forward (H0 := nearest_lines) block (λ x_s, Ok x_s)
                            constant_theta []).
Proof.
  destruct (NHITSBlock_init 4 2 0 0 0 5 [8] 2 1 "max" "linear" "linear"
              (mkIdentityBasis 2 4 "nearest") 1 false 0%Q "ReLU")
    as [block|e] eqn:Hinit; [|by vm_compute in Hinit].
  exists block. split; [reflexivity|].
  apply (block_forward_keeps_the_shapes_of_the_loop (H0 := nearest_lines)
           4 2 0 0 0 5 [8] 2 1 "linear" "linear" (mkIdentityBasis 2 4 "nearest")
           1 false 0%Q "ReLU" (λ x_s, Ok x_s) constant_theta [] block 1 1
           no_exogenous no_exogenous []).
  - lia.
  - reflexivity.
  - lia.
  - lia.
  - lia.
  - lia.
  - lia.
  - lia.
  - reflexivity.
  - reflexivity.
  - left. reflexivity.
  - exact Hinit.
  - split; [reflexivity|]. repeat constructor.
  - split; [reflexivity|]. repeat constructor.
  - intros Hs. lia.
  - intros x [Hlen Hrows]. exists (map (λ _, [1; 2; 3; 4; 9]) x).
    split; [reflexivity|]. split; [rewrite length_map; exact Hlen|].
    rewrite Forall_fmap. apply Forall_forall. intros row Hrow. reflexivity.
  - intros mode line Hline. unfold F_interpolate, nearest_lines.
    rewrite length_map. apply length_seq.
Defined.
